(** * vorm: the migration engine, embedded and verified

    A shallow embedding of the migration engine of [vorzela/vorm]
    ([internal/migration/{manager,executor,tracker}.go], the generator and
    [internal/utils] string helpers) together with proofs about discovery,
    fingerprint checks, batching, statement splitting and rollbacks.

    Conventions of the embedding.
    - A Go [string] is a Rocq [string]: a sequence of bytes.  Comparison is
      the bytewise lexicographic one ([String.leb]), as in Go.
    - A Go [error] result is [option MigrationError] ([None] is [nil]); a
      pair (value, error) is a sum with the error on the left.
    - The PostgreSQL server is a parameter: a type of user-schema states and
      a function executing one statement on it ([PgDriver]).  The ledger
      table lives next to the user schema in [Database]; statements of a
      migration body act on the user schema only.  Connection-level
      failures (connect, begin, commit, query transport) are outside the
      model, so [Manager.Initialize] is the identity on a database whose
      ledger table exists.
    - SHA-256 is a parameter ([Hasher]); [time.Now()] is an argument. *)

From Stdlib Require Import ZArith Ascii String List Lia Sorting.Sorted Permutation.
From stdpp Require Import base tactics option list sorting gmap strings pretty.

Local Open Scope Z_scope.

(* ===================================================================== *)
(** * Part I: definitions *)
(* ===================================================================== *)

(** ** Go's [strings] package, the part the engine uses *)

Module GoStrings.

Definition bytes (codes : list Z) : string :=
  string_of_list_ascii (map (fun z => ascii_of_N (Z.to_N z)) codes).

Definition is_empty (s : string) : bool :=
  match s with EmptyString => true | String _ _ => false end.

(** [strings.HasPrefix(s, p)] *)
Definition HasPrefix (s p : string) : bool := String.prefix p s.

(** [strings.HasSuffix(s, p)] *)
Definition HasSuffix (s p : string) : bool :=
  String.prefix (String.rev p) (String.rev s).

(** [strings.TrimSuffix(s, suffix)] *)
Definition TrimSuffix (s suffix : string) : string :=
  if HasSuffix s suffix
  then substring 0 (String.length s - String.length suffix) s
  else s.

(** [strings.TrimPrefix]-like helper: the rest of [s] after prefix [p]. *)
Fixpoint strip_prefix (p s : string) : option string :=
  match p, s with
  | EmptyString, _ => Some s
  | String a p', String b s' =>
      if Ascii.eqb a b then strip_prefix p' s' else None
  | String _ _, EmptyString => None
  end.

(** [strings.Contains(s, sub)] *)
Fixpoint Contains (s sub : string) : bool :=
  String.prefix sub s ||
  match s with
  | EmptyString => false
  | String _ s' => Contains s' sub
  end.

(** [strings.Split(s, sep)] for a one-byte separator.  The result is never
    empty: a string without separator is returned whole. *)
Fixpoint Split_go (sep : ascii) (cur : string) (s : string) : list string :=
  match s with
  | EmptyString => [String.rev cur]
  | String c s' =>
      if Ascii.eqb c sep
      then String.rev cur :: Split_go sep EmptyString s'
      else Split_go sep (String c cur) s'
  end.

Definition Split (s : string) (sep : ascii) : list string :=
  Split_go sep EmptyString s.

(** [strings.Join(elems, sep)] *)
Definition Join (elems : list string) (sep : string) : string :=
  String.concat sep elems.

(** The UTF-8 encodings of the runes for which [unicode.IsSpace] holds:
    tab, LF, VT, FF, CR, space, U+0085, U+00A0, U+1680, U+2000..U+200A,
    U+2028, U+2029, U+202F, U+205F, U+3000. *)
Definition space_runes : list string :=
  [ bytes [9]; bytes [10]; bytes [11]; bytes [12]; bytes [13]; bytes [32];
    bytes [194; 133]; bytes [194; 160];
    bytes [225; 154; 128];
    bytes [226; 128; 128]; bytes [226; 128; 129]; bytes [226; 128; 130];
    bytes [226; 128; 131]; bytes [226; 128; 132]; bytes [226; 128; 133];
    bytes [226; 128; 134]; bytes [226; 128; 135]; bytes [226; 128; 136];
    bytes [226; 128; 137]; bytes [226; 128; 138];
    bytes [226; 128; 168]; bytes [226; 128; 169]; bytes [226; 128; 175];
    bytes [226; 129; 159];
    bytes [227; 128; 128] ].

(** Remove one leading rune of [runes], if there is one. *)
Fixpoint strip_one (runes : list string) (s : string) : option string :=
  match runes with
  | [] => None
  | r :: runes' =>
      match strip_prefix r s with
      | Some rest => Some rest
      | None => strip_one runes' s
      end
  end.

Fixpoint trim_left (fuel : nat) (runes : list string) (s : string) : string :=
  match fuel with
  | O => s
  | S fuel' =>
      match strip_one runes s with
      | Some rest => trim_left fuel' runes rest
      | None => s
      end
  end.

(** [strings.TrimLeftFunc(s, unicode.IsSpace)]: every stripped rune is at
    least one byte long, so [length s] rounds are enough. *)
Definition TrimLeftSpace (s : string) : string :=
  trim_left (String.length s) space_runes s.

(** [strings.TrimRightFunc(s, unicode.IsSpace)], on the reversed bytes. *)
Definition TrimRightSpace (s : string) : string :=
  String.rev
    (trim_left (String.length s) (map String.rev space_runes) (String.rev s)).

(** [strings.TrimSpace(s)] *)
Definition TrimSpace (s : string) : string :=
  TrimRightSpace (TrimLeftSpace s).

(** The part of a path after its last ["/"]:
    [p[strings.LastIndex(p, "/")+1:]] (the whole of [p] without ["/"]). *)
Definition after_last_slash (p : string) : string :=
  List.last (Split p "/"%char) EmptyString.

(** Character classes of the regular expressions. *)
Definition is_digit (c : ascii) : bool :=
  let n := nat_of_ascii c in (48 <=? n)%nat && (n <=? 57)%nat.
Definition is_lower (c : ascii) : bool :=
  let n := nat_of_ascii c in (97 <=? n)%nat && (n <=? 122)%nat.
Definition is_upper (c : ascii) : bool :=
  let n := nat_of_ascii c in (65 <=? n)%nat && (n <=? 90)%nat.
Definition is_word (c : ascii) : bool :=
  is_lower c || is_upper c || is_digit c || Ascii.eqb c "_"%char.

Fixpoint string_forallb (f : ascii -> bool) (s : string) : bool :=
  match s with
  | EmptyString => true
  | String c s' => f c && string_forallb f s'
  end.

Fixpoint string_filter (f : ascii -> bool) (s : string) : string :=
  match s with
  | EmptyString => EmptyString
  | String c s' =>
      if f c then String c (string_filter f s') else string_filter f s'
  end.

Fixpoint string_map (f : ascii -> ascii) (s : string) : string :=
  match s with
  | EmptyString => EmptyString
  | String c s' => String (f c) (string_map f s')
  end.

End GoStrings.

Import GoStrings.

(** ** [pkg/errors]: the error value *)

(** [errors.MigrationError] without its [Timestamp] ([time.Now()]). *)
Record MigrationError := mkError {
  Type_ : string;      (* "connection", "migration", "validation", "file" *)
  Message : string;
  Details : string;
  Migration_ : string  (* migration name, if applicable *)
}.

Definition NewMigrationError (message details migration : string) :=
  mkError "migration" message details migration.
Definition NewValidationError (message details : string) :=
  mkError "validation" message details "".
Definition NewFileError (message details : string) :=
  mkError "file" message details "".

(** The [Error()] method of [MigrationError] *)
Definition Error (e : MigrationError) : string :=
  if is_empty (Migration_ e)
  then "[" +:+ Type_ e +:+ "] " +:+ Message e +:+ ": " +:+ Details e
  else "[" +:+ Type_ e +:+ "] " +:+ Message e +:+ " (migration: "
       +:+ Migration_ e +:+ "): " +:+ Details e.

(** ** [internal/utils]: names and file names *)

(** One step of the regular expression [^(\d{4}_\d{2}_\d{2}_\d{6})_(.+)$]:
    exactly [n] ASCII digits at the head of [s]. *)
Fixpoint take_digits (n : nat) (s : string) : option (string * string) :=
  match n with
  | O => Some (EmptyString, s)
  | S n' =>
      match s with
      | String c s' =>
          if is_digit c
          then match take_digits n' s' with
               | Some (ds, rest) => Some (String c ds, rest)
               | None => None
               end
          else None
      | EmptyString => None
      end
  end.

Definition take_underscore (s : string) : option string :=
  match s with
  | String c s' => if Ascii.eqb c "_"%char then Some s' else None
  | EmptyString => None
  end.

(** [.] of Go's regexp matches everything but a line feed. *)
Definition is_dot (c : ascii) : bool := negb (Ascii.eqb c "010"%char).

(** [re.FindStringSubmatch] for [^(\d{4}_\d{2}_\d{2}_\d{6})_(.+)$]: the two
    groups, when the whole of [s] matches. *)
Definition match_migration_filename (s : string) : option (string * string) :=
  '(y, s1) ← take_digits 4 s;
  s1 ← take_underscore s1;
  '(m, s2) ← take_digits 2 s1;
  s2 ← take_underscore s2;
  '(d, s3) ← take_digits 2 s2;
  s3 ← take_underscore s3;
  '(t, s4) ← take_digits 6 s3;
  label ← take_underscore s4;
  if negb (is_empty label) && string_forallb is_dot label
  then Some (y +:+ "_" +:+ m +:+ "_" +:+ d +:+ "_" +:+ t, label)
  else None.

(** [utils.ParseMigrationFilename] *)
Definition ParseMigrationFilename (filename : string)
  : string * string * bool :=
  let filename := TrimSuffix filename ".sql" in
  match match_migration_filename filename with
  | Some (timestamp, name) => (timestamp, name, true)
  | None => (EmptyString, EmptyString, false)
  end.

(** The pattern in words: [n] ASCII digits. *)
Definition digits (n : nat) (s : string) : Prop :=
  String.length s = n /\ string_forallb is_digit s = true.

(** The pattern in words: [YYYY_MM_DD_HHMMSS_<label>], the label non-empty
    and on one line. *)
Definition timestamp_label_shape (s : string) : Prop :=
  exists y m d t label : string,
    s = y +:+ "_" +:+ m +:+ "_" +:+ d +:+ "_" +:+ t +:+ "_" +:+ label
    /\ digits 4 y /\ digits 2 m /\ digits 2 d /\ digits 6 t
    /\ label <> "" /\ string_forallb is_dot label = true.

(** [utils.ValidateMigrationName]: non-empty and [^[a-zA-Z0-9_]+$]. *)
Definition ValidateMigrationName (name : string) : bool :=
  if is_empty name then false else string_forallb is_word name.

Section Naming.

(** [strings.ToLower] on a string with a non-ASCII byte goes through the
    Unicode case tables, which are not part of this repository. *)
Variable unicode_ToLower : string -> string.

Definition is_ascii_byte (c : ascii) : bool := (nat_of_ascii c <? 128)%nat.

Definition ascii_lower (c : ascii) : ascii :=
  if is_upper c then ascii_of_nat (nat_of_ascii c + 32) else c.

Definition ToLower (s : string) : string :=
  if string_forallb is_ascii_byte s
  then string_map ascii_lower s
  else unicode_ToLower s.

(** [ReplaceAllString(s, "${1}_${2}")] for [([a-z0-9])([A-Z])]: leftmost
    matches, not overlapping. *)
Fixpoint split_camel (s : string) : string :=
  match s with
  | EmptyString => EmptyString
  | String a s' =>
      match s' with
      | EmptyString => s
      | String b r =>
          if (is_lower a || is_digit a) && is_upper b
          then String a (String "_" (String b (split_camel r)))
          else String a (split_camel s')
      end
  end.

Definition replace_byte (old new : ascii) (s : string) : string :=
  string_map (fun c => if Ascii.eqb c old then new else c) s.

(** [ReplaceAllString(s, "_")] for [_+]. *)
Fixpoint squeeze_underscores (s : string) : string :=
  match s with
  | EmptyString => EmptyString
  | String a s' =>
      if Ascii.eqb a "_"%char
      then match s' with
           | String b _ =>
               if Ascii.eqb b "_"%char
               then squeeze_underscores s'
               else String a (squeeze_underscores s')
           | EmptyString => s
           end
      else String a (squeeze_underscores s')
  end.

(** [strings.Trim(s, "_")] *)
Definition trim_underscores (s : string) : string :=
  let l := trim_left (String.length s) ["_"] s in
  String.rev (trim_left (String.length l) ["_"] (String.rev l)).

(** [utils.ToSnakeCase] *)
Definition ToSnakeCase (s : string) : string :=
  if is_empty s then EmptyString else
  let snake := split_camel s in
  let snake := ToLower snake in
  let snake := replace_byte " " "_" snake in
  let snake := replace_byte "-" "_" snake in
  let snake := squeeze_underscores snake in
  trim_underscores snake.

(** [ReplaceAllString(name, "")] for [[^a-zA-Z0-9_]]; a byte above 127 is
    never in the class, whatever rune it belongs to. *)
Definition strip_non_word (name : string) : string :=
  string_filter is_word name.

Definition starts_with_digit (name : string) : bool :=
  match name with
  | String c _ => is_digit c
  | EmptyString => false
  end.

(** [utils.SanitizeMigrationName] *)
Definition SanitizeMigrationName (name : string) : string :=
  let name := ToSnakeCase name in
  let name := strip_non_word name in
  if starts_with_digit name then "migration_" +:+ name else name.

(** [utils.GenerateMigrationFilename]; [timestamp] is
    [utils.GenerateTimestamp()], the clock formatted as [2006_01_02_150405]. *)
Definition GenerateMigrationFilename (timestamp name : string) : string :=
  let sanitizedName := SanitizeMigrationName name in
  timestamp +:+ "_" +:+ sanitizedName +:+ ".sql".

(** [Generator.GenerateMigration], the name and the file name it settles on
    (the template body and the write to disk are left out). *)
Definition GenerateMigration (timestamp name : string) : string * string :=
  let name :=
    if negb (ValidateMigrationName name)
    then SanitizeMigrationName name else name in
  let filename := GenerateMigrationFilename timestamp name in
  (name, filename).

End Naming.

(** ** The generator: migration files and discovery *)

(** [crypto/sha256] followed by [%x]. *)
Class Hasher := { sha256_hex : string -> string }.

(** [migration.Migration] without its two wall-clock fields
    ([ExecutedAt], [ExecutionTime]). *)
Record Migration := mkMigration {
  ID : Z;
  Name : string;
  Filename : string;
  Filepath : string;
  Batch : Z;
  Checksum : string;
  UpSQL : string;
  DownSQL : string
}.

(** [currentSection] of [parseMigrationContent]: [""], ["up"] or ["down"]. *)
Inductive section_tag := SectionNone | SectionUp | SectionDown.

Fixpoint parse_lines (lines : list string) (currentSection : section_tag)
    (upLines downLines : list string) : list string * list string :=
  match lines with
  | [] => (upLines, downLines)
  | line :: rest =>
      let trimmed := TrimSpace line in
      if Contains trimmed "-- +migrate Up"
      then parse_lines rest SectionUp upLines downLines
      else if Contains trimmed "-- +migrate Down"
      then parse_lines rest SectionDown upLines downLines
      else match currentSection with
           | SectionUp => parse_lines rest currentSection (upLines ++ [line]) downLines
           | SectionDown => parse_lines rest currentSection upLines (downLines ++ [line])
           | SectionNone => parse_lines rest currentSection upLines downLines
           end
  end.

(** [Generator.parseMigrationContent] *)
Definition parseMigrationContent (content : string) : string * string :=
  let lines := Split content "010"%char in
  let '(upLines, downLines) := parse_lines lines SectionNone [] [] in
  (Join upLines (bytes [10]), Join downLines (bytes [10])).

(** [Generator.calculateChecksum] *)
Definition calculateChecksum {hs : Hasher} (content : string) : string :=
  sha256_hex content.

(** [Generator.loadMigrationFile]; [content] is what [utils.ReadFile]
    returned for [filepath]. *)
Definition loadMigrationFile {hs : Hasher} (filepath content : string)
  : MigrationError + Migration :=
  let filename := after_last_slash filepath in
  let '(_, name, valid) := ParseMigrationFilename filename in
  if negb valid
  then inl (NewValidationError "Invalid migration filename" filename)
  else
    let '(upSQL, downSQL) := parseMigrationContent content in
    let checksum := calculateChecksum content in
    inr {| ID := 0; Name := name; Filename := filename; Filepath := filepath;
           Batch := 0; Checksum := checksum;
           UpSQL := upSQL; DownSQL := downSQL |}.

(** The migrations directory as [filepath.WalkDir] sees it: a readable tree
    whose directories list their entries in the order [os.ReadDir] returns
    them (sorted by name). *)
#[warnings="-register-all"]
Inductive DirEntry :=
| File (name : string) (content : string)
| Dir (name : string) (entries : list DirEntry).

Definition entry_name (d : DirEntry) : string :=
  match d with File n _ => n | Dir n _ => n end.

Definition IsDir (d : DirEntry) : bool :=
  match d with File _ _ => false | Dir _ _ => true end.

(** The calls [filepath.WalkDir(root, fn)] makes to [fn], in order, when
    [fn] never asks to skip: the entry itself, then, for a directory, the
    walks of its entries under [path/name] ([filepath.Join] of a clean
    path and a name). *)
Fixpoint walk (path : string) (d : DirEntry) : list (string * DirEntry) :=
  (path, d) ::
  match d with
  | File _ _ => []
  | Dir _ entries =>
      flat_map (fun e => walk (path +:+ "/" +:+ entry_name e) e) entries
  end.

(** Whether the file name at the end of [path] is well formed. *)
Definition name_valid (path : string) : bool :=
  snd (ParseMigrationFilename (after_last_slash path)).

(** A call of the walk that cannot fail: a directory, a file that is not
    [.sql], or a [.sql] file with a well-formed name. *)
Definition call_ok (c : string * DirEntry) : Prop :=
  IsDir (snd c) = true \/ HasSuffix (fst c) ".sql" = false
  \/ name_valid (fst c) = true.

(** The function literal handed to [WalkDir] in [LoadMigrations]; the
    slice [migrations] it appends to is threaded as [acc]. *)
Definition walk_fn {hs : Hasher} (path : string) (d : DirEntry)
    (migrations : list Migration) : MigrationError + list Migration :=
  match d with
  | Dir _ _ => inr migrations
  | File _ content =>
      if negb (HasSuffix path ".sql") then inr migrations
      else match loadMigrationFile path content with
           | inl err => inl err
           | inr migration => inr (migrations ++ [migration])
           end
  end.

(** [WalkDir] stops at the first error [fn] returns. *)
Fixpoint WalkDir {hs : Hasher} (calls : list (string * DirEntry))
    (migrations : list Migration) : MigrationError + list Migration :=
  match calls with
  | [] => inr migrations
  | (path, d) :: rest =>
      match walk_fn path d migrations with
      | inl err => inl err
      | inr migrations' => WalkDir rest migrations'
      end
  end.

(** The regular files of a walk whose path ends in [.sql], with their
    content: the files [LoadMigrations] parses, at any depth. *)
Definition sql_files (calls : list (string * DirEntry))
  : list (string * string) :=
  omap (fun c : string * DirEntry =>
          match snd c with
          | File _ content =>
              if HasSuffix (fst c) ".sql" then Some (fst c, content) else None
          | Dir _ _ => None
          end) calls.

(** The order [sort.Slice] sorts by: [Filename], bytewise. *)
Definition filename_le (a b : Migration) : Prop :=
  String.le (Filename a) (Filename b).

#[global] Instance filename_le_dec : RelDecision filename_le.
Proof. intros a b. unfold filename_le. apply _. Defined.

(** [Generator.LoadMigrations].  [migrationsPath] names the tree [root];
    when it names a regular file [utils.EnsureDirectoryExists] fails.
    [sort.Slice] leaves the order of equal file names open; the merge sort
    used here is one admissible choice. *)
Definition LoadMigrations {hs : Hasher} (migrationsPath : string) (root : DirEntry)
  : MigrationError + list Migration :=
  if negb (IsDir root)
  then inl (NewFileError "Failed to access migrations directory"
              (Error (NewFileError "Path exists but is not a directory"
                        migrationsPath)))
  else
    match WalkDir (walk migrationsPath root) [] with
    | inl err => inl (NewFileError "Failed to load migrations" (Error err))
    | inr migrations => inr (merge_sort filename_le migrations)
    end.

(** Discovery as a walk that does not enter subdirectories: the directory
    with only its regular files kept.  This follows the wording
    "non-recursively, subdirectories ignored" and is compared with
    [LoadMigrations] below. *)
Definition without_subdirectories (root : DirEntry) : DirEntry :=
  match root with
  | File _ _ => root
  | Dir n entries => Dir n (List.filter (fun e => negb (IsDir e)) entries)
  end.

Definition discover_non_recursive {hs : Hasher} (migrationsPath : string)
    (root : DirEntry) : MigrationError + list Migration :=
  LoadMigrations migrationsPath (without_subdirectories root).

(** ** The database *)

(** Why the server refuses an [INSERT] into the ledger table. *)
Inductive Violation := UniqueViolation | IntegerOutOfRange.

(** What the engine needs from PostgreSQL through [pgx]: running one
    statement of a migration body on the user schema ([tx.Exec]; [inl] is
    the text of the error), and the text of a constraint error. *)
Class PgDriver (U : Type) := {
  sql_exec : string -> U -> string + U;
  violation_text : Violation -> string
}.

(** A row of the ledger table ([creator.CreateMigrationsTable]):
    [id BIGSERIAL PRIMARY KEY], [migration VARCHAR(255) NOT NULL UNIQUE],
    [batch INTEGER NOT NULL], [checksum VARCHAR(64) NOT NULL]; the columns
    [executed_at] and [execution_time] and the two length limits are left
    out. *)
Record LedgerRow := mkRow {
  row_id : Z;
  row_migration : string;
  row_batch : Z;
  row_checksum : string
}.

(** The user schema, the ledger table (rows in heap order) and the next
    value of the [BIGSERIAL] sequence. *)
Record Database (U : Type) := mkDatabase {
  schema : U;
  ledger : list LedgerRow;
  next_id : Z
}.
Arguments mkDatabase {U}.
Arguments schema {U}.
Arguments ledger {U}.
Arguments next_id {U}.

(** Go's [int] is 64 bits wide on the supported platforms. *)
Definition wrap_int (z : Z) : Z := (z + 2^63) mod 2^64 - 2^63.

(** The range of an [INTEGER] column. *)
Definition in_int4 (z : Z) : bool := (- 2^31 <=? z) && (z <=? 2^31 - 1).

Definition id_le (a b : LedgerRow) : Prop := row_id a <= row_id b.
Definition id_ge (a b : LedgerRow) : Prop := row_id b <= row_id a.

#[global] Instance id_le_dec : RelDecision id_le.
Proof. intros a b. unfold id_le. apply _. Defined.
#[global] Instance id_ge_dec : RelDecision id_ge.
Proof. intros a b. unfold id_ge. apply _. Defined.

(** ** [tracker.go] *)

Module Tracker.

(** [rows.Scan] into a fresh [Migration]. *)
Definition scan (r : LedgerRow) : Migration :=
  {| ID := row_id r; Name := row_migration r; Filename := ""; Filepath := "";
     Batch := row_batch r; Checksum := row_checksum r;
     UpSQL := ""; DownSQL := "" |}.

(** [SELECT ... ORDER BY id ASC] *)
Definition GetExecutedMigrations {U} (db : Database U) : list Migration :=
  scan <$> merge_sort id_le (ledger db).

(** The [executed] map of [GetPendingMigrations]. *)
Definition executed_map (executedMigrations : list Migration)
  : gmap string bool :=
  foldl (fun executed migration => <[Name migration := true]> executed)
        ∅ executedMigrations.

(** [Tracker.GetPendingMigrations] *)
Definition GetPendingMigrations {U} (db : Database U)
    (allMigrations : list Migration) : list Migration :=
  let executed := executed_map (GetExecutedMigrations db) in
  List.filter (fun migration => negb (default false (executed !! Name migration)))
              allMigrations.

(** [Tracker.RecordMigration]: the [INSERT], checked against the [UNIQUE]
    and [INTEGER] constraints of the table. *)
Definition RecordMigration {U} {drv : PgDriver U} (db : Database U)
    (migration : Migration) (batch : Z) : MigrationError + Database U :=
  if negb (in_int4 batch)
  then inl (NewMigrationError "Failed to record migration"
              (violation_text IntegerOutOfRange) (Name migration))
  else if existsb (fun r => String.eqb (row_migration r) (Name migration))
                  (ledger db)
  then inl (NewMigrationError "Failed to record migration"
              (violation_text UniqueViolation) (Name migration))
  else inr {| schema := schema db;
              ledger := ledger db ++
                [ {| row_id := next_id db; row_migration := Name migration;
                     row_batch := batch; row_checksum := Checksum migration |} ];
              next_id := next_id db + 1 |}.

(** [Tracker.RemoveMigration]: [DELETE ... WHERE migration = $1]. *)
Definition RemoveMigration {U} (db : Database U) (migration : Migration)
  : Database U :=
  {| schema := schema db;
     ledger := List.filter
                 (fun r => negb (String.eqb (row_migration r) (Name migration)))
                 (ledger db);
     next_id := next_id db |}.

(** [Tracker.GetLastBatch]: [SELECT COALESCE(MAX(batch), 0)]. *)
Definition GetLastBatch {U} (db : Database U) : Z :=
  match ledger db with
  | [] => 0
  | r :: rows => foldl (fun m r' => Z.max m (row_batch r')) (row_batch r) rows
  end.

(** [SELECT ... WHERE batch = $1 ORDER BY id DESC] *)
Definition GetMigrationsByBatch {U} (db : Database U) (batch : Z)
  : list Migration :=
  scan <$> merge_sort id_ge
             (List.filter (fun r => row_batch r =? batch) (ledger db)).

(** [Tracker.VerifyChecksum]: [QueryRow] yields the first matching row,
    [pgx.ErrNoRows] when there is none. *)
Definition VerifyChecksum {U} (db : Database U) (migration : Migration)
  : option MigrationError :=
  match List.find (fun r => String.eqb (row_migration r) (Name migration))
                  (ledger db) with
  | None => None
  | Some r =>
      let storedChecksum := row_checksum r in
      if negb (String.eqb storedChecksum (Checksum migration))
      then Some (NewValidationError
                   ("Migration " +:+ Name migration +:+ " has been modified")
                   ("stored checksum: " +:+ storedChecksum
                    +:+ ", current checksum: " +:+ Checksum migration))
      else None
  end.

End Tracker.

(** ** [executor.go] *)

Module Executor.

(** [Executor.splitSQLStatements] *)
Definition splitSQLStatements (sql : string) : list string :=
  let statements := Split sql ";"%char in
  List.filter (fun stmt => negb (is_empty stmt)) (map TrimSpace statements).

(** The loop of [executeMigrationSQL] from index [i] on. *)
Fixpoint exec_statements {U} {drv : PgDriver U} (statements : list string)
    (i : nat) (migrationName : string) (tx : U) : MigrationError + U :=
  match statements with
  | [] => inr tx
  | statement :: rest =>
      let statement := TrimSpace statement in
      if is_empty statement
      then exec_statements rest (S i) migrationName tx
      else if HasPrefix statement "--"
      then exec_statements rest (S i) migrationName tx
      else match sql_exec statement tx with
           | inl err =>
               inl (NewMigrationError
                      ("Failed to execute SQL statement "
                       +:+ pretty (Z.of_nat i + 1))
                      err migrationName)
           | inr tx' => exec_statements rest (S i) migrationName tx'
           end
  end.

(** [Executor.executeMigrationSQL] *)
Definition executeMigrationSQL {U} {drv : PgDriver U} (tx : U)
    (sql migrationName : string) : MigrationError + U :=
  let sql := TrimSpace sql in
  if is_empty sql then inr tx
  else exec_statements (splitSQLStatements sql) 0 migrationName tx.

(** [Executor.runSingleMigration].  The deferred [tx.Rollback] restores
    the database whenever the function returns before the commit. *)
Definition runSingleMigration {U} {drv : PgDriver U} (db : Database U)
    (migration : Migration) (batch : Z) : Database U * option MigrationError :=
  match executeMigrationSQL (schema db) (UpSQL migration) (Name migration) with
  | inl err => (db, Some err)
  | inr tx =>
      let db' := {| schema := tx; ledger := ledger db; next_id := next_id db |} in
      match Tracker.RecordMigration db' migration batch with
      | inl err => (db, Some err)
      | inr db'' => (db'', None)
      end
  end.

Fixpoint run_each {U} {drv : PgDriver U} (db : Database U)
    (migrations : list Migration) (nextBatch : Z)
  : Database U * option MigrationError :=
  match migrations with
  | [] => (db, None)
  | migration :: rest =>
      match runSingleMigration db migration nextBatch with
      | (db', Some err) => (db', Some err)
      | (db', None) => run_each db' rest nextBatch
      end
  end.

(** The slice expression of [RunMigrations] and [RollbackMigrations]. *)
Definition limit_to (limit : Z) (migrations : list Migration)
  : list Migration :=
  if (0 <? limit) && (limit <? Z.of_nat (length migrations))
  then take (Z.to_nat limit) migrations
  else migrations.

(** [Executor.RunMigrations] *)
Definition RunMigrations {U} {drv : PgDriver U} (db : Database U)
    (migrations : list Migration) (limit : Z)
  : Database U * option MigrationError :=
  match migrations with
  | [] => (db, None)
  | _ :: _ =>
      let lastBatch := Tracker.GetLastBatch db in
      let nextBatch := wrap_int (lastBatch + 1) in
      let migrations := limit_to limit migrations in
      run_each db migrations nextBatch
  end.

(** [Executor.rollbackSingleMigration] *)
Definition rollbackSingleMigration {U} {drv : PgDriver U} (db : Database U)
    (migration : Migration) : Database U * option MigrationError :=
  match executeMigrationSQL (schema db) (DownSQL migration) (Name migration) with
  | inl err => (db, Some err)
  | inr tx =>
      let db' := {| schema := tx; ledger := ledger db; next_id := next_id db |} in
      (Tracker.RemoveMigration db' migration, None)
  end.

Fixpoint rollback_each {U} {drv : PgDriver U} (db : Database U)
    (migrations : list Migration) : Database U * option MigrationError :=
  match migrations with
  | [] => (db, None)
  | migration :: rest =>
      match rollbackSingleMigration db migration with
      | (db', Some err) => (db', Some err)
      | (db', None) => rollback_each db' rest
      end
  end.

(** [Executor.RollbackMigrations] *)
Definition RollbackMigrations {U} {drv : PgDriver U} (db : Database U)
    (migrations : list Migration) (limit : Z)
  : Database U * option MigrationError :=
  match migrations with
  | [] => (db, None)
  | _ :: _ => rollback_each db (limit_to limit migrations)
  end.

(** The [migrationsMap] the rollback paths build: a later definition of a
    name replaces an earlier one. *)
Definition migrationsMap (allMigrations : list Migration)
  : gmap string Migration :=
  foldl (fun m migration => <[Name migration := migration]> m) ∅ allMigrations.

(** The [migrationsToRollback] loop: entries without a definition are
    passed over. *)
Definition migrationsToRollback (allMigrations entries : list Migration)
  : list Migration :=
  omap (fun entry => migrationsMap allMigrations !! Name entry) entries.

(** [Executor.RollbackBatch] *)
Definition RollbackBatch {U} {drv : PgDriver U} (db : Database U) (batch : Z)
    (allMigrations : list Migration) : Database U * option MigrationError :=
  let batchMigrations := Tracker.GetMigrationsByBatch db batch in
  match batchMigrations with
  | [] => (db, None)
  | _ :: _ =>
      RollbackMigrations db (migrationsToRollback allMigrations batchMigrations) 0
  end.

(** [Executor.ResetAllMigrations] *)
Definition ResetAllMigrations {U} {drv : PgDriver U} (db : Database U)
    (allMigrations : list Migration) : Database U * option MigrationError :=
  let executedMigrations := Tracker.GetExecutedMigrations db in
  match executedMigrations with
  | [] => (db, None)
  | _ :: _ =>
      let executedMigrations := reverse executedMigrations in
      RollbackMigrations db (migrationsToRollback allMigrations executedMigrations) 0
  end.

End Executor.

(** ** [manager.go] *)

Module Manager.

Fixpoint verify_each {U} (db : Database U) (allMigrations : list Migration)
  : option MigrationError :=
  match allMigrations with
  | [] => None
  | migration :: rest =>
      match Tracker.VerifyChecksum db migration with
      | Some err => Some err
      | None => verify_each db rest
      end
  end.

(** [Manager.RunMigrations]; [migrationsPath] and [root] are the migrations
    directory the generator reads. *)
Definition RunMigrations {U} {drv : PgDriver U} {hs : Hasher}
    (migrationsPath : string) (root : DirEntry) (db : Database U) (limit : Z)
  : Database U * option MigrationError :=
  match LoadMigrations migrationsPath root with
  | inl err => (db, Some err)
  | inr allMigrations =>
      let pendingMigrations := Tracker.GetPendingMigrations db allMigrations in
      match verify_each db allMigrations with
      | Some err => (db, Some err)
      | None => Executor.RunMigrations db pendingMigrations limit
      end
  end.

(** [Manager.RollbackMigrations]; its [limit] argument is not used. *)
Definition RollbackMigrations {U} {drv : PgDriver U} {hs : Hasher}
    (migrationsPath : string) (root : DirEntry) (db : Database U) (limit : Z)
  : Database U * option MigrationError :=
  match LoadMigrations migrationsPath root with
  | inl err => (db, Some err)
  | inr allMigrations =>
      let lastBatch := Tracker.GetLastBatch db in
      if lastBatch =? 0 then (db, None)
      else Executor.RollbackBatch db lastBatch allMigrations
  end.

(** The entries [RollbackSteps] selects: all applied ones, newest first,
    cut to [steps] when [0 < steps < len]. *)
Definition steps_selection {U} (db : Database U) (steps : Z) : list Migration :=
  Executor.limit_to steps (reverse (Tracker.GetExecutedMigrations db)).

(** [Manager.RollbackSteps] *)
Definition RollbackSteps {U} {drv : PgDriver U} {hs : Hasher}
    (migrationsPath : string) (root : DirEntry) (db : Database U) (steps : Z)
  : Database U * option MigrationError :=
  match LoadMigrations migrationsPath root with
  | inl err => (db, Some err)
  | inr allMigrations =>
      match Tracker.GetExecutedMigrations db with
      | [] => (db, None)
      | _ :: _ =>
          let executedMigrations := steps_selection db steps in
          Executor.RollbackMigrations db
            (Executor.migrationsToRollback allMigrations executedMigrations) 0
      end
  end.

(** [Manager.ResetAllMigrations] *)
Definition ResetAllMigrations {U} {drv : PgDriver U} {hs : Hasher}
    (migrationsPath : string) (root : DirEntry) (db : Database U)
  : Database U * option MigrationError :=
  match LoadMigrations migrationsPath root with
  | inl err => (db, Some err)
  | inr allMigrations => Executor.ResetAllMigrations db allMigrations
  end.

End Manager.

(** ** Notions the statements below are phrased with *)

(** What the column constraints of the ledger table guarantee: [UNIQUE]
    names, [PRIMARY KEY] ids below the sequence, [INTEGER] batches. *)
Definition ledger_wf {U} (db : Database U) : Prop :=
  NoDup (map row_migration (ledger db))
  /\ NoDup (map row_id (ledger db))
  /\ Forall (fun r => in_int4 (row_batch r) = true) (ledger db)
  /\ Forall (fun r => row_id r < next_id db) (ledger db).

(** The stored checksum [VerifyChecksum] reads for a name. *)
Definition stored_checksum {U} (db : Database U) (name : string)
  : option string :=
  row_checksum <$>
    List.find (fun r => String.eqb (row_migration r) name) (ledger db).

(** Running SQL bodies one after the other on the user schema, each as
    [executeMigrationSQL] does, up to the first failure. *)
Fixpoint exec_bodies {U} {drv : PgDriver U} (tx : U)
    (bodies : list (string * string)) : MigrationError + U :=
  match bodies with
  | [] => inr tx
  | (sql, migrationName) :: rest =>
      match Executor.executeMigrationSQL tx sql migrationName with
      | inl err => inl err
      | inr tx' => exec_bodies tx' rest
      end
  end.

Definition up_bodies (migrations : list Migration) : list (string * string) :=
  map (fun m => (UpSQL m, Name m)) migrations.
Definition down_bodies (migrations : list Migration) : list (string * string) :=
  map (fun m => (DownSQL m, Name m)) migrations.

(** The rows a run of [migrations] in one batch inserts, the first with
    id [id]. *)
Fixpoint new_rows (id batch : Z) (migrations : list Migration)
  : list LedgerRow :=
  match migrations with
  | [] => []
  | m :: rest =>
      {| row_id := id; row_migration := Name m; row_batch := batch;
         row_checksum := Checksum m |} :: new_rows (id + 1) batch rest
  end.

(** The ledger without the rows of the given names. *)
Definition without_names (names : list string) (rows : list LedgerRow)
  : list LedgerRow :=
  List.filter (fun r => negb (bool_decide (row_migration r ∈ names))) rows.

(** Whether a ledger entry has a definition among the loaded ones. *)
Definition has_definition (allMigrations : list Migration)
    (entry : Migration) : bool :=
  bool_decide (is_Some (Executor.migrationsMap allMigrations !! Name entry)).

(** Descending id: the later a row was inserted, the earlier it comes. *)
Definition newest_first (a b : Migration) : Prop := ID b <= ID a.

(** The ledger entries each rollback operation starts from. *)
Definition last_batch_selection {U} (db : Database U) : list Migration :=
  let lastBatch := Tracker.GetLastBatch db in
  if lastBatch =? 0 then [] else Tracker.GetMigrationsByBatch db lastBatch.

Definition reset_selection {U} (db : Database U) : list Migration :=
  reverse (Tracker.GetExecutedMigrations db).

(** "The n most recently applied entries, newest first", read literally. *)
Definition most_recent {U} (db : Database U) (n : Z) : list Migration :=
  take (Z.to_nat n) (reverse (Tracker.GetExecutedMigrations db)).

(** ** A driver and a hash for worked examples *)

(** A server that only keeps the list of the statements it ran and refuses
    every statement starting with [FAIL]. *)
Definition log_driver : PgDriver (list string) :=
  {| sql_exec := fun statement tx =>
       if HasPrefix statement "FAIL"
       then inl "ERROR: syntax error (SQLSTATE 42601)"
       else inr (tx ++ [statement]);
     violation_text := fun v =>
       match v with
       | UniqueViolation => "ERROR: duplicate key value (SQLSTATE 23505)"
       | IntegerOutOfRange => "ERROR: integer out of range (SQLSTATE 22003)"
       end |}.

(** A stand-in for SHA-256 in worked examples: the content itself. *)
Definition plain_hasher : Hasher := {| sha256_hex := fun content => content |}.

(** Builds the text of a migration file from its two bodies. *)
Definition migration_file (up down : string) : string :=
  "-- Migration: example" +:+ bytes [10] +:+
  "-- +migrate Up" +:+ bytes [10] +:+ up +:+ bytes [10] +:+
  "-- +migrate Down" +:+ bytes [10] +:+ down.

Definition empty_db : Database (list string) :=
  {| schema := []; ledger := []; next_id := 1 |}.

(** A fragment that consists only of comments: each of its lines, once
    trimmed, is empty or starts with [--]. *)
Definition comment_only (fragment : string) : bool :=
  forallb (fun line => let t := TrimSpace line in
                       is_empty t || HasPrefix t "--")
          (Split fragment "010"%char).

(** The forward body [generateCreateTableSQL] writes for table [products]
    (the body of the repository's own [create_products_table] migration). *)
Definition create_products_up : string :=
"CREATE TABLE products (
    id UUID PRIMARY KEY DEFAULT gen_random_uuid(),
    created_at TIMESTAMP WITH TIME ZONE DEFAULT NOW(),
    updated_at TIMESTAMP WITH TIME ZONE DEFAULT NOW(),
    deleted_at TIMESTAMP WITH TIME ZONE
);

-- Create indexes for performance
CREATE INDEX idx_products_created_at ON products(created_at);".

Definition create_products_stmt : string :=
"CREATE TABLE products (
    id UUID PRIMARY KEY DEFAULT gen_random_uuid(),
    created_at TIMESTAMP WITH TIME ZONE DEFAULT NOW(),
    updated_at TIMESTAMP WITH TIME ZONE DEFAULT NOW(),
    deleted_at TIMESTAMP WITH TIME ZONE
)".

Definition create_index_fragment : string :=
"-- Create indexes for performance
CREATE INDEX idx_products_created_at ON products(created_at)".

(** A migrations directory with two migrations and a stray file. *)
Definition sample_tree : DirEntry :=
  Dir "migrations"
    [ File "2025_01_01_000001_a.sql"
        (migration_file "CREATE TABLE a (id INT);" "DROP TABLE a;");
      File "2025_01_01_000002_b.sql"
        (migration_file "CREATE TABLE b (id INT);" "DROP TABLE b;");
      File "README.md" "notes" ].

(** The same directory later: the forward body of [a] was edited and a
    third migration was added. *)
Definition edited_tree : DirEntry :=
  Dir "migrations"
    [ File "2025_01_01_000001_a.sql"
        (migration_file "CREATE TABLE a (id BIGINT);" "DROP TABLE a;");
      File "2025_01_01_000002_b.sql"
        (migration_file "CREATE TABLE b (id INT);" "DROP TABLE b;");
      File "2025_01_01_000003_c.sql"
        (migration_file "CREATE TABLE c (id INT);" "DROP TABLE c;") ].

(** The directory with only the file of [b] left. *)
Definition shrunk_tree : DirEntry :=
  Dir "migrations"
    [ File "2025_01_01_000002_b.sql"
        (migration_file "CREATE TABLE b (id INT);" "DROP TABLE b;") ].

(** A directory whose only migration sits in a subdirectory. *)
Definition nested_tree : DirEntry :=
  Dir "migrations"
    [ Dir "archive"
        [ File "2024_01_01_000001_old.sql"
            (migration_file "SELECT 1;" "SELECT 2;") ] ].

(** A directory with a malformed file name between two good ones. *)
Definition bad_tree : DirEntry :=
  Dir "migrations"
    [ File "2025_01_01_000001_a.sql"
        (migration_file "CREATE TABLE a (id INT);" "DROP TABLE a;");
      File "2025_01_01_000001b.sql" "SELECT 1;";
      File "2025_01_01_000002_b.sql"
        (migration_file "CREATE TABLE b (id INT);" "DROP TABLE b;") ].

(** [sample_tree] with a third migration added. *)
Definition grown_tree : DirEntry :=
  Dir "migrations"
    [ File "2025_01_01_000001_a.sql"
        (migration_file "CREATE TABLE a (id INT);" "DROP TABLE a;");
      File "2025_01_01_000002_b.sql"
        (migration_file "CREATE TABLE b (id INT);" "DROP TABLE b;");
      File "2025_01_01_000003_c.sql"
        (migration_file "CREATE TABLE c (id INT);" "DROP TABLE c;") ].

Definition definitions_of (root : DirEntry) : list Migration :=
  match LoadMigrations (hs := plain_hasher) "migrations" root with
  | inr migrations => migrations
  | inl _ => []
  end.

(** The database after [apply(0)] on [sample_tree], from scratch. *)
Definition applied_db : Database (list string) :=
  fst (Manager.RunMigrations (drv := log_driver) (hs := plain_hasher)
         "migrations" sample_tree empty_db 0).

(** ** More of [internal/utils] and of the generator *)

Section Plurals.

Variable unicode_ToLower : string -> string.

(** [isVowel] *)
Definition isVowel (c : ascii) : bool :=
  existsb (Ascii.eqb c) ["a"; "e"; "i"; "o"; "u"]%char.

(** The [specialCases] map of [Pluralize]. *)
Definition specialCases : gmap string string :=
  list_to_map [ ("person", "people"); ("child", "children"); ("foot", "feet");
                ("tooth", "teeth"); ("mouse", "mice"); ("goose", "geese") ].

(** [word[:len(word)-n]] *)
Definition drop_last (n : nat) (word : string) : string :=
  substring 0 (String.length word - n) word.

(** [word[len(word)-2]], read only when [len(word) > 1]. *)
Definition before_last (word : string) : ascii :=
  default "000"%char (String.get (String.length word - 2) word).

(** [utils.Pluralize] *)
Definition Pluralize (word : string) : string :=
  if is_empty word then "" else
  let word := ToLower unicode_ToLower word in
  match specialCases !! word with
  | Some plural => plural
  | None =>
      if HasSuffix word "y" && (1 <? String.length word)%nat
         && negb (isVowel (before_last word))
      then drop_last 1 word +:+ "ies"
      else if HasSuffix word "s" || HasSuffix word "ss" || HasSuffix word "sh"
              || HasSuffix word "ch" || HasSuffix word "x" || HasSuffix word "z"
      then word +:+ "es"
      else if HasSuffix word "f" then drop_last 1 word +:+ "ves"
      else if HasSuffix word "fe" then drop_last 2 word +:+ "ves"
      else word +:+ "s"
  end.

(** [strings.TrimPrefix(s, prefix)] *)
Definition TrimPrefix (s prefix : string) : string :=
  match strip_prefix prefix s with
  | Some rest => rest
  | None => s
  end.

(** [Generator.extractTableNameFromCreate] *)
Definition extractTableNameFromCreate (name : string) : string :=
  let tableName := TrimPrefix name "create_" in
  let tableName := TrimSuffix tableName "_table" in
  if negb (HasSuffix tableName "s") then Pluralize tableName else tableName.

(** [Generator.generateCreateTableSQL] *)
Definition generateCreateTableSQL (tableName : string) : string * string :=
  ("CREATE TABLE " +:+ tableName +:+ " (
    id UUID PRIMARY KEY DEFAULT gen_random_uuid(),
    created_at TIMESTAMP WITH TIME ZONE DEFAULT NOW(),
    updated_at TIMESTAMP WITH TIME ZONE DEFAULT NOW(),
    deleted_at TIMESTAMP WITH TIME ZONE
);

-- Create indexes for performance
CREATE INDEX idx_" +:+ tableName +:+ "_created_at ON " +:+ tableName
   +:+ "(created_at);",
   "DROP INDEX IF EXISTS idx_" +:+ tableName +:+ "_created_at;
DROP TABLE IF EXISTS " +:+ tableName +:+ ";").

(** [Generator.generateAddColumnSQL] *)
Definition generateAddColumnSQL (name : string) : string * string :=
  ("-- Add your column here
-- ALTER TABLE table_name ADD COLUMN column_name VARCHAR(255);
-- CREATE INDEX idx_table_column ON table_name(column_name);",
   "-- Remove the column here
-- DROP INDEX IF EXISTS idx_table_column;
-- ALTER TABLE table_name DROP COLUMN column_name;").

(** [Generator.generateDropColumnSQL] *)
Definition generateDropColumnSQL (name : string) : string * string :=
  ("-- Drop your column here
-- DROP INDEX IF EXISTS idx_table_column;
-- ALTER TABLE table_name DROP COLUMN column_name;",
   "-- Add the column back (be careful with data loss)
-- ALTER TABLE table_name ADD COLUMN column_name VARCHAR(255);
-- CREATE INDEX idx_table_column ON table_name(column_name);").

(** [Generator.generateGenericSQL] *)
Definition generateGenericSQL : string * string :=
  ("-- Add your migration code here
-- Example:
-- CREATE TABLE new_table (
--     id UUID PRIMARY KEY DEFAULT gen_random_uuid(),
--     name VARCHAR(255) NOT NULL,
--     created_at TIMESTAMP WITH TIME ZONE DEFAULT NOW()
-- );",
   "-- Add your rollback code here
-- Example:
-- DROP TABLE IF EXISTS new_table;").

(** The two bodies [generateMigrationContent] picks for a name. *)
Definition template_bodies (name : string) : string * string :=
  if HasPrefix name "create_"
  then generateCreateTableSQL (extractTableNameFromCreate name)
  else if HasPrefix name "add_" then generateAddColumnSQL name
  else if HasPrefix name "drop_" then generateDropColumnSQL name
  else generateGenericSQL.

(** [Generator.generateMigrationContent]; [created] is the clock formatted
    as [2006-01-02 15:04:05]. *)
Definition generateMigrationContent (created name : string) : string :=
  let '(upSQL, downSQL) := template_bodies name in
  "-- Migration: " +:+ name +:+ "
-- Created: " +:+ created +:+ "
-- Batch: 1

-- +migrate Up
" +:+ upSQL +:+ "

-- +migrate Down
" +:+ downSQL.

End Plurals.

(** [utils.Truncate]; [None] is the run-time panic of a slice expression
    with a negative bound. *)
Definition Truncate (s : string) (maxLength : Z) : option string :=
  if Z.of_nat (String.length s) <=? maxLength then Some s
  else if maxLength <=? 3
  then (if maxLength <? 0 then None
        else Some (substring 0 (Z.to_nat maxLength) s))
  else Some (substring 0 (Z.to_nat (maxLength - 3)) s +:+ "...").

(** The loop of [utils.RemoveDuplicates]. *)
Fixpoint RemoveDuplicates_loop (slice : list string) (keys : gmap string bool)
    (result : list string) : list string :=
  match slice with
  | [] => result
  | item :: rest =>
      if negb (default false (keys !! item))
      then RemoveDuplicates_loop rest (<[item := true]> keys) (result ++ [item])
      else RemoveDuplicates_loop rest keys result
  end.

(** [utils.RemoveDuplicates] *)
Definition RemoveDuplicates (slice : list string) : list string :=
  RemoveDuplicates_loop slice ∅ [].

(** ** More of [tracker.go] *)

(** [migration.MigrationStatus] without its two wall-clock fields. *)
Record MigrationStatus := mkStatus {
  status_Migration : Migration;
  Executed : bool;
  status_Batch : Z
}.

(** [Tracker.GetMigrationStatus]; its [executedMap] is built by the same
    loop as [migrationsMap]. *)
Definition GetMigrationStatus {U} (db : Database U)
    (allMigrations : list Migration) : list MigrationStatus :=
  let executedMap :=
    Executor.migrationsMap (Tracker.GetExecutedMigrations db) in
  map (fun migration =>
         match executedMap !! Name migration with
         | Some executed =>
             {| status_Migration := migration; Executed := true;
                status_Batch := Batch executed |}
         | None =>
             {| status_Migration := migration; Executed := false;
                status_Batch := 0 |}
         end) allMigrations.

(** ** Notions for the further statements *)

(** A body or header none of whose lines, once trimmed, mentions one of
    the two markers. *)
Definition marker_free (text : string) : bool :=
  forallb (fun line =>
             negb (Contains (TrimSpace line) "-- +migrate Up")
             && negb (Contains (TrimSpace line) "-- +migrate Down"))
          (Split text "010"%char).

(** The bytes of a clock reading formatted as [2006-01-02 15:04:05]. *)
Definition clock_byte (c : ascii) : bool :=
  is_digit c || Ascii.eqb c "-"%char || Ascii.eqb c ":"%char
  || Ascii.eqb c " "%char.

(** Any byte but the plus sign, which both markers hold. *)
Definition plus_free (c : ascii) : bool := negb (Ascii.eqb c "+"%char).

(** The statements [executeMigrationSQL] hands to the server for a body. *)
Definition statements_to_run (sql : string) : list string :=
  let sql := TrimSpace sql in
  if is_empty sql then []
  else List.filter (fun st => negb (is_empty st) && negb (HasPrefix st "--"))
                   (map TrimSpace (Executor.splitSQLStatements sql)).

(** Running statements on the server one after the other; [inl] is the
    text of the first error. *)
Fixpoint run_statements {U} {drv : PgDriver U} (statements : list string)
    (tx : U) : string + U :=
  match statements with
  | [] => inr tx
  | st :: rest =>
      match sql_exec st tx with
      | inl err => inl err
      | inr tx' => run_statements rest tx'
      end
  end.

Definition no_semicolon (c : ascii) : bool := negb (Ascii.eqb c ";"%char).

(** What [time.Now().Format("2006_01_02_150405")] returns for a year of
    four digits. *)
Definition timestamp_shape (ts : string) : Prop :=
  exists y m d t : string,
    ts = y +:+ "_" +:+ m +:+ "_" +:+ d +:+ "_" +:+ t
    /\ digits 4 y /\ digits 2 m /\ digits 2 d /\ digits 6 t.

(** The outcome of [executeMigrationSQL] against that of running a list
    of statements: the same final state, or a failure that carries the
    server's error text and the migration name. *)
Definition same_outcome {U} (migrationName : string)
    (r1 : MigrationError + U) (r2 : string + U) : Prop :=
  match r1, r2 with
  | inr tx1, inr tx2 => tx1 = tx2
  | inl e, inl details =>
      Type_ e = "migration" /\ Details e = details
      /\ Migration_ e = migrationName
  | _, _ => False
  end.

(** The values of the [specialCases] map. *)
Definition irregular_plurals : list string :=
  ["people"; "children"; "feet"; "teeth"; "mice"; "geese"].

(** Definitions written out by hand, for runs that do not start from a
    directory. *)
Definition definition_of (filename name up down : string) : Migration :=
  {| ID := 0; Name := name; Filename := filename;
     Filepath := "migrations/" +:+ filename; Batch := 0;
     Checksum := migration_file up down; UpSQL := up; DownSQL := down |}.

(** Three pending migrations, the second of which the server refuses. *)
Definition failing_run : list Migration :=
  [ definition_of "2025_01_01_000001_a.sql" "a"
      "CREATE TABLE a (id INT);" "DROP TABLE a;";
    definition_of "2025_01_01_000002_bad.sql" "bad"
      "CREATE TABLE b (id INT); FAIL here;" "DROP TABLE b;";
    definition_of "2025_01_01_000003_c.sql" "c"
      "CREATE TABLE c (id INT);" "DROP TABLE c;" ].

(** Two pending migrations whose files carry the same label. *)
Definition clashing_run : list Migration :=
  [ definition_of "2025_01_01_000001_users.sql" "users"
      "CREATE TABLE users (id INT);" "DROP TABLE users;";
    definition_of "2025_02_01_000001_users.sql" "users"
      "ALTER TABLE users ADD COLUMN name TEXT;"
      "ALTER TABLE users DROP COLUMN name;" ].

(* ===================================================================== *)
(** * Part II: properties *)
(* ===================================================================== *)

(** ** Strings *)

Lemma append_cons (a : ascii) (s t : string) :
  String a s +:+ t = String a (s +:+ t).
Proof. reflexivity. Qed.

Lemma append_nil_l (t : string) : "" +:+ t = t.
Proof. reflexivity. Qed.

Lemma string_forallb_app (f : ascii -> bool) (s t : string) :
  string_forallb f (s +:+ t) = string_forallb f s && string_forallb f t.
Proof.
  induction s as [|a s IH]; [reflexivity|].
  rewrite append_cons. simpl. rewrite IH. apply andb_assoc.
Qed.

Lemma string_forallb_filter (f : ascii -> bool) (s : string) :
  string_forallb f (string_filter f s) = true.
Proof.
  induction s as [|a s IH]; [reflexivity|].
  simpl. destruct (f a) eqn:Hf; [|exact IH].
  simpl. rewrite Hf. exact IH.
Qed.

Lemma is_empty_true (s : string) : is_empty s = true <-> s = "".
Proof. destruct s; simpl; split; congruence. Qed.

Example TrimSpace_ex1 :
  TrimSpace (bytes [32; 10; 226; 128; 168] +:+ "a b" +:+ bytes [9; 194; 160])
  = "a b".
Proof. vm_compute. reflexivity. Qed.

Example Split_ex1 : Split "a;;b;" ";"%char = ["a"; ""; "b"; ""].
Proof. reflexivity. Qed.

Example Split_ex2 : Split "" ";"%char = [""].
Proof. reflexivity. Qed.

Example HasSuffix_ex : HasSuffix "migrations/a.sql" ".sql" = true
                       /\ HasSuffix "sql" ".sql" = false
                       /\ TrimSuffix "x.sql" ".sql" = "x"
                       /\ after_last_slash "a/b/c.sql" = "c.sql"
                       /\ after_last_slash "c.sql" = "c.sql".
Proof. repeat split; reflexivity. Qed.

Example Parse_ex1 :
  ParseMigrationFilename "2025_06_14_180302_create_users_table.sql"
  = ("2025_06_14_180302", "create_users_table", true).
Proof. reflexivity. Qed.

Example Parse_ex2 : ParseMigrationFilename "notes.sql" = ("", "", false).
Proof. reflexivity. Qed.

Example Sanitize_ex1 :
  SanitizeMigrationName (fun s => s) "Create UsersTable-v2!" = "create_users_table_v2"
  /\ SanitizeMigrationName (fun s => s) "2fa tokens" = "migration_2fa_tokens"
  /\ GenerateMigration (fun s => s) "2025_01_01_000000" "AddFoo"
     = ("AddFoo", "2025_01_01_000000_add_foo.sql").
Proof. repeat split; vm_compute; reflexivity. Qed.

(** ** Generated names (C9) *)

Section NamingFacts.

Variable unicode_ToLower : string -> string.

Lemma strip_non_word_is_word (s : string) :
  string_forallb is_word (strip_non_word s) = true.
Proof. apply string_forallb_filter. Qed.

Lemma Sanitize_is_word (name : string) :
  string_forallb is_word (SanitizeMigrationName unicode_ToLower name) = true.
Proof.
  unfold SanitizeMigrationName.
  set (stripped := strip_non_word (ToSnakeCase unicode_ToLower name)).
  assert (Hw : string_forallb is_word stripped = true)
    by apply strip_non_word_is_word.
  cbv zeta. destruct (starts_with_digit stripped).
  - rewrite string_forallb_app, Hw. reflexivity.
  - exact Hw.
Qed.

Lemma Sanitize_no_leading_digit (name : string) :
  starts_with_digit (SanitizeMigrationName unicode_ToLower name) = false.
Proof.
  unfold SanitizeMigrationName.
  set (stripped := strip_non_word (ToSnakeCase unicode_ToLower name)).
  cbv zeta. destruct (starts_with_digit stripped) eqn:Hd;
    [reflexivity | exact Hd].
Qed.

(** C9.  For every label, the file name [GenerateMigration] settles on is
    [<timestamp>_<name>.sql] where [name] is the output of
    [SanitizeMigrationName]: it holds only ASCII letters, digits and
    underscores, it is the snake-cased label with every other byte removed,
    prefixed with [migration_] exactly when that would start with a digit,
    and so it never starts with a digit. *)
Theorem C9_generated_filename_is_sanitized (timestamp label : string) :
  exists input stripped name : string,
    snd (GenerateMigration unicode_ToLower timestamp label)
      = timestamp +:+ "_" +:+ name +:+ ".sql"
    /\ (input = label \/ input = SanitizeMigrationName unicode_ToLower label)
    /\ stripped = string_filter is_word (ToSnakeCase unicode_ToLower input)
    /\ name = (if starts_with_digit stripped
               then "migration_" +:+ stripped else stripped)
    /\ string_forallb is_word name = true
    /\ starts_with_digit name = false.
Proof.
  unfold GenerateMigration, GenerateMigrationFilename. simpl.
  set (input := if negb (ValidateMigrationName label)
                then SanitizeMigrationName unicode_ToLower label else label).
  exists input, (string_filter is_word (ToSnakeCase unicode_ToLower input)),
         (SanitizeMigrationName unicode_ToLower input).
  split; [reflexivity|].
  split; [subst input; destruct (negb _); auto|].
  split; [reflexivity|].
  split; [reflexivity|].
  split; [apply Sanitize_is_word | apply Sanitize_no_leading_digit].
Qed.

End NamingFacts.

(** ** File names (C8) *)

Lemma take_digits_Some (n : nat) (s ds rest : string) :
  take_digits n s = Some (ds, rest) <-> s = ds +:+ rest /\ digits n ds.
Proof.
  unfold digits. revert s ds rest.
  induction n as [|n IH]; intros s ds rest; simpl.
  - split.
    + intros [= <- <-]. auto.
    + intros (-> & Hlen & _). destruct ds; [reflexivity | discriminate].
  - destruct s as [|c s].
    + split; [discriminate|]. intros (Hs & Hlen & _).
      destruct ds; [discriminate|]. rewrite append_cons in Hs. discriminate.
    + destruct (is_digit c) eqn:Hc.
      * destruct (take_digits n s) as [[ds' rest']|] eqn:Ht.
        -- apply IH in Ht as (-> & Hlen & Hdig). split.
           ++ intros [= <- <-]. rewrite append_cons. simpl.
              rewrite Hc, Hlen, Hdig. auto.
           ++ intros (Hs & Hlen' & Hdig').
              destruct ds as [|c0 ds0]; [discriminate|].
              rewrite append_cons in Hs. injection Hs as <- Hs.
              simpl in Hlen', Hdig'. apply andb_true_iff in Hdig' as [_ Hdig'].
              assert (Ht : take_digits n (ds' +:+ rest') = Some (ds0, rest)).
              { apply IH. rewrite Hs. split; [reflexivity|].
                split; [lia | exact Hdig']. }
              assert (Ht' : take_digits n (ds' +:+ rest') = Some (ds', rest')).
              { apply IH. auto. }
              congruence.
        -- split; [discriminate|]. intros (Hs & Hlen & Hdig).
           destruct ds as [|c0 ds0]; [discriminate|].
           rewrite append_cons in Hs. injection Hs as <- Hs.
           simpl in Hlen, Hdig. apply andb_true_iff in Hdig as [_ Hdig].
           assert (Ht' : take_digits n s = Some (ds0, rest)).
           { apply IH. split; [exact Hs|]. split; [lia | exact Hdig]. }
           congruence.
      * split; [discriminate|]. intros (Hs & Hlen & Hdig).
        destruct ds as [|c0 ds0]; [discriminate|].
        rewrite append_cons in Hs. injection Hs as <- Hs.
        simpl in Hdig. rewrite Hc in Hdig. discriminate.
Qed.

Lemma take_underscore_Some (s rest : string) :
  take_underscore s = Some rest <-> s = "_" +:+ rest.
Proof.
  unfold take_underscore.
  change ("_" +:+ rest) with (String "_"%char rest).
  destruct s as [|c s].
  - split; discriminate.
  - destruct (Ascii.eqb_spec c "_"%char) as [-> | Hne].
    + split; [intros [= <-]; reflexivity | intros [= <-]; reflexivity].
    + split; [discriminate | intros [= E]; congruence].
Qed.

(** The regular expression accepts exactly the names of the documented
    shape. *)
Lemma match_migration_filename_shape (s : string) :
  is_Some (match_migration_filename s) <-> timestamp_label_shape s.
Proof.
  unfold match_migration_filename, timestamp_label_shape. split.
  - intros [[ts label] H].
    destruct (take_digits 4 s) as [[y s1]|] eqn:H1; cbn [mbind option_bind] in H;
      [|discriminate H].
    destruct (take_underscore s1) as [s1'|] eqn:U1; cbn [mbind option_bind] in H;
      [|discriminate H].
    destruct (take_digits 2 s1') as [[m s2]|] eqn:H2; cbn [mbind option_bind] in H;
      [|discriminate H].
    destruct (take_underscore s2) as [s2'|] eqn:U2; cbn [mbind option_bind] in H;
      [|discriminate H].
    destruct (take_digits 2 s2') as [[d s3]|] eqn:H3; cbn [mbind option_bind] in H;
      [|discriminate H].
    destruct (take_underscore s3) as [s3'|] eqn:U3; cbn [mbind option_bind] in H;
      [|discriminate H].
    destruct (take_digits 6 s3') as [[t s4]|] eqn:H4; cbn [mbind option_bind] in H;
      [|discriminate H].
    destruct (take_underscore s4) as [lab|] eqn:U4; cbn [mbind option_bind] in H;
      [|discriminate H].
    destruct (negb (is_empty lab) && string_forallb is_dot lab) eqn:Hl;
      [|discriminate H].
    apply andb_true_iff in Hl as [Hne Hdot].
    apply take_digits_Some in H1 as (-> & D1), H2 as (-> & D2),
      H3 as (-> & D3), H4 as (-> & D4).
    apply take_underscore_Some in U1 as ->, U2 as ->, U3 as ->, U4 as ->.
    exists y, m, d, t, lab. repeat split; try apply D1; try apply D2;
      try apply D3; try apply D4; try exact Hdot.
    intros ->. discriminate.
  - intros (y & m & d & t & lab & -> & D1 & D2 & D3 & D4 & Hne & Hdot).
    rewrite (proj2 (take_digits_Some 4 _ y _) (conj eq_refl D1)).
    cbn [mbind option_bind].
    rewrite (proj2 (take_underscore_Some _ _) eq_refl).
    cbn [mbind option_bind].
    rewrite (proj2 (take_digits_Some 2 _ m _) (conj eq_refl D2)).
    cbn [mbind option_bind].
    rewrite (proj2 (take_underscore_Some _ _) eq_refl).
    cbn [mbind option_bind].
    rewrite (proj2 (take_digits_Some 2 _ d _) (conj eq_refl D3)).
    cbn [mbind option_bind].
    rewrite (proj2 (take_underscore_Some _ _) eq_refl).
    cbn [mbind option_bind].
    rewrite (proj2 (take_digits_Some 6 _ t _) (conj eq_refl D4)).
    cbn [mbind option_bind].
    rewrite (proj2 (take_underscore_Some _ _) eq_refl).
    cbn [mbind option_bind].
    rewrite Hdot. destruct lab; [congruence|]. simpl. eauto.
Qed.

Lemma ParseMigrationFilename_valid (filename : string) :
  snd (ParseMigrationFilename filename) = true
  <-> timestamp_label_shape (TrimSuffix filename ".sql").
Proof.
  unfold ParseMigrationFilename. rewrite <- match_migration_filename_shape.
  destruct (match_migration_filename _) as [[ts nm]|]; simpl.
  - split; eauto.
  - split; [discriminate | intros [? ?]; discriminate].
Qed.

Lemma Error_validation (message details : string) :
  Error (NewValidationError message details)
  = "[validation] " +:+ message +:+ ": " +:+ details.
Proof. reflexivity. Qed.

Section Discovery.

Context {hs : Hasher}.

Lemma loadMigrationFile_invalid (path content : string) :
  name_valid path = false ->
  loadMigrationFile path content
  = inl (NewValidationError "Invalid migration filename" (after_last_slash path)).
Proof.
  unfold name_valid, loadMigrationFile. intros Hv.
  destruct (ParseMigrationFilename (after_last_slash path)) as [[ts nm] valid].
  simpl in Hv. subst valid. reflexivity.
Qed.

Lemma loadMigrationFile_valid (path content : string) :
  name_valid path = true ->
  exists m, loadMigrationFile path content = inr m
            /\ Filename m = after_last_slash path /\ Filepath m = path
            /\ Checksum m = sha256_hex content
            /\ (UpSQL m, DownSQL m) = parseMigrationContent content.
Proof.
  unfold name_valid, loadMigrationFile. intros Hv.
  destruct (ParseMigrationFilename (after_last_slash path)) as [[ts nm] valid].
  simpl in Hv. subst valid. simpl.
  destruct (parseMigrationContent content) as [up down] eqn:Hp.
  eexists. split; [reflexivity|]. simpl. auto.
Qed.

Lemma walk_fn_ok (c : string * DirEntry) (acc : list Migration) :
  call_ok c -> exists acc', walk_fn (fst c) (snd c) acc = inr acc'.
Proof.
  destruct c as [path d]. unfold call_ok. simpl.
  destruct d as [n content | n es]; simpl.
  - intros [Hd | [Hs | Hv]]; [discriminate | |].
    + rewrite Hs. simpl. eauto.
    + destruct (HasSuffix path ".sql"); simpl; [|eauto].
      destruct (loadMigrationFile_valid path content Hv) as (m & -> & _). eauto.
  - eauto.
Qed.

Lemma WalkDir_first_bad (pre post : list (string * DirEntry))
    (path fname content : string) (acc : list Migration) :
  Forall call_ok pre ->
  HasSuffix path ".sql" = true ->
  name_valid path = false ->
  WalkDir (pre ++ (path, File fname content) :: post) acc
  = inl (NewValidationError "Invalid migration filename" (after_last_slash path)).
Proof.
  intros Hpre Hs Hv. revert acc.
  induction Hpre as [|c pre Hc Hpre IH]; intros acc.
  - simpl. rewrite Hs. simpl. rewrite loadMigrationFile_invalid by assumption.
    reflexivity.
  - destruct (walk_fn_ok c acc Hc) as [acc' Hacc].
    destruct c as [p d]. simpl in *. rewrite Hacc. apply IH.
Qed.

(** C8.  When the walk of the migrations directory reaches a [.sql] file
    whose name, without the [.sql] extension, is not of the shape
    [YYYY_MM_DD_HHMMSS_<label>], and no earlier file was such, the walk is
    aborted by the validation error that identifies that file name, and
    [LoadMigrations] returns only an error: the file error that wraps the
    text of the validation error.  No list is returned. *)
Theorem C8_first_bad_filename_aborts_discovery
    (migrationsPath dirname : string) (entries : list DirEntry)
    (pre post : list (string * DirEntry)) (path fname content : string) :
  walk migrationsPath (Dir dirname entries)
    = pre ++ (path, File fname content) :: post ->
  Forall call_ok pre ->
  HasSuffix path ".sql" = true ->
  ~ timestamp_label_shape (TrimSuffix (after_last_slash path) ".sql") ->
  WalkDir (walk migrationsPath (Dir dirname entries)) []
    = inl (NewValidationError "Invalid migration filename"
             (after_last_slash path))
  /\ LoadMigrations migrationsPath (Dir dirname entries)
    = inl (NewFileError "Failed to load migrations"
             ("[validation] Invalid migration filename: "
              +:+ after_last_slash path)).
Proof.
  intros Hw Hpre Hs Hshape.
  assert (Hv : name_valid path = false).
  { unfold name_valid.
    destruct (snd (ParseMigrationFilename (after_last_slash path))) eqn:E;
      [|reflexivity].
    exfalso. apply Hshape, ParseMigrationFilename_valid, E. }
  assert (HW : WalkDir (walk migrationsPath (Dir dirname entries)) []
               = inl (NewValidationError "Invalid migration filename"
                        (after_last_slash path))).
  { rewrite Hw. apply WalkDir_first_bad; assumption. }
  split; [exact HW|].
  unfold LoadMigrations. simpl IsDir. simpl negb. cbv iota.
  rewrite HW. rewrite Error_validation. reflexivity.
Qed.

(** ** Discovery (C3) *)

#[local] Instance filename_le_total : Total filename_le.
Proof. intros a b. unfold filename_le. apply total, _. Qed.

Lemma WalkDir_all_ok (calls : list (string * DirEntry)) (acc : list Migration) :
  Forall call_ok calls ->
  exists loaded,
    WalkDir calls acc = inr (acc ++ loaded)
    /\ Forall2 (fun f m => loadMigrationFile (fst f) (snd f) = inr m)
               (sql_files calls) loaded.
Proof.
  intros Hok. revert acc.
  induction Hok as [|[path d] calls Hc Hok IH]; intros acc.
  - exists []. rewrite app_nil_r. split; [reflexivity | constructor].
  - unfold call_ok in Hc. simpl in Hc. unfold sql_files. simpl.
    destruct d as [n content | n es]; simpl.
    + destruct (HasSuffix path ".sql") eqn:Hs; simpl.
      * destruct Hc as [Hc | [Hc | Hc]]; try discriminate.
        destruct (loadMigrationFile_valid path content Hc) as (m & Hm & _).
        rewrite Hm. destruct (IH (acc ++ [m])) as (loaded & HW & HF).
        exists (m :: loaded). rewrite HW, <- app_assoc. split; [reflexivity|].
        constructor; assumption.
      * apply IH.
    + apply IH.
Qed.

(** C3, as the code has it.  [LoadMigrations] walks the whole tree under
    the migrations directory: when every [.sql] file met at any depth has a
    well-formed name it returns, sorted ascending by [Filename], exactly the
    definitions parsed from those files; directories themselves and files
    whose path does not end in [.sql] contribute nothing. *)
Theorem C3_discovery_walks_tree_and_sorts
    (migrationsPath : string) (root : DirEntry) :
  IsDir root = true ->
  Forall call_ok (walk migrationsPath root) ->
  exists migrations loaded,
    LoadMigrations migrationsPath root = inr migrations
    /\ Sorted filename_le migrations
    /\ migrations ≡ₚ loaded
    /\ Forall2 (fun f m => loadMigrationFile (fst f) (snd f) = inr m)
               (sql_files (walk migrationsPath root)) loaded.
Proof.
  intros Hdir Hok.
  destruct (WalkDir_all_ok _ [] Hok) as (loaded & HW & HF).
  exists (merge_sort filename_le loaded), loaded.
  unfold LoadMigrations. rewrite Hdir, HW. simpl.
  split; [reflexivity|].
  split; [apply Sorted_merge_sort, _|].
  split; [apply merge_sort_Permutation | exact HF].
Qed.

End Discovery.


(** ** The ledger *)

Section Engine.

Context {U : Type} {drv : PgDriver U}.

Lemma foldl_max_spec (rows : list LedgerRow) (x : Z) :
  let z := foldl (fun m r' => Z.max m (row_batch r')) x rows in
  (z = x \/ z ∈ map row_batch rows)
  /\ x <= z /\ Forall (fun r => row_batch r <= z) rows.
Proof.
  revert x. induction rows as [|r rows IH]; intros x; simpl.
  - split; [auto|]. split; [lia | constructor].
  - destruct (IH (Z.max x (row_batch r))) as (Hin & Hle & Hall).
    split; [|split].
    + destruct Hin as [Hin | Hin].
      * destruct (Z.max_spec x (row_batch r)) as [[_ Hm] | [_ Hm]].
        -- right. rewrite Hin, Hm. apply list_elem_of_here.
        -- left. rewrite Hin, Hm. reflexivity.
      * right. apply list_elem_of_further. exact Hin.
    + lia.
    + constructor; [lia | exact Hall].
Qed.

Lemma GetLastBatch_empty (db : Database U) :
  ledger db = [] -> Tracker.GetLastBatch db = 0.
Proof. unfold Tracker.GetLastBatch. intros ->. reflexivity. Qed.

Lemma GetLastBatch_max (db : Database U) :
  ledger db <> [] ->
  Tracker.GetLastBatch db ∈ map row_batch (ledger db)
  /\ Forall (fun r => row_batch r <= Tracker.GetLastBatch db) (ledger db).
Proof.
  unfold Tracker.GetLastBatch. destruct (ledger db) as [|r rows]; [congruence|].
  intros _. destruct (foldl_max_spec rows (row_batch r)) as (Hin & Hle & Hall).
  simpl in *. split.
  - destruct Hin as [-> | Hin]; [apply list_elem_of_here|].
    apply list_elem_of_further. exact Hin.
  - constructor; assumption.
Qed.

(** The maximum of a list is unique. *)
Lemma GetLastBatch_unique (db : Database U) (z : Z) :
  z ∈ map row_batch (ledger db) ->
  Forall (fun r => row_batch r <= z) (ledger db) ->
  Tracker.GetLastBatch db = z.
Proof.
  intros Hin Hall.
  assert (Hne : ledger db <> []).
  { intros E. rewrite E in Hin. simpl in Hin. inversion Hin. }
  destruct (GetLastBatch_max db Hne) as (Hin' & Hall').
  apply list_elem_of_fmap in Hin as (r & -> & Hr).
  apply list_elem_of_fmap in Hin' as (r' & Hr'eq & Hr').
  rewrite Forall_forall in Hall, Hall'.
  pose proof (Hall r' Hr'). pose proof (Hall' r Hr). lia.
Qed.

Lemma GetLastBatch_in_int4 (db : Database U) :
  ledger_wf db -> in_int4 (Tracker.GetLastBatch db) = true.
Proof.
  intros (_ & _ & Hint & _).
  destruct (ledger db) as [|r rows] eqn:E.
  - rewrite GetLastBatch_empty by assumption. reflexivity.
  - destruct (GetLastBatch_max db) as (Hin & _); [congruence|].
    apply list_elem_of_fmap in Hin as (r' & -> & Hr').
    rewrite E in Hr'. rewrite Forall_forall in Hint. apply Hint, Hr'.
Qed.

Lemma wrap_int_small (z : Z) : - 2^63 <= z < 2^63 -> wrap_int z = z.
Proof. intros Hz. unfold wrap_int. rewrite Z.mod_small; lia. Qed.

Lemma in_int4_range (z : Z) : in_int4 z = true <-> - 2^31 <= z <= 2^31 - 1.
Proof. unfold in_int4. rewrite andb_true_iff, !Z.leb_le. reflexivity. Qed.

(** *** Looking rows up by name *)

Lemma existsb_name (name : string) (rows : list LedgerRow) :
  existsb (fun r => String.eqb (row_migration r) name) rows = true
  <-> name ∈ map row_migration rows.
Proof.
  induction rows as [|r rows IH]; simpl.
  - split; [discriminate | intros H; inversion H].
  - rewrite orb_true_iff, IH, elem_of_cons, String.eqb_eq.
    split; intros [H | H]; auto.
Qed.

Lemma find_name_None (name : string) (rows : list LedgerRow) :
  List.find (fun r => String.eqb (row_migration r) name) rows = None
  <-> name ∉ map row_migration rows.
Proof.
  induction rows as [|r rows IH]; simpl.
  - split; [intros _ H; inversion H | reflexivity].
  - rewrite not_elem_of_cons. destruct (String.eqb_spec (row_migration r) name).
    + split; [discriminate | intros [H _]; congruence].
    + rewrite IH. split; [intros H; split; [congruence | exact H] | tauto].
Qed.

Lemma find_name_app (name : string) (rows more : list LedgerRow) :
  List.find (fun r => String.eqb (row_migration r) name) (rows ++ more)
  = match List.find (fun r => String.eqb (row_migration r) name) rows with
    | Some r => Some r
    | None => List.find (fun r => String.eqb (row_migration r) name) more
    end.
Proof.
  induction rows as [|r rows IH]; simpl; [reflexivity|].
  destruct (String.eqb (row_migration r) name); [reflexivity | exact IH].
Qed.

Lemma new_rows_names (id batch : Z) (ms : list Migration) :
  map row_migration (new_rows id batch ms) = map Name ms.
Proof.
  revert id. induction ms as [|m ms IH]; intros id; simpl; [reflexivity|].
  rewrite IH. reflexivity.
Qed.

Lemma new_rows_batch (id batch : Z) (ms : list Migration) :
  Forall (fun r => row_batch r = batch) (new_rows id batch ms).
Proof.
  revert id. induction ms as [|m ms IH]; intros id; simpl; constructor;
    [reflexivity | apply IH].
Qed.

Lemma new_rows_length (id batch : Z) (ms : list Migration) :
  length (new_rows id batch ms) = length ms.
Proof.
  revert id. induction ms as [|m ms IH]; intros id; simpl; [reflexivity|].
  rewrite IH. reflexivity.
Qed.

Lemma new_rows_find (id batch : Z) (ms : list Migration) (m : Migration) :
  NoDup (map Name ms) -> m ∈ ms ->
  row_checksum <$>
    List.find (fun r => String.eqb (row_migration r) (Name m))
              (new_rows id batch ms)
  = Some (Checksum m).
Proof.
  revert id. induction ms as [|m0 ms IH]; intros id Hnd Hin.
  - inversion Hin.
  - simpl. apply NoDup_cons in Hnd as [Hfresh Hnd].
    destruct (String.eqb_spec (Name m0) (Name m)) as [Heq | Hne].
    + apply elem_of_cons in Hin as [-> | Hin]; [reflexivity|].
      exfalso. apply Hfresh. rewrite Heq.
      apply list_elem_of_fmap. exists m. auto.
    + apply elem_of_cons in Hin as [-> | Hin]; [congruence|].
      apply IH; assumption.
Qed.

(** *** Pending definitions *)

Lemma executed_map_lookup (ms : list Migration) (name : string) :
  default false (Tracker.executed_map ms !! name) = bool_decide (name ∈ map Name ms).
Proof.
  unfold Tracker.executed_map.
  assert (G : forall (acc : gmap string bool),
             default false
               (foldl (fun executed migration => <[Name migration := true]> executed)
                      acc ms !! name)
             = bool_decide (name ∈ map Name ms) || default false (acc !! name)).
  { induction ms as [|m ms IH]; intros acc; simpl.
    - reflexivity.
    - rewrite IH. destruct (decide (Name m = name)) as [E | NE].
      + rewrite E, lookup_insert_eq. simpl.
        rewrite (bool_decide_eq_true_2 (name ∈ name :: map Name ms))
          by apply list_elem_of_here.
        rewrite orb_true_r. reflexivity.
      + rewrite lookup_insert_ne by assumption.
        f_equal. apply bool_decide_ext. rewrite elem_of_cons.
        split; [auto | intros [E | Hin]; [congruence | exact Hin]]. }
  rewrite G, lookup_empty. simpl. apply orb_false_r.
Qed.

Lemma executed_names (db : Database U) (name : string) :
  name ∈ map Name (Tracker.GetExecutedMigrations db)
  <-> name ∈ map row_migration (ledger db).
Proof.
  unfold Tracker.GetExecutedMigrations.
  change (map Name (Tracker.scan <$> ?l)) with (Name <$> (Tracker.scan <$> l)).
  rewrite <- list_fmap_compose.
  change (Name ∘ Tracker.scan) with row_migration.
  change (map row_migration (ledger db)) with (row_migration <$> ledger db).
  rewrite (merge_sort_Permutation id_le (ledger db)). reflexivity.
Qed.

Lemma pending_spec (db : Database U) (all : list Migration) :
  Tracker.GetPendingMigrations db all
  = List.filter (fun m => negb (bool_decide (Name m ∈ map row_migration (ledger db))))
                all.
Proof.
  unfold Tracker.GetPendingMigrations.
  induction all as [|m all IH]; simpl; [reflexivity|].
  rewrite IH, executed_map_lookup.
  rewrite (bool_decide_ext _ _ (executed_names db (Name m))). reflexivity.
Qed.

Lemma pending_elem (db : Database U) (all : list Migration) (m : Migration) :
  m ∈ Tracker.GetPendingMigrations db all
  <-> m ∈ all /\ Name m ∉ map row_migration (ledger db).
Proof.
  rewrite pending_spec, list_elem_of_In, filter_In, negb_true_iff,
    bool_decide_eq_false, <- list_elem_of_In. reflexivity.
Qed.

(** *** Fingerprints (C1) *)

Lemma VerifyChecksum_spec (db : Database U) (m : Migration) :
  Tracker.VerifyChecksum db m
  = match stored_checksum db (Name m) with
    | None => None
    | Some stored =>
        if String.eqb stored (Checksum m) then None
        else Some (NewValidationError
                     ("Migration " +:+ Name m +:+ " has been modified")
                     ("stored checksum: " +:+ stored
                      +:+ ", current checksum: " +:+ Checksum m))
    end.
Proof.
  unfold Tracker.VerifyChecksum, stored_checksum.
  destruct (List.find _ (ledger db)) as [r|]; simpl; [|reflexivity].
  destruct (String.eqb (row_checksum r) (Checksum m)); reflexivity.
Qed.

Lemma VerifyChecksum_None (db : Database U) (m : Migration) :
  Tracker.VerifyChecksum db m = None
  <-> (forall stored, stored_checksum db (Name m) = Some stored ->
                      stored = Checksum m).
Proof.
  rewrite VerifyChecksum_spec.
  destruct (stored_checksum db (Name m)) as [stored|].
  - destruct (String.eqb_spec stored (Checksum m)) as [E | NE].
    + split; [intros _ ? [= <-]; exact E | reflexivity].
    + split; [discriminate | intros H; exfalso; apply NE, H; reflexivity].
  - split; [intros _ ? [=] | reflexivity].
Qed.

Lemma verify_each_None (db : Database U) (all : list Migration) :
  Manager.verify_each db all = None
  <-> Forall (fun m => Tracker.VerifyChecksum db m = None) all.
Proof.
  induction all as [|m all IH]; simpl.
  - split; [constructor | reflexivity].
  - rewrite Forall_cons. destruct (Tracker.VerifyChecksum db m) as [e|].
    + split; [discriminate | intros [H _]; discriminate].
    + rewrite IH. tauto.
Qed.

Lemma verify_each_Some (db : Database U) (all : list Migration) :
  ~ Forall (fun m => Tracker.VerifyChecksum db m = None) all ->
  exists pre bad post err,
    all = pre ++ bad :: post
    /\ Forall (fun m => Tracker.VerifyChecksum db m = None) pre
    /\ Tracker.VerifyChecksum db bad = Some err
    /\ Manager.verify_each db all = Some err.
Proof.
  induction all as [|m all IH]; intros Hn.
  - exfalso. apply Hn. constructor.
  - simpl. destruct (Tracker.VerifyChecksum db m) as [e|] eqn:Hv.
    + exists [], m, all, e. repeat split; auto.
    + destruct IH as (pre & bad & post & err & -> & Hpre & Hbad & Hres).
      { intros Hall. apply Hn. constructor; assumption. }
      exists (m :: pre), bad, post, err. repeat split; auto.
Qed.

(** C1.  In [Manager.RunMigrations], once the definitions are loaded:
    a definition whose name is not in the ledger passes the check; if some
    loaded definition has a stored checksum different from its current one,
    the call returns the validation error naming the first such definition
    and leaves the database as it was (nothing is executed); and the
    pending migrations are handed to the executor only when every applied
    definition's stored checksum equals its current one. *)
Theorem C1_fingerprints_checked_before_apply {hs : Hasher}
    (migrationsPath : string) (root : DirEntry) (db : Database U) (limit : Z)
    (allMigrations : list Migration) :
  LoadMigrations migrationsPath root = inr allMigrations ->
  (forall m, stored_checksum db (Name m) = None ->
             Tracker.VerifyChecksum db m = None)
  /\ (forall m stored,
        m ∈ allMigrations ->
        stored_checksum db (Name m) = Some stored ->
        stored <> Checksum m ->
        exists pre bad post badstored,
          allMigrations = pre ++ bad :: post
          /\ Forall (fun m' => Tracker.VerifyChecksum db m' = None) pre
          /\ stored_checksum db (Name bad) = Some badstored
          /\ badstored <> Checksum bad
          /\ Manager.RunMigrations migrationsPath root db limit
             = (db, Some (NewValidationError
                            ("Migration " +:+ Name bad +:+ " has been modified")
                            ("stored checksum: " +:+ badstored
                             +:+ ", current checksum: " +:+ Checksum bad))))
  /\ ((forall m stored,
         m ∈ allMigrations ->
         stored_checksum db (Name m) = Some stored -> stored = Checksum m) ->
      Manager.RunMigrations migrationsPath root db limit
      = Executor.RunMigrations db
          (Tracker.GetPendingMigrations db allMigrations) limit).
Proof.
  intros Hload. split; [|split].
  - intros m Hnone. rewrite VerifyChecksum_spec, Hnone. reflexivity.
  - intros m stored Hin Hst Hne.
    destruct (verify_each_Some db allMigrations)
      as (pre & bad & post & err & Hall & Hpre & Hbad & Hres).
    { rewrite Forall_forall. intros Hall.
      specialize (Hall m Hin). rewrite VerifyChecksum_None in Hall.
      apply Hne, Hall, Hst. }
    rewrite VerifyChecksum_spec in Hbad.
    destruct (stored_checksum db (Name bad)) as [badstored|] eqn:Hbs;
      [|discriminate].
    destruct (String.eqb_spec badstored (Checksum bad)) as [E | NE];
      [discriminate|]. injection Hbad as <-.
    exists pre, bad, post, badstored. repeat split; auto.
    unfold Manager.RunMigrations. rewrite Hload, Hres. reflexivity.
  - intros Hall. unfold Manager.RunMigrations. rewrite Hload.
    assert (Hv : Manager.verify_each db allMigrations = None).
    { apply verify_each_None, Forall_forall. intros m Hin.
      apply VerifyChecksum_None. intros stored. apply Hall, Hin. }
    rewrite Hv. reflexivity.
Qed.

(** *** Applying migrations *)

Lemma runSingleMigration_failure (db db' : Database U) (m : Migration)
    (batch : Z) (err : MigrationError) :
  Executor.runSingleMigration db m batch = (db', Some err) -> db' = db.
Proof.
  unfold Executor.runSingleMigration.
  destruct (Executor.executeMigrationSQL _ _ _) as [e | tx]; [congruence|].
  destruct (Tracker.RecordMigration _ _ _) as [e | db'']; congruence.
Qed.

Lemma runSingleMigration_success (db db' : Database U) (m : Migration)
    (batch : Z) :
  Executor.runSingleMigration db m batch = (db', None) ->
  exists tx,
    Executor.executeMigrationSQL (schema db) (UpSQL m) (Name m) = inr tx
    /\ in_int4 batch = true
    /\ (Name m ∉ map row_migration (ledger db))
    /\ db' = {| schema := tx;
                ledger := ledger db ++ new_rows (next_id db) batch [m];
                next_id := next_id db + 1 |}.
Proof.
  unfold Executor.runSingleMigration.
  destruct (Executor.executeMigrationSQL _ _ _) as [e | tx]; [congruence|].
  unfold Tracker.RecordMigration. simpl.
  destruct (in_int4 batch) eqn:Hb; simpl; [|congruence].
  destruct (existsb _ (ledger db)) eqn:Hex; [congruence|].
  intros [= <-]. exists tx. repeat split; auto.
  intros Hin. apply existsb_name in Hin. congruence.
Qed.

Lemma run_each_success (ms : list Migration) (db db' : Database U) (batch : Z) :
  Executor.run_each db ms batch = (db', None) ->
  ledger db' = ledger db ++ new_rows (next_id db) batch ms
  /\ next_id db' = next_id db + Z.of_nat (length ms)
  /\ exec_bodies (schema db) (up_bodies ms) = inr (schema db')
  /\ NoDup (map Name ms)
  /\ Forall (fun m => Name m ∉ map row_migration (ledger db)) ms
  /\ (ms <> [] -> in_int4 batch = true).
Proof.
  revert db. induction ms as [|m ms IH]; intros db; simpl.
  - intros [= <-]. rewrite app_nil_r.
    split; [reflexivity|]. split; [lia|]. split; [reflexivity|].
    split; [constructor|]. split; [constructor | congruence].
  - destruct (Executor.runSingleMigration db m batch) as [db1 [e|]] eqn:H1;
      [congruence|].
    intros Hrest.
    apply runSingleMigration_success in H1 as (tx & Hexec & Hb & Hfresh & ->).
    apply IH in Hrest as (Hl & Hn & Hs & Hnd & Hall & _). simpl in *.
    rewrite Hexec.
    assert (Hx : forall x, x ∈ ms ->
                 (Name x ∉ map row_migration (ledger db)) /\ Name x <> Name m).
    { intros x Hx. rewrite Forall_forall in Hall. specialize (Hall x Hx).
      rewrite map_app in Hall. simpl in Hall.
      rewrite elem_of_app, list_elem_of_singleton in Hall. tauto. }
    split; [rewrite Hl, <- app_assoc; reflexivity|].
    split; [lia|]. split; [exact Hs|]. split; [|split].
    + constructor; [|exact Hnd].
      intros Hin. apply list_elem_of_fmap in Hin as (x & Hxn & Hxin).
      apply Hx in Hxin as [_ Hne]. congruence.
    + constructor; [exact Hfresh|].
      apply Forall_forall. intros x Hxin. apply Hx, Hxin.
    + intros _. exact Hb.
Qed.

Lemma limit_to_nonempty (limit : Z) (ms : list Migration) :
  ms <> [] -> Executor.limit_to limit ms <> [].
Proof.
  unfold Executor.limit_to. intros Hne.
  destruct ((0 <? limit) && (limit <? Z.of_nat (length ms))) eqn:Hc;
    [|exact Hne].
  apply andb_true_iff in Hc as [H0 _]. apply Z.ltb_lt in H0.
  destruct ms as [|m ms]; [congruence|].
  replace (Z.to_nat limit) with (S (Z.to_nat (limit - 1))) by lia.
  simpl. congruence.
Qed.

Lemma limit_to_zero (ms : list Migration) : Executor.limit_to 0 ms = ms.
Proof. reflexivity. Qed.

Lemma new_rows_nonempty (id batch : Z) (ms : list Migration) :
  ms <> [] -> batch ∈ map row_batch (new_rows id batch ms).
Proof.
  destruct ms as [|m ms]; [congruence|]. intros _. simpl.
  apply list_elem_of_here.
Qed.

Lemma Executor_RunMigrations_success (db db' : Database U)
    (ms : list Migration) (limit : Z) :
  ledger_wf db -> ms <> [] ->
  Executor.RunMigrations db ms limit = (db', None) ->
  ledger db' = ledger db
               ++ new_rows (next_id db) (Tracker.GetLastBatch db + 1)
                           (Executor.limit_to limit ms)
  /\ Tracker.GetLastBatch db' = Tracker.GetLastBatch db + 1.
Proof.
  intros Hwf Hne Hrun. unfold Executor.RunMigrations in Hrun.
  destruct ms as [|m0 ms0] eqn:Ems; [congruence|]. rewrite <- Ems in *.
  pose proof (GetLastBatch_in_int4 db Hwf) as Hlast.
  apply in_int4_range in Hlast.
  rewrite wrap_int_small in Hrun by lia.
  apply run_each_success in Hrun as (Hl & _ & _ & _ & _ & _).
  split; [exact Hl|].
  apply GetLastBatch_unique.
  - rewrite Hl, map_app, elem_of_app. right.
    apply new_rows_nonempty, limit_to_nonempty, Hne.
  - rewrite Hl. apply Forall_app. split.
    + destruct (ledger db) as [|r rows] eqn:E; [constructor|].
      destruct (GetLastBatch_max db) as (_ & Hall); [congruence|].
      rewrite E in Hall. eapply Forall_impl; [exact Hall|].
      intros r' Hr'. simpl in Hr'. lia.
    + eapply Forall_impl; [apply new_rows_batch|].
      intros r' Hr'. simpl in Hr'. lia.
Qed.

(** C4.  [GetLastBatch] is 0 on an empty ledger and otherwise the largest
    batch number stored.  [Executor.RunMigrations] computes the next batch
    once, from the ledger as it was before the run, and gives it to every
    migration it applies: after a successful run of a non-empty pending
    list the ledger has grown by one row per applied migration, all in batch
    [GetLastBatch + 1], and [GetLastBatch] is larger by exactly 1 whatever
    the limit; the same holds for [Manager.RunMigrations]. *)
Theorem C4_last_batch_increases_by_one {hs : Hasher} (db : Database U) :
  ledger_wf db ->
  (ledger db = [] -> Tracker.GetLastBatch db = 0)
  /\ (ledger db <> [] ->
      Tracker.GetLastBatch db ∈ map row_batch (ledger db)
      /\ Forall (fun r => row_batch r <= Tracker.GetLastBatch db) (ledger db))
  /\ (forall pending limit db',
        pending <> [] ->
        Executor.RunMigrations db pending limit = (db', None) ->
        exists rows,
          ledger db' = ledger db ++ rows
          /\ length rows = length (Executor.limit_to limit pending)
          /\ rows <> []
          /\ Forall (fun r => row_batch r = Tracker.GetLastBatch db + 1) rows
          /\ Tracker.GetLastBatch db' = Tracker.GetLastBatch db + 1)
  /\ (forall migrationsPath root allMigrations limit db',
        LoadMigrations migrationsPath root = inr allMigrations ->
        Tracker.GetPendingMigrations db allMigrations <> [] ->
        Manager.RunMigrations migrationsPath root db limit = (db', None) ->
        Tracker.GetLastBatch db' = Tracker.GetLastBatch db + 1).
Proof.
  intros Hwf.
  split; [apply GetLastBatch_empty|].
  split; [apply GetLastBatch_max|].
  split.
  - intros pending limit db' Hne Hrun.
    destruct (Executor_RunMigrations_success db db' pending limit Hwf Hne Hrun)
      as (Hl & Hlast).
    exists (new_rows (next_id db) (Tracker.GetLastBatch db + 1)
                     (Executor.limit_to limit pending)).
    split; [exact Hl|]. split; [apply new_rows_length|].
    split; [|split; [apply new_rows_batch | exact Hlast]].
    pose proof (limit_to_nonempty limit pending Hne) as Hlim.
    destruct (Executor.limit_to limit pending); [congruence | discriminate].
  - intros migrationsPath root allMigrations limit db' Hload Hne Hrun.
    unfold Manager.RunMigrations in Hrun. rewrite Hload in Hrun.
    destruct (Manager.verify_each db allMigrations); [congruence|].
    eapply Executor_RunMigrations_success; eauto.
Qed.

(** *** Applying twice (C5) *)

Lemma apply_all_ledger (db db1 : Database U) (pending : list Migration) :
  Executor.RunMigrations db pending 0 = (db1, None) ->
  exists id batch,
    ledger db1 = ledger db ++ new_rows id batch pending
    /\ NoDup (map Name pending).
Proof.
  unfold Executor.RunMigrations. destruct pending as [|m ms] eqn:E.
  - intros [= <-]. exists 0, 0. simpl. rewrite app_nil_r.
    split; [reflexivity | constructor].
  - rewrite <- E, limit_to_zero. intros Hrun.
    apply run_each_success in Hrun as (Hl & _ & _ & Hnd & _).
    eauto.
Qed.

Lemma filter_nil_Forall {A} (f : A -> bool) (l : list A) :
  Forall (fun x => f x = false) l -> List.filter f l = [].
Proof.
  induction 1 as [|x l Hx _ IH]; simpl; [reflexivity|]. rewrite Hx. exact IH.
Qed.

(** C5.  If [apply(0)] succeeds, then afterwards every discovered
    definition has a ledger row, the pending set is empty, and a second
    [apply(0)] on the same directory succeeds without changing the
    database: it applies nothing. *)
Theorem C5_apply_twice_applies_nothing {hs : Hasher}
    (migrationsPath : string) (root : DirEntry) (db db1 : Database U) :
  Manager.RunMigrations migrationsPath root db 0 = (db1, None) ->
  exists allMigrations,
    LoadMigrations migrationsPath root = inr allMigrations
    /\ Forall (fun m => Name m ∈ map row_migration (ledger db1)) allMigrations
    /\ Tracker.GetPendingMigrations db1 allMigrations = []
    /\ Manager.RunMigrations migrationsPath root db1 0 = (db1, None).
Proof.
  intros Hrun. unfold Manager.RunMigrations in Hrun.
  destruct (LoadMigrations migrationsPath root) as [e | all] eqn:Hload;
    [congruence|].
  destruct (Manager.verify_each db all) as [e|] eqn:Hv; [congruence|].
  apply apply_all_ledger in Hrun as (id & batch & Hl & Hnd).
  exists all. split; [reflexivity|].
  assert (Hnames : Forall (fun m => Name m ∈ map row_migration (ledger db1)) all).
  { apply Forall_forall. intros m Hin. rewrite Hl, map_app, elem_of_app.
    destruct (decide (Name m ∈ map row_migration (ledger db))) as [Hold | Hnew];
      [left; exact Hold | right].
    rewrite new_rows_names. apply list_elem_of_fmap. exists m.
    split; [reflexivity|]. apply pending_elem. auto. }
  assert (Hpend : Tracker.GetPendingMigrations db1 all = []).
  { rewrite pending_spec. apply filter_nil_Forall.
    eapply Forall_impl; [exact Hnames|]. intros m Hm. simpl.
    rewrite bool_decide_eq_true_2 by exact Hm. reflexivity. }
  split; [exact Hnames|]. split; [exact Hpend|].
  unfold Manager.RunMigrations. rewrite Hload, Hpend.
  assert (Hv1 : Manager.verify_each db1 all = None).
  { apply verify_each_None, Forall_forall. intros m Hin.
    apply VerifyChecksum_None. intros stored.
    unfold stored_checksum. rewrite Hl, find_name_app.
    rewrite verify_each_None, Forall_forall in Hv. specialize (Hv m Hin).
    rewrite VerifyChecksum_None in Hv. unfold stored_checksum in Hv.
    destruct (List.find _ (ledger db)) as [r|] eqn:Hf.
    - apply Hv.
    - apply find_name_None in Hf.
      rewrite new_rows_find; [congruence | exact Hnd |].
      apply pending_elem. auto. }
  rewrite Hv1. reflexivity.
Qed.

(** *** Reverting migrations *)

Lemma without_names_nil (rows : list LedgerRow) : without_names [] rows = rows.
Proof.
  unfold without_names. induction rows as [|r rows IH]; [reflexivity|].
  cbn [List.filter].
  rewrite bool_decide_eq_false_2 by (intros H; inversion H).
  cbn [negb]. rewrite IH. reflexivity.
Qed.

Lemma without_names_cons (n : string) (ns : list string) (rows : list LedgerRow) :
  without_names (n :: ns) rows
  = without_names ns
      (List.filter (fun r => negb (String.eqb (row_migration r) n)) rows).
Proof.
  unfold without_names. induction rows as [|r rows IH]; [reflexivity|].
  cbn [List.filter].
  destruct (String.eqb_spec (row_migration r) n) as [E | NE]; cbn [negb].
  - rewrite bool_decide_eq_true_2 by (rewrite E; apply list_elem_of_here).
    cbn [negb]. exact IH.
  - assert (Hb : bool_decide (row_migration r ∈ n :: ns)
                 = bool_decide (row_migration r ∈ ns)).
    { apply bool_decide_ext. rewrite elem_of_cons. tauto. }
    rewrite Hb. cbn [List.filter].
    destruct (bool_decide (row_migration r ∈ ns)); cbn [negb];
      rewrite IH; reflexivity.
Qed.

Lemma without_names_ext (ns ns' : list string) (rows : list LedgerRow) :
  (forall n, n ∈ ns <-> n ∈ ns') ->
  without_names ns rows = without_names ns' rows.
Proof.
  intros Hext. unfold without_names. apply filter_ext. intros r.
  f_equal. apply bool_decide_ext, Hext.
Qed.

Lemma without_names_elem (r : LedgerRow) (ns : list string)
    (rows : list LedgerRow) :
  r ∈ without_names ns rows <-> r ∈ rows /\ row_migration r ∉ ns.
Proof.
  unfold without_names.
  rewrite list_elem_of_In, filter_In, negb_true_iff, bool_decide_eq_false,
    <- list_elem_of_In. reflexivity.
Qed.

Lemma without_names_app (ns ns' : list string) (rows : list LedgerRow) :
  without_names (ns ++ ns') rows = without_names ns' (without_names ns rows).
Proof.
  revert rows. induction ns as [|n ns IH]; intros rows; simpl.
  - rewrite without_names_nil. reflexivity.
  - rewrite !without_names_cons, IH. reflexivity.
Qed.

Lemma rollbackSingleMigration_failure (db db' : Database U) (m : Migration)
    (err : MigrationError) :
  Executor.rollbackSingleMigration db m = (db', Some err) -> db' = db.
Proof.
  unfold Executor.rollbackSingleMigration.
  destruct (Executor.executeMigrationSQL _ _ _) as [e | tx]; congruence.
Qed.

Lemma rollbackSingleMigration_success (db db' : Database U) (m : Migration) :
  Executor.rollbackSingleMigration db m = (db', None) ->
  exists tx,
    Executor.executeMigrationSQL (schema db) (DownSQL m) (Name m) = inr tx
    /\ db' = {| schema := tx;
                ledger := without_names [Name m] (ledger db);
                next_id := next_id db |}.
Proof.
  unfold Executor.rollbackSingleMigration.
  destruct (Executor.executeMigrationSQL _ _ _) as [e | tx]; [congruence|].
  intros [= <-]. exists tx. split; [reflexivity|].
  unfold Tracker.RemoveMigration. simpl.
  rewrite without_names_cons, without_names_nil. reflexivity.
Qed.

(** Whatever the outcome, the rows removed are those of the migrations
    reverted so far, a prefix of the list; on success, all of it. *)
Lemma rollback_each_ledger (ms : list Migration) (db db' : Database U)
    (res : option MigrationError) :
  Executor.rollback_each db ms = (db', res) ->
  exists reverted rest,
    ms = reverted ++ rest
    /\ ledger db' = without_names (map Name reverted) (ledger db)
    /\ next_id db' = next_id db
    /\ (res = None -> rest = []).
Proof.
  revert db. induction ms as [|m ms IH]; intros db; simpl.
  - intros [= <- <-]. exists [], []. simpl. rewrite without_names_nil. auto.
  - destruct (Executor.rollbackSingleMigration db m) as [db1 [e|]] eqn:H1.
    + intros [= <- <-]. apply rollbackSingleMigration_failure in H1 as ->.
      exists [], (m :: ms). simpl. rewrite without_names_nil.
      repeat split; auto. discriminate.
    + intros Hrest.
      apply rollbackSingleMigration_success in H1 as (tx & _ & ->).
      apply IH in Hrest as (reverted & rest & -> & Hl & Hn & Hres).
      exists (m :: reverted), rest. simpl in *.
      rewrite Hl, (without_names_cons (Name m) (map Name reverted)).
      rewrite without_names_cons, without_names_nil. auto.
Qed.

(** When the reverse bodies all execute, the run succeeds and its result
    is determined. *)
Lemma rollback_each_run (ms : list Migration) (db : Database U) (tx : U) :
  exec_bodies (schema db) (down_bodies ms) = inr tx ->
  Executor.rollback_each db ms
  = ({| schema := tx;
        ledger := without_names (map Name ms) (ledger db);
        next_id := next_id db |}, None).
Proof.
  revert db. induction ms as [|m ms IH]; intros db; simpl.
  - intros [= <-]. rewrite without_names_nil. destruct db; reflexivity.
  - unfold Executor.rollbackSingleMigration.
    destruct (Executor.executeMigrationSQL _ _ _) as [e | tx1]; [congruence|].
    intros Hrest.
    rewrite (IH (Tracker.RemoveMigration
                   {| schema := tx1; ledger := ledger db; next_id := next_id db |}
                   m) Hrest).
    unfold Tracker.RemoveMigration. cbn [schema ledger next_id].
    rewrite (without_names_cons (Name m) (map Name ms)). reflexivity.
Qed.

Lemma RollbackMigrations_all (db : Database U) (ms : list Migration) :
  Executor.RollbackMigrations db ms 0 = Executor.rollback_each db ms.
Proof. destruct ms; reflexivity. Qed.

(** *** Matching definitions *)

Lemma migrationsMap_lookup (all : list Migration) (k : string) (m : Migration) :
  Executor.migrationsMap all !! k = Some m -> Name m = k /\ m ∈ all.
Proof.
  unfold Executor.migrationsMap.
  assert (G : forall acc : gmap string Migration,
             (forall k' m', acc !! k' = Some m' -> Name m' = k') ->
             foldl (fun mm migration => <[Name migration := migration]> mm) acc all
               !! k = Some m ->
             Name m = k /\ (m ∈ all \/ acc !! k = Some m)).
  { induction all as [|a all IH]; intros acc Hacc; simpl.
    - intros H. split; [eapply Hacc, H | auto].
    - intros H. apply IH in H as [Hn [Hin | Hin]].
      + split; [exact Hn | left; apply list_elem_of_further, Hin].
      + split; [exact Hn|].
        destruct (decide (Name a = k)) as [E | NE].
        * rewrite E, lookup_insert_eq in Hin. injection Hin as ->.
          left. apply list_elem_of_here.
        * rewrite lookup_insert_ne in Hin by assumption. auto.
      + intros k' m'. destruct (decide (Name a = k')) as [E | NE].
        * rewrite E, lookup_insert_eq. intros [= <-]. exact E.
        * rewrite lookup_insert_ne by assumption. apply Hacc. }
  intros H. apply G in H as [Hn [Hin | Hin]]; [auto | |].
  - rewrite lookup_empty in Hin. discriminate.
  - intros k' m'. rewrite lookup_empty. discriminate.
Qed.

Lemma migrationsToRollback_names (all entries : list Migration) :
  map Name (Executor.migrationsToRollback all entries)
  = map Name (List.filter (has_definition all) entries).
Proof.
  unfold Executor.migrationsToRollback, has_definition.
  induction entries as [|e entries IH]; simpl; [reflexivity|].
  destruct (Executor.migrationsMap all !! Name e) as [m|] eqn:Hm; simpl.
  - f_equal; [|exact IH]. apply migrationsMap_lookup in Hm as [-> _].
    reflexivity.
  - exact IH.
Qed.

Lemma migrationsToRollback_filter (all entries : list Migration) :
  Executor.migrationsToRollback all entries
  = Executor.migrationsToRollback all (List.filter (has_definition all) entries).
Proof.
  unfold Executor.migrationsToRollback, has_definition.
  induction entries as [|e entries IH]; simpl; [reflexivity|].
  destruct (Executor.migrationsMap all !! Name e) as [m|] eqn:Hm; simpl.
  - rewrite Hm. f_equal. exact IH.
  - exact IH.
Qed.

Lemma migrationsToRollback_all_defined (all entries : list Migration) :
  Forall (fun e => is_Some (Executor.migrationsMap all !! Name e)) entries ->
  Forall2 (fun e m => Executor.migrationsMap all !! Name e = Some m)
          entries (Executor.migrationsToRollback all entries)
  /\ map Name (Executor.migrationsToRollback all entries) = map Name entries.
Proof.
  unfold Executor.migrationsToRollback.
  induction 1 as [|e entries [m Hm] _ [IH1 IH2]]; simpl.
  - split; [constructor | reflexivity].
  - rewrite Hm. simpl. split; [constructor; assumption|].
    f_equal; [|exact IH2]. apply migrationsMap_lookup in Hm as [-> _].
    reflexivity.
Qed.

Lemma migrationsToRollback_none (all entries : list Migration) :
  Forall (fun e => Executor.migrationsMap all !! Name e = None) entries ->
  Executor.migrationsToRollback all entries = [].
Proof.
  unfold Executor.migrationsToRollback.
  induction 1 as [|e entries Hm _ IH]; simpl; [reflexivity|].
  rewrite Hm. exact IH.
Qed.

(** *** The order of the selected entries *)

#[local] Instance id_le_total : Total id_le.
Proof. intros a b. unfold id_le. lia. Qed.
#[local] Instance id_ge_total : Total id_ge.
Proof. intros a b. unfold id_ge. lia. Qed.
#[local] Instance newest_first_trans : Transitive newest_first.
Proof. intros a b c. unfold newest_first. lia. Qed.

Lemma by_batch_newest_first (db : Database U) (batch : Z) :
  StronglySorted newest_first (Tracker.GetMigrationsByBatch db batch)
  /\ Tracker.GetMigrationsByBatch db batch
     ≡ₚ Tracker.scan <$> List.filter (fun r => row_batch r =? batch) (ledger db).
Proof.
  unfold Tracker.GetMigrationsByBatch. split.
  - apply Sorted_StronglySorted; [apply _|].
    apply (Sorted_fmap _ id_ge); [intros x y H; exact H|].
    apply Sorted_merge_sort, _.
  - rewrite merge_sort_Permutation. reflexivity.
Qed.

Lemma applied_newest_first (db : Database U) :
  StronglySorted newest_first (reverse (Tracker.GetExecutedMigrations db))
  /\ reverse (Tracker.GetExecutedMigrations db) ≡ₚ Tracker.scan <$> ledger db.
Proof.
  unfold Tracker.GetExecutedMigrations. split.
  - apply Sorted_StronglySorted; [apply _|].
    apply (Sorted_reverse (fun a b => ID a <= ID b)).
    apply (Sorted_fmap _ id_le); [intros x y H; exact H|].
    apply Sorted_merge_sort, _.
  - rewrite reverse_Permutation, merge_sort_Permutation. reflexivity.
Qed.

Lemma names_unique (rows : list LedgerRow) (r r' : LedgerRow) :
  NoDup (map row_migration rows) -> r ∈ rows -> r' ∈ rows ->
  row_migration r = row_migration r' -> r = r'.
Proof.
  induction rows as [|a rows IH]; intros Hnd Hr Hr' Heq; [inversion Hr|].
  simpl in Hnd. apply NoDup_cons in Hnd as [Ha Hnd].
  apply elem_of_cons in Hr as [-> | Hr]; apply elem_of_cons in Hr' as [-> | Hr'].
  - reflexivity.
  - exfalso. apply Ha. rewrite Heq. apply list_elem_of_fmap. eauto.
  - exfalso. apply Ha. rewrite <- Heq. apply list_elem_of_fmap. eauto.
  - apply IH; assumption.
Qed.

(** With unique names, removing the names of the rows that satisfy [P]
    removes exactly those rows. *)
Lemma without_names_of_filter (P : LedgerRow -> bool) (rows : list LedgerRow) :
  NoDup (map row_migration rows) ->
  without_names (map row_migration (List.filter P rows)) rows
  = List.filter (fun r => negb (P r)) rows.
Proof.
  intros Hnd. unfold without_names. apply filter_ext_in. intros r Hr.
  f_equal. apply list_elem_of_In in Hr.
  destruct (P r) eqn:HP.
  - apply bool_decide_eq_true_2, list_elem_of_fmap. exists r.
    split; [reflexivity|]. apply list_elem_of_In, filter_In.
    split; [apply list_elem_of_In, Hr | exact HP].
  - apply bool_decide_eq_false_2. intros Hin.
    apply list_elem_of_fmap in Hin as (r' & Heq & Hr').
    apply list_elem_of_In, filter_In in Hr' as [Hr' HP'].
    apply list_elem_of_In in Hr'.
    rewrite (names_unique rows r r' Hnd Hr Hr' Heq) in HP. congruence.
Qed.

(** *** Rolling back the last batch (C6) *)

Lemma Manager_RollbackMigrations_eq {hs : Hasher} (migrationsPath : string)
    (root : DirEntry) (db : Database U) (limit : Z) (all : list Migration) :
  LoadMigrations migrationsPath root = inr all ->
  Manager.RollbackMigrations migrationsPath root db limit
  = Executor.rollback_each db
      (Executor.migrationsToRollback all (last_batch_selection db)).
Proof.
  intros Hload. unfold Manager.RollbackMigrations, last_batch_selection.
  rewrite Hload. cbv zeta.
  destruct (Tracker.GetLastBatch db =? 0); [reflexivity|].
  unfold Executor.RollbackBatch.
  destruct (Tracker.GetMigrationsByBatch db (Tracker.GetLastBatch db)) eqn:E;
    [reflexivity|].
  apply RollbackMigrations_all.
Qed.

(** C6.  [Manager.RollbackMigrations] reads [GetLastBatch]; when it is 0
    the call returns success and changes nothing.  Otherwise the entries it
    starts from are the ledger rows of that batch in descending id order;
    it runs the reverse bodies of their matching definitions in that order
    and, when they all execute, removes those rows and returns success.
    When every entry of the batch has a definition, each entry is reverted
    by its own definition and the rows removed are exactly those of the
    batch. *)
Theorem C6_rollback_last_batch {hs : Hasher} (migrationsPath : string)
    (root : DirEntry) (db : Database U) (allMigrations : list Migration) :
  LoadMigrations migrationsPath root = inr allMigrations ->
  ledger_wf db ->
  let lastBatch := Tracker.GetLastBatch db in
  let entries := Tracker.GetMigrationsByBatch db lastBatch in
  let todo := Executor.migrationsToRollback allMigrations entries in
  (lastBatch = 0 ->
   forall limit,
     Manager.RollbackMigrations migrationsPath root db limit = (db, None))
  /\ StronglySorted newest_first entries
  /\ entries ≡ₚ Tracker.scan <$>
                  List.filter (fun r => row_batch r =? lastBatch) (ledger db)
  /\ (lastBatch <> 0 ->
      forall limit tx,
        exec_bodies (schema db) (down_bodies todo) = inr tx ->
        Manager.RollbackMigrations migrationsPath root db limit
        = ({| schema := tx;
              ledger := without_names (map Name todo) (ledger db);
              next_id := next_id db |}, None))
  /\ (Forall (fun e => is_Some (Executor.migrationsMap allMigrations !! Name e))
             entries ->
      Forall2 (fun e m => Executor.migrationsMap allMigrations !! Name e = Some m)
              entries todo
      /\ without_names (map Name todo) (ledger db)
         = List.filter (fun r => negb (row_batch r =? lastBatch)) (ledger db)).
Proof.
  intros Hload Hwf lastBatch entries todo.
  split; [|split; [|split; [|split]]].
  - intros H0 limit. unfold Manager.RollbackMigrations. rewrite Hload.
    fold lastBatch. rewrite H0. reflexivity.
  - apply by_batch_newest_first.
  - apply by_batch_newest_first.
  - intros Hne limit tx Hexec.
    rewrite (Manager_RollbackMigrations_eq _ _ _ _ _ Hload).
    unfold last_batch_selection. fold lastBatch.
    destruct (Z.eqb_spec lastBatch 0) as [E | _]; [congruence|].
    apply rollback_each_run. exact Hexec.
  - intros Hdef.
    destruct (migrationsToRollback_all_defined allMigrations entries Hdef)
      as [HF Hnames].
    split; [exact HF|]. fold todo in Hnames. rewrite Hnames.
    destruct Hwf as (Hnd & _).
    rewrite <- (without_names_of_filter (fun r => row_batch r =? lastBatch))
      by exact Hnd.
    apply without_names_ext. intros n.
    change (map Name entries) with (Name <$> entries).
    destruct (by_batch_newest_first db lastBatch) as [_ Hperm].
    fold entries in Hperm. rewrite Hperm, <- list_fmap_compose. reflexivity.
Qed.

(** *** Rolling back a number of steps (C7) *)

Lemma limit_to_nil (limit : Z) : Executor.limit_to limit [] = [].
Proof.
  unfold Executor.limit_to. destruct (_ && _); [apply take_nil | reflexivity].
Qed.

Lemma Manager_RollbackSteps_eq {hs : Hasher} (migrationsPath : string)
    (root : DirEntry) (db : Database U) (steps : Z) (all : list Migration) :
  LoadMigrations migrationsPath root = inr all ->
  Manager.RollbackSteps migrationsPath root db steps
  = Executor.rollback_each db
      (Executor.migrationsToRollback all (Manager.steps_selection db steps)).
Proof.
  intros Hload. unfold Manager.RollbackSteps. rewrite Hload.
  destruct (Tracker.GetExecutedMigrations db) eqn:E.
  - unfold Manager.steps_selection. rewrite E, reverse_nil, limit_to_nil. reflexivity.
  - apply RollbackMigrations_all.
Qed.

Lemma steps_selection_positive (db : Database U) (steps : Z) :
  0 < steps -> Manager.steps_selection db steps = most_recent db steps.
Proof.
  intros Hpos. unfold Manager.steps_selection, most_recent, Executor.limit_to.
  destruct (Z.ltb_spec 0 steps); [|lia]. simpl.
  destruct (Z.ltb_spec steps
              (Z.of_nat (length (reverse (Tracker.GetExecutedMigrations db)))));
    [reflexivity|].
  symmetry. apply take_ge. lia.
Qed.

Lemma steps_selection_all (db : Database U) (steps : Z) :
  steps <= 0 -> Manager.steps_selection db steps = reverse (Tracker.GetExecutedMigrations db).
Proof.
  intros Hle. unfold Manager.steps_selection, Executor.limit_to.
  destruct (Z.ltb_spec 0 steps); [lia | reflexivity].
Qed.

(** C7, as the code has it.  The applied entries, newest first, are the
    ledger rows in descending id order.  For [steps >= 1],
    [Manager.RollbackSteps] starts from the [steps] most recent of them, all
    of them when fewer are applied; for [steps <= 0] it starts from all of
    them.  It runs the reverse bodies of the matching definitions in that
    order and, when they all execute, removes those rows and returns
    success; on an empty ledger it returns success and changes nothing. *)
Theorem C7_rollback_steps {hs : Hasher} (migrationsPath : string)
    (root : DirEntry) (db : Database U) (allMigrations : list Migration)
    (steps : Z) :
  LoadMigrations migrationsPath root = inr allMigrations ->
  let applied := reverse (Tracker.GetExecutedMigrations db) in
  let selection := Manager.steps_selection db steps in
  let todo := Executor.migrationsToRollback allMigrations selection in
  StronglySorted newest_first applied
  /\ applied ≡ₚ Tracker.scan <$> ledger db
  /\ (0 < steps -> selection = take (Z.to_nat steps) applied)
  /\ (Z.of_nat (length (ledger db)) <= steps -> selection = applied)
  /\ (steps <= 0 -> selection = applied)
  /\ (ledger db = [] ->
      Manager.RollbackSteps migrationsPath root db steps = (db, None))
  /\ (forall tx,
        exec_bodies (schema db) (down_bodies todo) = inr tx ->
        Manager.RollbackSteps migrationsPath root db steps
        = ({| schema := tx;
              ledger := without_names (map Name todo) (ledger db);
              next_id := next_id db |}, None)).
Proof.
  intros Hload applied selection todo.
  destruct (applied_newest_first db) as [Hsorted Hperm].
  split; [exact Hsorted|]. split; [exact Hperm|].
  split; [apply steps_selection_positive|].
  split; [|split; [apply steps_selection_all|split]].
  - intros Hge. unfold selection, Manager.steps_selection, Executor.limit_to.
    fold applied.
    assert (Hlen : length applied = length (ledger db)).
    { unfold applied. rewrite Hperm, length_fmap. reflexivity. }
    rewrite Hlen. destruct (Z.ltb_spec steps (Z.of_nat (length (ledger db))));
      [lia|]. rewrite andb_false_r. reflexivity.
  - intros Hempty. unfold Manager.RollbackSteps. rewrite Hload.
    unfold Tracker.GetExecutedMigrations. rewrite Hempty. reflexivity.
  - intros tx Hexec. rewrite (Manager_RollbackSteps_eq _ _ _ _ _ Hload).
    apply rollback_each_run. exact Hexec.
Qed.

(** *** Entries without a definition (C10) *)

Lemma Manager_ResetAllMigrations_eq {hs : Hasher} (migrationsPath : string)
    (root : DirEntry) (db : Database U) (all : list Migration) :
  LoadMigrations migrationsPath root = inr all ->
  Manager.ResetAllMigrations migrationsPath root db
  = Executor.rollback_each db
      (Executor.migrationsToRollback all (reset_selection db)).
Proof.
  intros Hload. unfold Manager.ResetAllMigrations, reset_selection.
  rewrite Hload. unfold Executor.ResetAllMigrations.
  destruct (Tracker.GetExecutedMigrations db) eqn:E; [reflexivity|].
  apply RollbackMigrations_all.
Qed.

Lemma rollback_selection_skips (db : Database U) (all selection : list Migration) :
  let run := Executor.rollback_each db
               (Executor.migrationsToRollback all selection) in
  run = Executor.rollback_each db
          (Executor.migrationsToRollback all
             (List.filter (has_definition all) selection))
  /\ (forall r, r ∈ ledger db ->
                Executor.migrationsMap all !! row_migration r = None ->
                r ∈ ledger (fst run))
  /\ (Forall (fun e => Executor.migrationsMap all !! Name e = None) selection ->
      run = (db, None))
  /\ (snd run = None ->
      forall e, e ∈ selection ->
                is_Some (Executor.migrationsMap all !! Name e) ->
                Name e ∉ map row_migration (ledger (fst run))).
Proof.
  intros run. subst run.
  split; [rewrite <- migrationsToRollback_filter; reflexivity|].
  destruct (Executor.rollback_each db
              (Executor.migrationsToRollback all selection))
    as [db' res] eqn:Hrun.
  pose proof (rollback_each_ledger _ _ _ _ Hrun)
    as (reverted & rest & Hsplit & Hl & _ & Hres).
  simpl. split; [|split].
  - intros r Hr Hnone. rewrite Hl. apply without_names_elem.
    split; [exact Hr|]. intros Hin.
    apply list_elem_of_fmap in Hin as (m & Hname & Hm).
    assert (Hm' : m ∈ Executor.migrationsToRollback all selection).
    { rewrite Hsplit, elem_of_app. auto. }
    unfold Executor.migrationsToRollback in Hm'.
    apply list_elem_of_omap in Hm' as (e & _ & He).
    pose proof (migrationsMap_lookup _ _ _ He) as [Hn Hall].
    assert (Hsome : is_Some (Executor.migrationsMap all !! Name m)).
    { rewrite Hn. eauto. }
    rewrite <- Hname, Hnone in Hsome. destruct Hsome as [? ?]. discriminate.
  - intros Hnone. rewrite migrationsToRollback_none in Hrun by exact Hnone.
    simpl in Hrun. congruence.
  - intros -> e He [m Hm]. specialize (Hres eq_refl). subst rest.
    rewrite app_nil_r in Hsplit. subst reverted.
    intros Hin. apply list_elem_of_fmap in Hin as (r & Hname & Hr).
    rewrite Hl in Hr. apply without_names_elem in Hr as [_ Hr]. apply Hr.
    rewrite <- Hname. apply list_elem_of_fmap. exists m.
    pose proof (migrationsMap_lookup _ _ _ Hm) as [Hn _].
    split; [congruence|].
    unfold Executor.migrationsToRollback. apply list_elem_of_omap. eauto.
Qed.

(** C10.  For each of the three rollback operations, with [selection] the
    ledger entries it starts from: the run is the same as if the entries
    without a definition had not been selected; a ledger row whose name has
    no definition is still in the ledger afterwards, whatever the outcome;
    if no selected entry has a definition the operation returns success and
    changes nothing; and after a successful run no selected entry that has
    a definition is left in the ledger. *)
Theorem C10_rollback_skips_entries_without_definition {hs : Hasher}
    (migrationsPath : string) (root : DirEntry) (db : Database U)
    (allMigrations : list Migration)
    (run : Database U * option MigrationError) (selection : list Migration) :
  LoadMigrations migrationsPath root = inr allMigrations ->
  (exists limit,
      run = Manager.RollbackMigrations migrationsPath root db limit
      /\ selection = last_batch_selection db)
  \/ (exists steps,
        run = Manager.RollbackSteps migrationsPath root db steps
        /\ selection = Manager.steps_selection db steps)
  \/ (run = Manager.ResetAllMigrations migrationsPath root db
      /\ selection = reset_selection db) ->
  run = Executor.RollbackMigrations db
          (Executor.migrationsToRollback allMigrations
             (List.filter (has_definition allMigrations) selection)) 0
  /\ (forall r, r ∈ ledger db ->
                Executor.migrationsMap allMigrations !! row_migration r = None ->
                r ∈ ledger (fst run))
  /\ (Forall (fun e => Executor.migrationsMap allMigrations !! Name e = None)
             selection ->
      run = (db, None))
  /\ (snd run = None ->
      forall e, e ∈ selection ->
                is_Some (Executor.migrationsMap allMigrations !! Name e) ->
                Name e ∉ map row_migration (ledger (fst run))).
Proof.
  intros Hload Hop.
  assert (Hrun : run = Executor.rollback_each db
                         (Executor.migrationsToRollback allMigrations selection)).
  { destruct Hop as [(limit & -> & ->) | [(steps & -> & ->) | [-> ->]]].
    - apply Manager_RollbackMigrations_eq, Hload.
    - apply Manager_RollbackSteps_eq, Hload.
    - apply Manager_ResetAllMigrations_eq, Hload. }
  rewrite RollbackMigrations_all, Hrun.
  apply rollback_selection_skips.
Qed.

(** *** The table constraints are an invariant *)

Lemma NoDup_map_filter {A B} (f : A -> B) (p : A -> bool) (l : list A) :
  NoDup (map f l) -> NoDup (map f (List.filter p l)).
Proof.
  induction l as [|x l IH]; simpl; [auto|].
  intros Hnd. apply NoDup_cons in Hnd as [Hx Hnd].
  destruct (p x); simpl; [|auto].
  constructor; [|auto].
  intros Hin. apply Hx.
  apply list_elem_of_fmap in Hin as (y & -> & Hy).
  apply list_elem_of_fmap. exists y. split; [reflexivity|].
  apply list_elem_of_In, filter_In in Hy as [Hy _].
  apply list_elem_of_In, Hy.
Qed.

Lemma Forall_filter_keep {A} (P : A -> Prop) (p : A -> bool) (l : list A) :
  Forall P l -> Forall P (List.filter p l).
Proof.
  rewrite !Forall_forall. intros H x Hx. apply H.
  apply list_elem_of_In, filter_In in Hx as [Hx _]. apply list_elem_of_In, Hx.
Qed.

Lemma runSingleMigration_wf (db : Database U) (m : Migration) (batch : Z) :
  ledger_wf db -> ledger_wf (fst (Executor.runSingleMigration db m batch)).
Proof.
  intros Hwf.
  destruct (Executor.runSingleMigration db m batch) as [db' [e|]] eqn:Hrun.
  - apply runSingleMigration_failure in Hrun as ->. exact Hwf.
  - apply runSingleMigration_success in Hrun as (tx & _ & Hb & Hfresh & ->).
    destruct Hwf as (Hn & Hi & Hb' & Hlt). unfold ledger_wf. simpl.
    rewrite !map_app. simpl.
    split; [|split; [|split]].
    + apply NoDup_app. split; [exact Hn|]. split.
      * intros x Hx Hx'. apply list_elem_of_singleton in Hx' as ->. auto.
      * apply NoDup_singleton.
    + apply NoDup_app. split; [exact Hi|]. split.
      * intros x Hx Hx'. apply list_elem_of_singleton in Hx' as ->.
        apply list_elem_of_fmap in Hx as (r & Hr & Hin).
        rewrite Forall_forall in Hlt. specialize (Hlt r Hin). lia.
      * apply NoDup_singleton.
    + apply Forall_app. split; [exact Hb'|]. constructor; [exact Hb | constructor].
    + apply Forall_app. split.
      * eapply Forall_impl; [exact Hlt|]. intros r Hr. simpl in Hr. lia.
      * constructor; [simpl; lia | constructor].
Qed.

Lemma rollbackSingleMigration_wf (db : Database U) (m : Migration) :
  ledger_wf db -> ledger_wf (fst (Executor.rollbackSingleMigration db m)).
Proof.
  intros (Hn & Hi & Hb & Hlt). unfold Executor.rollbackSingleMigration.
  destruct (Executor.executeMigrationSQL _ _ _) as [e | tx]; simpl.
  - repeat split; assumption.
  - unfold ledger_wf. simpl.
    split; [apply NoDup_map_filter, Hn|].
    split; [apply NoDup_map_filter, Hi|].
    split; apply Forall_filter_keep; assumption.
Qed.

Lemma run_each_wf (ms : list Migration) (db : Database U) (batch : Z) :
  ledger_wf db -> ledger_wf (fst (Executor.run_each db ms batch)).
Proof.
  revert db. induction ms as [|m ms IH]; intros db Hwf; simpl; [exact Hwf|].
  pose proof (runSingleMigration_wf db m batch Hwf) as H1.
  destruct (Executor.runSingleMigration db m batch) as [db' [e|]];
    [exact H1 | apply IH, H1].
Qed.

Lemma rollback_each_wf (ms : list Migration) (db : Database U) :
  ledger_wf db -> ledger_wf (fst (Executor.rollback_each db ms)).
Proof.
  revert db. induction ms as [|m ms IH]; intros db Hwf; simpl; [exact Hwf|].
  pose proof (rollbackSingleMigration_wf db m Hwf) as H1.
  destruct (Executor.rollbackSingleMigration db m) as [db' [e|]];
    [exact H1 | apply IH, H1].
Qed.

(** Every operation of the manager keeps the ledger within the
    constraints of its table, whatever its outcome. *)
Lemma Manager_keeps_ledger_wf {hs : Hasher} (migrationsPath : string)
    (root : DirEntry) (db : Database U) (n : Z) :
  ledger_wf db ->
  ledger_wf (fst (Manager.RunMigrations migrationsPath root db n))
  /\ ledger_wf (fst (Manager.RollbackMigrations migrationsPath root db n))
  /\ ledger_wf (fst (Manager.RollbackSteps migrationsPath root db n))
  /\ ledger_wf (fst (Manager.ResetAllMigrations migrationsPath root db)).
Proof.
  intros Hwf.
  destruct (LoadMigrations migrationsPath root) as [e | all] eqn:Hload.
  - unfold Manager.RunMigrations, Manager.RollbackMigrations,
      Manager.RollbackSteps, Manager.ResetAllMigrations.
    rewrite Hload. simpl. auto.
  - rewrite (Manager_RollbackMigrations_eq _ _ _ _ _ Hload),
      (Manager_RollbackSteps_eq _ _ _ _ _ Hload),
      (Manager_ResetAllMigrations_eq _ _ _ _ Hload).
    split; [|auto using rollback_each_wf].
    unfold Manager.RunMigrations. rewrite Hload.
    destruct (Manager.verify_each db all); [exact Hwf|].
    unfold Executor.RunMigrations.
    destruct (Tracker.GetPendingMigrations db all); [exact Hwf|].
    apply run_each_wf, Hwf.
Qed.

End Engine.

(** ** Statement splitting (C2) *)

Section Statements.

Context {U : Type} {drv : PgDriver U}.

(** A failure of the statement loop carries the migration name and the
    1-based position of the failing fragment in the list it iterates. *)
Lemma exec_statements_error (statements : list string) (i : nat)
    (migrationName : string) (tx : U) (e : MigrationError) :
  Executor.exec_statements statements i migrationName tx = inl e ->
  exists (k : nat) (statement details : string),
    statements !! k = Some statement
    /\ e = NewMigrationError
             ("Failed to execute SQL statement "
              +:+ pretty (Z.of_nat (i + k) + 1))
             details migrationName.
Proof.
  revert i tx. induction statements as [|st rest IH]; intros i tx; simpl.
  - discriminate.
  - assert (Hskip : forall tx',
              Executor.exec_statements rest (S i) migrationName tx' = inl e ->
              exists (k : nat) (statement details : string),
                (st :: rest) !! k = Some statement
                /\ e = NewMigrationError
                         ("Failed to execute SQL statement "
                          +:+ pretty (Z.of_nat (i + k) + 1))
                         details migrationName).
    { intros tx' H. apply IH in H as (k & statement & details & Hk & ->).
      exists (S k), statement, details. split; [exact Hk|].
      replace (i + S k)%nat with (S i + k)%nat by lia. reflexivity. }
    destruct (is_empty (TrimSpace st)); [apply Hskip|].
    destruct (HasPrefix (TrimSpace st) "--"); [apply Hskip|].
    destruct (sql_exec (TrimSpace st) tx) as [err | tx'] eqn:Hx;
      [|apply Hskip].
    intros [= <-]. exists 0%nat, st, err. split; [reflexivity|].
    rewrite Nat.add_0_r. reflexivity.
Qed.

End Statements.

(** ** Further properties of the engine *)

Section EngineMore.

Context {U : Type} {drv : PgDriver U}.

(** *** A recorded migration verifies *)

(** After [runSingleMigration] succeeds, the ledger stores the checksum of
    the definition under its name: the definition passes [VerifyChecksum]
    and is no longer pending, while any definition of the same name with
    another checksum is refused. *)
Theorem recorded_migration_verifies (db db' : Database U) (m : Migration)
    (batch : Z) :
  Executor.runSingleMigration db m batch = (db', None) ->
  stored_checksum db' (Name m) = Some (Checksum m)
  /\ Tracker.VerifyChecksum db' m = None
  /\ (forall m', Name m' = Name m -> Checksum m' <> Checksum m ->
                 is_Some (Tracker.VerifyChecksum db' m'))
  /\ (forall allMigrations, m ∉ Tracker.GetPendingMigrations db' allMigrations).
Proof.
  intros Hrun.
  apply runSingleMigration_success in Hrun as (tx & _ & _ & Hfresh & ->).
  assert (Hst : stored_checksum
                  {| schema := tx;
                     ledger := ledger db ++ new_rows (next_id db) batch [m];
                     next_id := next_id db + 1 |} (Name m)
                = Some (Checksum m)).
  { unfold stored_checksum. cbn [ledger]. rewrite find_name_app.
    rewrite (proj2 (find_name_None (Name m) (ledger db)) Hfresh).
    simpl. rewrite String.eqb_refl. reflexivity. }
  split; [exact Hst|]. split; [|split].
  - apply VerifyChecksum_None. intros stored. rewrite Hst. congruence.
  - intros m' Hname Hsum. rewrite VerifyChecksum_spec, Hname, Hst.
    destruct (String.eqb_spec (Checksum m) (Checksum m')) as [E | NE];
      [congruence | eauto].
  - intros allMigrations Hin. apply pending_elem in Hin as [_ Hout].
    apply Hout. cbn [ledger]. rewrite map_app, elem_of_app. right.
    simpl. apply list_elem_of_here.
Qed.

(** *** What a failed run leaves behind *)

Lemma run_each_outcome (ms : list Migration) (db db' : Database U) (batch : Z)
    (res : option MigrationError) :
  Executor.run_each db ms batch = (db', res) ->
  exists applied rest,
    ms = applied ++ rest
    /\ ledger db' = ledger db ++ new_rows (next_id db) batch applied
    /\ next_id db' = next_id db + Z.of_nat (length applied)
    /\ exec_bodies (schema db) (up_bodies applied) = inr (schema db')
    /\ match res with
       | None => rest = []
       | Some err =>
           exists m rest', rest = m :: rest'
             /\ Executor.runSingleMigration db' m batch = (db', Some err)
       end.
Proof.
  revert db. induction ms as [|m ms IH]; intros db; simpl.
  - intros [= <- <-]. exists [], []. simpl. rewrite app_nil_r.
    repeat split; auto. lia.
  - destruct (Executor.runSingleMigration db m batch) as [db1 [e|]] eqn:H1.
    + intros [= <- <-].
      pose proof (runSingleMigration_failure _ _ _ _ _ H1) as ->.
      exists [], (m :: ms). simpl. rewrite app_nil_r.
      split; [reflexivity|]. split; [reflexivity|]. split; [lia|].
      split; [reflexivity|]. eauto.
    + intros Hrest.
      apply runSingleMigration_success in H1 as (tx & Hexec & _ & _ & ->).
      apply IH in Hrest as (applied & rest & -> & Hl & Hn & Hs & Hres).
      exists (m :: applied), rest. simpl in *. rewrite Hexec.
      split; [reflexivity|].
      split; [rewrite Hl, <- app_assoc; reflexivity|].
      split; [lia|]. split; [exact Hs | exact Hres].
Qed.

(** When [Executor.RunMigrations] returns an error, the migrations before
    the failing one stay applied (their rows are in the ledger, in the new
    batch, and their forward bodies were executed), the failing migration
    leaves the database as it was just before it started, and no later
    migration is touched. *)
Theorem failed_run_keeps_earlier_migrations (db db' : Database U)
    (pending : list Migration) (limit : Z) (err : MigrationError) :
  Executor.RunMigrations db pending limit = (db', Some err) ->
  exists applied failing rest,
    Executor.limit_to limit pending = applied ++ failing :: rest
    /\ ledger db'
       = ledger db
         ++ new_rows (next_id db) (wrap_int (Tracker.GetLastBatch db + 1)) applied
    /\ exec_bodies (schema db) (up_bodies applied) = inr (schema db')
    /\ Executor.runSingleMigration db' failing
         (wrap_int (Tracker.GetLastBatch db + 1)) = (db', Some err).
Proof.
  unfold Executor.RunMigrations. destruct pending as [|m0 ms0] eqn:E;
    [discriminate|]. rewrite <- E. intros Hrun.
  apply run_each_outcome in Hrun
    as (applied & rest & Hsplit & Hl & _ & Hs & (m & rest' & -> & Hfail)).
  exists applied, m, rest'. auto.
Qed.

(** *** Names must be distinct *)

(** A run cannot succeed when two of the migrations it is to apply share a
    name, or when one of them has a name already in the ledger: the
    [UNIQUE] constraint refuses the second row. *)
Theorem duplicate_name_fails_run (db : Database U) (pending : list Migration)
    (limit : Z) :
  ~ NoDup (map Name (Executor.limit_to limit pending))
  \/ (exists m, m ∈ Executor.limit_to limit pending
                /\ Name m ∈ map row_migration (ledger db)) ->
  exists err, snd (Executor.RunMigrations db pending limit) = Some err.
Proof.
  intros Hbad.
  destruct (Executor.RunMigrations db pending limit) as [db' [e|]] eqn:Hrun;
    [eauto|]. exfalso.
  unfold Executor.RunMigrations in Hrun. destruct pending as [|m0 ms0] eqn:E.
  - destruct Hbad as [Hnd | (m & Hm & _)].
    + apply Hnd. rewrite limit_to_nil. constructor.
    + rewrite limit_to_nil in Hm. inversion Hm.
  - rewrite <- E in *.
    apply run_each_success in Hrun as (_ & _ & _ & Hnd & Hfresh & _).
    destruct Hbad as [Hbad | (m & Hm & Hin)]; [auto|].
    rewrite Forall_forall in Hfresh. exact (Hfresh m Hm Hin).
Qed.

End EngineMore.

(** ** Order, limits and round trips *)

Section EngineRoundTrips.

Context {U : Type} {drv : PgDriver U} {hs : Hasher}.

#[local] Instance filename_le_total' : Total filename_le.
Proof. intros a b. unfold filename_le. apply total, _. Qed.
#[local] Instance filename_le_trans : Transitive filename_le.
Proof. intros a b c. unfold filename_le. apply transitivity. Qed.
#[local] Instance id_ge_total' : Total id_ge.
Proof. intros a b. unfold id_ge. lia. Qed.
#[local] Instance id_ge_trans : Transitive id_ge.
Proof. intros a b c. unfold id_ge. lia. Qed.

Lemma migrationsMap_snoc (all : list Migration) (a : Migration) :
  Executor.migrationsMap (all ++ [a])
  = <[Name a := a]> (Executor.migrationsMap all).
Proof. unfold Executor.migrationsMap. rewrite foldl_snoc. reflexivity. Qed.

Lemma migrationsMap_is_Some (all : list Migration) (k : string) :
  k ∈ map Name all -> is_Some (Executor.migrationsMap all !! k).
Proof.
  induction all as [|a all IH] using rev_ind; [intros H; inversion H|].
  rewrite migrationsMap_snoc, map_app, elem_of_app. simpl.
  destruct (decide (Name a = k)) as [<- | NE].
  - rewrite lookup_insert_eq. eauto.
  - rewrite lookup_insert_ne by assumption.
    intros [H | H]; [auto|]. apply list_elem_of_singleton in H. congruence.
Qed.


Lemma StronglySorted_filter {A} (R : relation A) (p : A -> bool) (l : list A) :
  StronglySorted R l -> StronglySorted R (List.filter p l).
Proof.
  induction 1 as [|x l Hs IH Hall]; simpl; [constructor|].
  destruct (p x); [|exact IH]. constructor; [exact IH|].
  apply Forall_filter_keep, Hall.
Qed.

Lemma StronglySorted_take {A} (R : relation A) (n : nat) (l : list A) :
  StronglySorted R l -> StronglySorted R (take n l).
Proof.
  intros Hs. revert n. induction Hs as [|x l Hs IH Hall]; intros [|n]; simpl;
    try constructor; [apply IH|].
  rewrite Forall_forall in *. intros y Hy. apply Hall.
  rewrite <- (take_drop n l). apply elem_of_app. left. exact Hy.
Qed.

Lemma LoadMigrations_sorted (migrationsPath : string) (root : DirEntry)
    (all : list Migration) :
  LoadMigrations migrationsPath root = inr all ->
  StronglySorted filename_le all.
Proof.
  unfold LoadMigrations. destruct (negb (IsDir root)); [discriminate|].
  destruct (WalkDir _ _) as [e | ms]; [discriminate|]. intros [= <-].
  apply StronglySorted_merge_sort; apply _.
Qed.

Lemma limit_to_take (limit : Z) (ms : list Migration) :
  exists n, Executor.limit_to limit ms = take n ms.
Proof.
  unfold Executor.limit_to. destruct (_ && _); [eauto|].
  exists (length ms). symmetry. apply take_ge. lia.
Qed.

(** *** Migrations are applied in file-name order *)

(** A successful [Manager.RunMigrations] applies the pending definitions in
    ascending file-name order: the pending list is sorted, the forward
    bodies were executed in that order, and the rows were inserted in that
    order with consecutive ids, all in batch [GetLastBatch + 1]. *)
Theorem apply_follows_filename_order (migrationsPath : string)
    (root : DirEntry) (db db' : Database U) (limit : Z)
    (allMigrations : list Migration) :
  ledger_wf db ->
  LoadMigrations migrationsPath root = inr allMigrations ->
  Manager.RunMigrations migrationsPath root db limit = (db', None) ->
  let applied :=
    Executor.limit_to limit (Tracker.GetPendingMigrations db allMigrations) in
  StronglySorted filename_le applied
  /\ exec_bodies (schema db) (up_bodies applied) = inr (schema db')
  /\ ledger db'
     = ledger db ++ new_rows (next_id db) (Tracker.GetLastBatch db + 1) applied.
Proof.
  intros Hwf Hload Hrun applied.
  assert (Hsorted : StronglySorted filename_le applied).
  { unfold applied.
    destruct (limit_to_take limit (Tracker.GetPendingMigrations db allMigrations))
      as [n ->].
    apply StronglySorted_take. rewrite pending_spec.
    apply StronglySorted_filter. eapply LoadMigrations_sorted, Hload. }
  split; [exact Hsorted|].
  unfold Manager.RunMigrations in Hrun. rewrite Hload in Hrun.
  destruct (Manager.verify_each db allMigrations); [discriminate|].
  unfold Executor.RunMigrations in Hrun. fold applied in Hrun.
  destruct (Tracker.GetPendingMigrations db allMigrations) as [|m0 ms0] eqn:E.
  - injection Hrun as <-. unfold applied. rewrite limit_to_nil. simpl.
    rewrite app_nil_r. auto.
  - pose proof (GetLastBatch_in_int4 db Hwf) as Hlast.
    apply in_int4_range in Hlast.
    rewrite wrap_int_small in Hrun by lia.
    apply run_each_success in Hrun as (Hl & _ & Hs & _). auto.
Qed.

(** *** A limited run leaves the rest pending *)

Lemma filter_filter_names (A B : list string) (l : list Migration) :
  List.filter (fun m => negb (bool_decide (Name m ∈ A ++ B))) l
  = List.filter (fun m => negb (bool_decide (Name m ∈ B)))
      (List.filter (fun m => negb (bool_decide (Name m ∈ A))) l).
Proof.
  induction l as [|m l IH]; [reflexivity|]. cbn [List.filter].
  destruct (decide (Name m ∈ A)) as [H1 | H1].
  - rewrite (bool_decide_eq_true_2 _ H1).
    rewrite (bool_decide_eq_true_2 (Name m ∈ A ++ B))
      by (apply elem_of_app; auto).
    cbn [negb]. exact IH.
  - rewrite (bool_decide_eq_false_2 _ H1). cbn [negb List.filter].
    destruct (decide (Name m ∈ B)) as [H2 | H2].
    + rewrite (bool_decide_eq_true_2 _ H2).
      rewrite (bool_decide_eq_true_2 (Name m ∈ A ++ B))
        by (apply elem_of_app; auto).
      cbn [negb]. exact IH.
    + rewrite (bool_decide_eq_false_2 _ H2).
      rewrite (bool_decide_eq_false_2 (Name m ∈ A ++ B))
        by (rewrite elem_of_app; tauto).
      cbn [negb]. f_equal. exact IH.
Qed.

Lemma filter_names_app (a b : list Migration) :
  (forall x, x ∈ map Name a -> x ∉ map Name b) ->
  List.filter (fun m => negb (bool_decide (Name m ∈ map Name a))) (a ++ b) = b.
Proof.
  intros Hsep. rewrite List.filter_app.
  rewrite (filter_nil_Forall _ a).
  - simpl. induction b as [|x l IH]; simpl; [reflexivity|].
    rewrite bool_decide_eq_false_2.
    + simpl. f_equal. apply IH. intros y Hy Hy'. apply (Hsep y Hy).
      simpl. apply list_elem_of_further, Hy'.
    + intros Hin. apply (Hsep _ Hin). simpl. apply list_elem_of_here.
  - apply Forall_forall. intros x Hx.
    rewrite bool_decide_eq_true_2; [reflexivity|].
    apply list_elem_of_fmap. eauto.
Qed.

Lemma filter_names_take_drop (n : nat) (ms : list Migration) :
  NoDup (map Name ms) ->
  List.filter (fun m => negb (bool_decide (Name m ∈ map Name (take n ms)))) ms
  = drop n ms.
Proof.
  intros Hnd.
  rewrite <- (take_drop n ms), map_app in Hnd.
  apply NoDup_app in Hnd as (_ & Hsep & _).
  pose proof (filter_names_app (take n ms) (drop n ms) Hsep) as H.
  rewrite take_drop in H. exact H.
Qed.

(** With distinct names, after a successful run under a limit, what is
    pending next is exactly what the limit cut off: the pending list was
    the applied migrations followed by the new pending list. *)
Theorem limited_run_leaves_rest_pending (migrationsPath : string)
    (root : DirEntry) (db db' : Database U) (limit : Z)
    (allMigrations : list Migration) :
  NoDup (map Name allMigrations) ->
  LoadMigrations migrationsPath root = inr allMigrations ->
  Manager.RunMigrations migrationsPath root db limit = (db', None) ->
  Tracker.GetPendingMigrations db allMigrations
  = Executor.limit_to limit (Tracker.GetPendingMigrations db allMigrations)
    ++ Tracker.GetPendingMigrations db' allMigrations.
Proof.
  intros Hnd Hload Hrun.
  set (pending := Tracker.GetPendingMigrations db allMigrations).
  assert (Hndp : NoDup (map Name pending)).
  { unfold pending. rewrite pending_spec. apply NoDup_map_filter, Hnd. }
  destruct (limit_to_take limit pending) as [n Hn]. rewrite Hn.
  assert (Hl : exists id batch,
             ledger db' = ledger db ++ new_rows id batch (take n pending)).
  { unfold Manager.RunMigrations in Hrun. rewrite Hload in Hrun.
    destruct (Manager.verify_each db allMigrations); [discriminate|].
    unfold Executor.RunMigrations in Hrun. fold pending in Hrun.
    destruct pending as [|m0 ms0] eqn:E.
    - injection Hrun as <-. exists 0, 0. rewrite take_nil. simpl.
      rewrite app_nil_r. reflexivity.
    - rewrite <- E in *. rewrite Hn in Hrun.
      apply run_each_success in Hrun as (Hl & _). eauto. }
  destruct Hl as (id & batch & Hl).
  assert (Hp' : Tracker.GetPendingMigrations db' allMigrations = drop n pending).
  { rewrite <- (filter_names_take_drop n pending Hndp).
    rewrite (pending_spec db' allMigrations), Hl, map_app, new_rows_names.
    set (B := map Name (take n pending)).
    unfold pending. rewrite (pending_spec db allMigrations).
    apply filter_filter_names. }
  rewrite Hp'. symmetry. apply take_drop.
Qed.

End EngineRoundTrips.

(** ** Undoing *)

Section Undo.

Context {U : Type} {drv : PgDriver U} {hs : Hasher}.

#[local] Instance id_ge_total'' : Total id_ge.
Proof. intros a b. unfold id_ge. lia. Qed.
#[local] Instance id_ge_trans' : Transitive id_ge.
Proof. intros a b c. unfold id_ge. lia. Qed.








Lemma without_names_all (ns : list string) (rows : list LedgerRow) :
  Forall (fun r => row_migration r ∈ ns) rows -> without_names ns rows = [].
Proof.
  intros H. unfold without_names. apply filter_nil_Forall.
  eapply Forall_impl; [exact H|]. intros r Hr. simpl.
  rewrite bool_decide_eq_true_2 by exact Hr. reflexivity.
Qed.


(** *** Rolling back the last batch undoes the last apply *)


(** *** Resetting empties the ledger *)

(** When every row of the ledger has a definition and the reverse bodies
    execute, [Manager.ResetAllMigrations] returns success with an empty
    ledger, having run the reverse bodies newest first. *)
Theorem reset_empties_ledger (migrationsPath : string) (root : DirEntry)
    (db : Database U) (allMigrations : list Migration) (tx : U) :
  LoadMigrations migrationsPath root = inr allMigrations ->
  Forall (fun r => is_Some (Executor.migrationsMap allMigrations
                              !! row_migration r)) (ledger db) ->
  let todo := Executor.migrationsToRollback allMigrations (reset_selection db) in
  exec_bodies (schema db) (down_bodies todo) = inr tx ->
  map Name todo = map Name (reset_selection db)
  /\ StronglySorted newest_first (reset_selection db)
  /\ Manager.ResetAllMigrations migrationsPath root db
     = ({| schema := tx; ledger := []; next_id := next_id db |}, None).
Proof.
  intros Hload Hdef todo Hexec.
  assert (Hperm : reset_selection db ≡ₚ Tracker.scan <$> ledger db)
    by apply applied_newest_first.
  assert (Hsel : Forall (fun e => is_Some (Executor.migrationsMap allMigrations
                                             !! Name e)) (reset_selection db)).
  { apply Forall_forall. intros e He. rewrite Hperm in He.
    apply list_elem_of_fmap in He as (r & -> & Hr).
    rewrite Forall_forall in Hdef. exact (Hdef r Hr). }
  destruct (migrationsToRollback_all_defined _ _ Hsel) as [_ Hnames].
  fold todo in Hnames.
  split; [exact Hnames|]. split; [apply applied_newest_first|].
  rewrite (Manager_ResetAllMigrations_eq _ _ _ _ Hload).
  fold todo. rewrite (rollback_each_run _ _ _ Hexec). f_equal. f_equal.
  apply without_names_all, Forall_forall. intros r Hr.
  rewrite Hnames. change (map Name (reset_selection db))
    with (Name <$> reset_selection db).
  rewrite Hperm, <- list_fmap_compose.
  apply list_elem_of_fmap. exists r. auto.
Qed.

(** *** Status *)

(** [GetMigrationStatus] returns one status per definition, in order; the
    definitions it reports as not executed are exactly the pending ones,
    and a definition reported as executed carries the batch of a ledger
    row of its name. *)
Theorem status_agrees_with_pending (db : Database U)
    (allMigrations : list Migration) :
  map status_Migration (GetMigrationStatus db allMigrations) = allMigrations
  /\ map status_Migration
       (List.filter (fun s => negb (Executed s))
                    (GetMigrationStatus db allMigrations))
     = Tracker.GetPendingMigrations db allMigrations
  /\ Forall (fun s =>
               Executed s = true ->
               exists r, r ∈ ledger db
                         /\ row_migration r = Name (status_Migration s)
                         /\ row_batch r = status_Batch s)
            (GetMigrationStatus db allMigrations).
Proof.
  unfold GetMigrationStatus.
  set (executedMap := Executor.migrationsMap (Tracker.GetExecutedMigrations db)).
  assert (Hsome : forall k,
             is_Some (executedMap !! k) <-> k ∈ map row_migration (ledger db)).
  { intros k. rewrite <- executed_names. split.
    - intros [e He]. apply migrationsMap_lookup in He as [<- He].
      apply list_elem_of_fmap. eauto.
    - apply migrationsMap_is_Some. }
  split; [|split].
  - induction allMigrations as [|m all IH]; simpl; [reflexivity|].
    rewrite IH. destruct (executedMap !! Name m); reflexivity.
  - rewrite pending_spec.
    induction allMigrations as [|m all IH]; simpl; [reflexivity|].
    destruct (executedMap !! Name m) as [e|] eqn:He; simpl.
    + rewrite bool_decide_eq_true_2 by (apply Hsome; eauto). simpl. exact IH.
    + rewrite bool_decide_eq_false_2.
      * simpl. f_equal. exact IH.
      * intros Hin. apply Hsome in Hin as [? Hin]. congruence.
  - apply Forall_forall. intros s Hs.
    apply list_elem_of_fmap in Hs as (m & -> & _).
    destruct (executedMap !! Name m) as [e|] eqn:He; simpl; [|discriminate].
    intros _. apply migrationsMap_lookup in He as [Hname He].
    unfold Tracker.GetExecutedMigrations in He.
    apply list_elem_of_fmap in He as (r & -> & Hr).
    rewrite merge_sort_Permutation in Hr. exists r. auto.
Qed.

End Undo.

(** ** More on strings *)

Lemma append_nil_r (s : string) : s +:+ "" = s.
Proof. induction s as [|a s IH]; [reflexivity|]. rewrite append_cons, IH. reflexivity. Qed.

Lemma append_assoc (a b c : string) : (a +:+ b) +:+ c = a +:+ (b +:+ c).
Proof.
  induction a as [|x a IH]; [reflexivity|]. rewrite !append_cons, IH. reflexivity.
Qed.

Lemma length_append (a b : string) :
  String.length (a +:+ b) = (String.length a + String.length b)%nat.
Proof.
  induction a as [|x a IH]; [reflexivity|]. rewrite append_cons. simpl.
  rewrite IH. reflexivity.
Qed.

Lemma rev_app_spec (s acc : string) :
  String.rev_app s acc = String.rev s +:+ acc.
Proof.
  unfold String.rev. revert acc.
  induction s as [|c s IH]; intros acc; simpl; [reflexivity|].
  rewrite (IH (String c acc)), (IH (String c "")), append_assoc. reflexivity.
Qed.

Lemma rev_cons (c : ascii) (s : string) :
  String.rev (String c s) = String.rev s +:+ String c "".
Proof. unfold String.rev at 1. simpl. apply rev_app_spec. Qed.

Lemma rev_append (a b : string) :
  String.rev (a +:+ b) = String.rev b +:+ String.rev a.
Proof.
  induction a as [|x a IH].
  - rewrite append_nil_l. symmetry. apply append_nil_r.
  - rewrite append_cons, !rev_cons, IH, append_assoc. reflexivity.
Qed.

Lemma rev_forallb (f : ascii -> bool) (s : string) :
  string_forallb f (String.rev s) = string_forallb f s.
Proof.
  induction s as [|c s IH]; [reflexivity|].
  rewrite rev_cons, string_forallb_app, IH. simpl.
  rewrite andb_true_r. apply andb_comm.
Qed.

Lemma prefix_append (p s : string) : String.prefix p (p +:+ s) = true.
Proof.
  induction p as [|c p IH]; [destruct s; reflexivity|].
  rewrite append_cons. simpl. destruct (ascii_dec c c); [exact IH | congruence].
Qed.

Lemma HasSuffix_append (s suffix : string) :
  HasSuffix (s +:+ suffix) suffix = true.
Proof. unfold HasSuffix. rewrite rev_append. apply prefix_append. Qed.

Lemma substring_append (a b : string) :
  substring 0 (String.length a) (a +:+ b) = a.
Proof.
  induction a as [|x a IH]; [destruct b; reflexivity|].
  rewrite append_cons. simpl. rewrite IH. reflexivity.
Qed.

Lemma length_substring (n : nat) (s : string) :
  (n <= String.length s)%nat -> String.length (substring 0 n s) = n.
Proof.
  revert s. induction n as [|n IH]; intros s Hn.
  - destruct s; reflexivity.
  - destruct s as [|c s]; simpl in *; [lia|]. rewrite IH by lia. reflexivity.
Qed.

Lemma TrimSuffix_append (s suffix : string) :
  TrimSuffix (s +:+ suffix) suffix = s.
Proof.
  unfold TrimSuffix. rewrite HasSuffix_append, length_append.
  replace (String.length s + String.length suffix - String.length suffix)%nat
    with (String.length s) by lia.
  apply substring_append.
Qed.

Lemma is_word_is_dot (c : ascii) : is_word c = true -> is_dot c = true.
Proof.
  destruct c as [[] [] [] [] [] [] [] []]; vm_compute; congruence.
Qed.

Lemma string_forallb_impl (f g : ascii -> bool) (s : string) :
  (forall c, f c = true -> g c = true) ->
  string_forallb f s = true -> string_forallb g s = true.
Proof.
  intros Hfg. induction s as [|c s IH]; [reflexivity|]. simpl.
  rewrite !andb_true_iff. intros [Hc Hs]. auto.
Qed.

(** ** File names, generated and parsed back *)

(** What the regular expression returns on a name that starts with a
    well-formed timestamp and an underscore. *)
Lemma match_migration_filename_value (y m d t label : string) :
  digits 4 y -> digits 2 m -> digits 2 d -> digits 6 t ->
  match_migration_filename
    (y +:+ "_" +:+ m +:+ "_" +:+ d +:+ "_" +:+ t +:+ "_" +:+ label)
  = if negb (is_empty label) && string_forallb is_dot label
    then Some (y +:+ "_" +:+ m +:+ "_" +:+ d +:+ "_" +:+ t, label)
    else None.
Proof.
  intros D1 D2 D3 D4. unfold match_migration_filename.
  rewrite (proj2 (take_digits_Some 4 _ y _) (conj eq_refl D1)).
  cbn [mbind option_bind].
  rewrite (proj2 (take_underscore_Some _ _) eq_refl).
  cbn [mbind option_bind].
  rewrite (proj2 (take_digits_Some 2 _ m _) (conj eq_refl D2)).
  cbn [mbind option_bind].
  rewrite (proj2 (take_underscore_Some _ _) eq_refl).
  cbn [mbind option_bind].
  rewrite (proj2 (take_digits_Some 2 _ d _) (conj eq_refl D3)).
  cbn [mbind option_bind].
  rewrite (proj2 (take_underscore_Some _ _) eq_refl).
  cbn [mbind option_bind].
  rewrite (proj2 (take_digits_Some 6 _ t _) (conj eq_refl D4)).
  cbn [mbind option_bind].
  rewrite (proj2 (take_underscore_Some _ _) eq_refl).
  cbn [mbind option_bind]. reflexivity.
Qed.

Section NamingRoundTrip.

Variable unicode_ToLower : string -> string.

(** A sanitized name passes [ValidateMigrationName] unless it is empty. *)
Theorem sanitized_name_is_valid (name : string) :
  ValidateMigrationName (SanitizeMigrationName unicode_ToLower name)
  = negb (is_empty (SanitizeMigrationName unicode_ToLower name)).
Proof.
  unfold ValidateMigrationName.
  destruct (is_empty (SanitizeMigrationName unicode_ToLower name));
    [reflexivity|]. apply Sanitize_is_word.
Qed.

(** The name of a file that starts with a well-formed timestamp and an
    underscore, parsed. *)
Lemma ParseMigrationFilename_timestamped (timestamp label : string) :
  timestamp_shape timestamp ->
  ParseMigrationFilename (timestamp +:+ "_" +:+ label +:+ ".sql")
  = if negb (is_empty label) && string_forallb is_dot label
    then (timestamp, label, true) else ("", "", false).
Proof.
  intros (y & m & d & t & -> & D1 & D2 & D3 & D4).
  unfold ParseMigrationFilename.
  replace ((y +:+ "_" +:+ m +:+ "_" +:+ d +:+ "_" +:+ t)
           +:+ "_" +:+ label +:+ ".sql")
    with ((y +:+ "_" +:+ m +:+ "_" +:+ d +:+ "_" +:+ t +:+ "_" +:+ label)
          +:+ ".sql")
    by (rewrite !append_assoc; reflexivity).
  rewrite TrimSuffix_append.
  rewrite (match_migration_filename_value y m d t label D1 D2 D3 D4).
  destruct (negb (is_empty label) && string_forallb is_dot label); reflexivity.
Qed.

(** The file name [GenerateMigrationFilename] builds from a well-formed
    timestamp parses back to that timestamp and the sanitized name; it is
    accepted by [ParseMigrationFilename] exactly when the sanitized name is
    not empty. *)
Theorem generated_filename_parses_back (timestamp name : string) :
  timestamp_shape timestamp ->
  let sanitized := SanitizeMigrationName unicode_ToLower name in
  ParseMigrationFilename
    (GenerateMigrationFilename unicode_ToLower timestamp name)
  = if is_empty sanitized then ("", "", false)
    else (timestamp, sanitized, true).
Proof.
  intros Hts sanitized.
  unfold GenerateMigrationFilename. fold sanitized.
  rewrite (ParseMigrationFilename_timestamped timestamp sanitized Hts).
  rewrite (string_forallb_impl is_word is_dot sanitized is_word_is_dot)
    by apply Sanitize_is_word.
  destruct (is_empty sanitized); reflexivity.
Qed.

End NamingRoundTrip.

(** ** [utils.Truncate] *)

(** [Truncate] panics exactly for a negative bound on a string that does
    not fit; otherwise the result is at most [maxLength] bytes long, is
    the string itself when that fits, and has exactly [maxLength] bytes
    when it does not. *)
Theorem Truncate_bounds (s : string) (maxLength : Z) :
  (Truncate s maxLength = None <-> maxLength < 0)
  /\ (forall r, Truncate s maxLength = Some r ->
        Z.of_nat (String.length r) <= maxLength
        /\ (Z.of_nat (String.length s) <= maxLength -> r = s)
        /\ (maxLength < Z.of_nat (String.length s) ->
            Z.of_nat (String.length r) = maxLength)
        /\ (3 < maxLength < Z.of_nat (String.length s) ->
            HasSuffix r "..." = true)).
Proof.
  unfold Truncate.
  destruct (Z.leb_spec (Z.of_nat (String.length s)) maxLength) as [Hfit | Hbig].
  - split; [split; [discriminate | lia]|].
    intros r [= <-]. repeat split; auto; lia.
  - destruct (Z.leb_spec maxLength 3) as [H3 | H3].
    + destruct (Z.ltb_spec maxLength 0) as [Hneg | Hpos].
      * split; [tauto | discriminate].
      * split; [split; [discriminate | lia]|].
        intros r [= <-]. rewrite length_substring by lia.
        repeat split; try lia.
    + split; [split; [discriminate | lia]|].
      intros r [= <-]. rewrite length_append, length_substring by lia.
      simpl. repeat split; try lia. intros _. apply HasSuffix_append.
Qed.

(** ** Splitting and joining *)

Lemma Split_go_nonempty (sep : ascii) (cur s : string) :
  Split_go sep cur s <> [].
Proof.
  revert cur. induction s as [|c s IH]; intros cur; simpl; [discriminate|].
  destruct (Ascii.eqb c sep); [discriminate | apply IH].
Qed.

Lemma Split_go_append (sep : ascii) (cur a b : string) :
  Split_go sep cur (a +:+ String sep b)
  = Split_go sep cur a ++ Split_go sep "" b.
Proof.
  revert cur. induction a as [|c a IH]; intros cur.
  - rewrite append_nil_l. simpl. rewrite Ascii.eqb_refl. reflexivity.
  - rewrite append_cons. simpl. destruct (Ascii.eqb c sep).
    + rewrite IH. reflexivity.
    + apply IH.
Qed.

(** [strings.Split] of two texts joined by the separator. *)
Lemma Split_append (sep : ascii) (a b : string) :
  Split (a +:+ String sep b) sep = Split a sep ++ Split b sep.
Proof. apply Split_go_append. Qed.

Lemma Join_Split_go (sep : ascii) (cur s : string) :
  Join (Split_go sep cur s) (String sep "") = String.rev cur +:+ s.
Proof.
  unfold Join. revert cur. induction s as [|c s IH]; intros cur; simpl.
  - symmetry. apply append_nil_r.
  - destruct (Ascii.eqb_spec c sep) as [-> | Hne].
    + pose proof (Split_go_nonempty sep "" s) as Hn.
      specialize (IH "").
      destruct (Split_go sep "" s) as [|x xs]; [congruence|].
      change (String.concat (String sep "") (String.rev cur :: x :: xs))
        with (String.rev cur +:+ String sep ""
              +:+ String.concat (String sep "") (x :: xs)).
      rewrite IH. reflexivity.
    + rewrite IH, rev_cons, append_assoc. reflexivity.
Qed.

(** [strings.Join] undoes [strings.Split]. *)
Lemma Join_Split (sep : ascii) (s : string) :
  Join (Split s sep) (String sep "") = s.
Proof. apply (Join_Split_go sep "" s). Qed.

Lemma Split_go_no_sep (sep : ascii) (cur s : string) :
  string_forallb (fun c => negb (Ascii.eqb c sep)) cur = true ->
  Forall (fun piece => string_forallb (fun c => negb (Ascii.eqb c sep)) piece
                       = true)
         (Split_go sep cur s).
Proof.
  revert cur. induction s as [|c s IH]; intros cur Hcur; simpl.
  - constructor; [rewrite rev_forallb; exact Hcur | constructor].
  - destruct (Ascii.eqb c sep) eqn:Hc.
    + constructor; [rewrite rev_forallb; exact Hcur | apply IH; reflexivity].
    + apply IH. simpl. rewrite Hc, Hcur. reflexivity.
Qed.

(** ** Trimming keeps what is left *)

Lemma strip_prefix_forallb (f : ascii -> bool) (p s rest : string) :
  strip_prefix p s = Some rest ->
  string_forallb f s = true -> string_forallb f rest = true.
Proof.
  revert s. induction p as [|a p IH]; intros s; simpl.
  - intros [= <-]. auto.
  - destruct s as [|b s]; [discriminate|].
    destruct (Ascii.eqb a b); [|discriminate].
    intros H Hs. simpl in Hs. apply andb_true_iff in Hs as [_ Hs]. eauto.
Qed.

Lemma trim_left_forallb (f : ascii -> bool) (fuel : nat) (runes : list string)
    (s : string) :
  string_forallb f s = true -> string_forallb f (trim_left fuel runes s) = true.
Proof.
  revert s. induction fuel as [|fuel IH]; intros s Hs; simpl; [exact Hs|].
  destruct (strip_one runes s) as [rest|] eqn:H1; [|exact Hs].
  apply IH. clear IH.
  induction runes as [|r runes IHr]; simpl in H1; [discriminate|].
  destruct (strip_prefix r s) as [rest'|] eqn:H2.
  - injection H1 as <-. eapply strip_prefix_forallb; eassumption.
  - auto.
Qed.

Lemma TrimSpace_forallb (f : ascii -> bool) (s : string) :
  string_forallb f s = true -> string_forallb f (TrimSpace s) = true.
Proof.
  intros Hs. unfold TrimSpace, TrimRightSpace, TrimLeftSpace.
  rewrite rev_forallb. apply trim_left_forallb.
  rewrite rev_forallb. apply trim_left_forallb, Hs.
Qed.

(** ** What reaches the server *)

Section StatementsSent.

Context {U : Type} {drv : PgDriver U}.

Lemma exec_statements_run (statements : list string) (i : nat)
    (migrationName : string) (tx : U) :
  same_outcome migrationName
    (Executor.exec_statements statements i migrationName tx)
    (run_statements
       (List.filter (fun st => negb (is_empty st) && negb (HasPrefix st "--"))
                    (map TrimSpace statements)) tx).
Proof.
  revert i tx. induction statements as [|st rest IH]; intros i tx; simpl.
  - reflexivity.
  - destruct (is_empty (TrimSpace st)); simpl; [apply IH|].
    destruct (HasPrefix (TrimSpace st) "--"); simpl; [apply IH|].
    destruct (sql_exec (TrimSpace st) tx) as [err | tx']; [|apply IH].
    simpl. auto.
Qed.

(** [executeMigrationSQL] behaves as running [statements_to_run] of the
    body in order, stopping at the first failure; and no statement it sends
    is empty, contains a semicolon, or starts with [--].  In particular a
    body that is blank, or made of comment fragments only, sends nothing. *)
Theorem statements_sent_to_server (tx : U) (sql migrationName : string) :
  same_outcome migrationName
    (Executor.executeMigrationSQL tx sql migrationName)
    (run_statements (statements_to_run sql) tx)
  /\ Forall (fun st => st <> ""
                       /\ string_forallb no_semicolon st = true
                       /\ HasPrefix st "--" = false)
            (statements_to_run sql).
Proof.
  unfold Executor.executeMigrationSQL, statements_to_run. split.
  - destruct (is_empty (TrimSpace sql)); [reflexivity|]. apply exec_statements_run.
  - destruct (is_empty (TrimSpace sql)); [constructor|].
    apply Forall_forall. intros st Hst.
    apply list_elem_of_In, filter_In in Hst as [Hin Hkeep].
    apply andb_true_iff in Hkeep as [Hne Hpre].
    apply negb_true_iff in Hne, Hpre.
    split; [intros ->; discriminate|]. split; [|exact Hpre].
    apply in_map_iff in Hin as (st0 & <- & Hin0).
    apply TrimSpace_forallb.
    unfold Executor.splitSQLStatements in Hin0.
    apply filter_In in Hin0 as [Hin0 _].
    apply in_map_iff in Hin0 as (piece & <- & Hpiece).
    apply TrimSpace_forallb.
    pose proof (Split_go_no_sep ";" "" (TrimSpace sql) eq_refl) as Hall.
    rewrite Forall_forall in Hall. apply Hall, list_elem_of_In, Hpiece.
Qed.

End StatementsSent.

(** ** The file format, parsed *)

Lemma parse_lines_marker_free (lines rest : list string) (cur : section_tag)
    (up down : list string) :
  forallb (fun line =>
             negb (Contains (TrimSpace line) "-- +migrate Up")
             && negb (Contains (TrimSpace line) "-- +migrate Down")) lines
  = true ->
  parse_lines (lines ++ rest) cur up down
  = parse_lines rest cur
      (up ++ match cur with SectionUp => lines | _ => [] end)
      (down ++ match cur with SectionDown => lines | _ => [] end).
Proof.
  revert up down. induction lines as [|line lines IH]; intros up down Hfree.
  - simpl. destruct cur; rewrite !app_nil_r; reflexivity.
  - simpl in Hfree. apply andb_true_iff in Hfree as [Hline Hfree].
    apply andb_true_iff in Hline as [Hu Hd].
    apply negb_true_iff in Hu, Hd.
    simpl. rewrite Hu, Hd.
    destruct cur; rewrite (IH _ _ Hfree); rewrite <- ?app_assoc; reflexivity.
Qed.

Lemma single_append (c : ascii) (s : string) :
  String c "" +:+ s = String c s.
Proof. reflexivity. Qed.

(** The lines of a file of the format. *)
Lemma Split_format (header up down : string) :
  Split (header +:+ bytes [10] +:+ "-- +migrate Up" +:+ bytes [10] +:+ up
         +:+ bytes [10] +:+ "-- +migrate Down" +:+ bytes [10] +:+ down)
        "010"
  = Split header "010"
    ++ "-- +migrate Up" :: Split up "010"
    ++ "-- +migrate Down" :: Split down "010".
Proof.
  change (bytes [10]) with (String "010"%char "").
  rewrite !single_append.
  rewrite (Split_append "010" header).
  rewrite (Split_append "010" "-- +migrate Up").
  rewrite (Split_append "010" up).
  rewrite (Split_append "010" "-- +migrate Down").
  reflexivity.
Qed.

(** The loop of [parseMigrationContent] on such lines. *)
Lemma parse_lines_sections (header up down : list string) :
  let free := forallb (fun line =>
                negb (Contains (TrimSpace line) "-- +migrate Up")
                && negb (Contains (TrimSpace line) "-- +migrate Down")) in
  free header = true -> free up = true -> free down = true ->
  parse_lines (header ++ "-- +migrate Up" :: up ++ "-- +migrate Down" :: down)
              SectionNone [] []
  = (up, down).
Proof.
  intros free Hh Hu Hd.
  assert (Hup : forall rest u d,
             parse_lines ("-- +migrate Up" :: rest) SectionNone u d
             = parse_lines rest SectionUp u d) by reflexivity.
  assert (Hdown : forall rest u d,
             parse_lines ("-- +migrate Down" :: rest) SectionUp u d
             = parse_lines rest SectionDown u d) by reflexivity.
  rewrite (parse_lines_marker_free _ _ _ _ _ Hh), Hup.
  rewrite (parse_lines_marker_free _ _ _ _ _ Hu), Hdown.
  rewrite <- (app_nil_r down).
  rewrite (parse_lines_marker_free _ _ _ _ _ Hd).
  cbn [parse_lines app]. rewrite !app_nil_r. reflexivity.
Qed.

(** A file laid out as the format prescribes (a header, the Up marker
    line, the forward body, the Down marker line, the reverse body) parses
    back to exactly its two bodies, whatever the header holds, provided no
    line of the three parts mentions a marker.  A file without any marker
    line parses to two empty bodies. *)
Theorem file_format_parses_back (header up down : string) :
  marker_free header = true -> marker_free up = true ->
  marker_free down = true ->
  parseMigrationContent
    (header +:+ bytes [10] +:+ "-- +migrate Up" +:+ bytes [10] +:+ up
     +:+ bytes [10] +:+ "-- +migrate Down" +:+ bytes [10] +:+ down)
  = (up, down)
  /\ parseMigrationContent header = ("", "").
Proof.
  unfold marker_free. intros Hh Hu Hd. unfold parseMigrationContent. split.
  - rewrite Split_format, (parse_lines_sections _ _ _ Hh Hu Hd).
    change (bytes [10]) with (String "010"%char "").
    rewrite !(Join_Split "010"). reflexivity.
  - rewrite <- (app_nil_r (Split header "010")).
    rewrite (parse_lines_marker_free _ _ _ _ _ Hh). reflexivity.
Qed.

(** ** Plural table names *)

Lemma HasSuffix_s_append (x suffix : string) :
  HasSuffix suffix "s" = true -> HasSuffix (x +:+ suffix) "s" = true.
Proof.
  unfold HasSuffix. rewrite rev_append.
  change (String.rev "s") with "s".
  destruct (String.rev suffix) as [|c r]; [intros H; cbn in H; discriminate H|].
  rewrite append_cons. cbn [String.prefix].
  destruct (ascii_dec "s" c); [|intros H; discriminate H].
  intros _. destruct (r +:+ String.rev x); reflexivity.
Qed.

Section PluralFacts.

Variable unicode_ToLower : string -> string.

Lemma Pluralize_plural (word : string) :
  word <> "" ->
  HasSuffix (Pluralize unicode_ToLower word) "s" = true
  \/ Pluralize unicode_ToLower word ∈ irregular_plurals.
Proof.
  intros Hne. unfold Pluralize.
  destruct word as [|c w]; [congruence|]. cbn [is_empty].
  set (lower := ToLower unicode_ToLower (String c w)).
  destruct (specialCases !! lower) as [plural|] eqn:Hsp.
  - right. apply elem_of_list_to_map_2 in Hsp.
    unfold irregular_plurals.
    repeat (apply elem_of_cons in Hsp as [[= _ <-] | Hsp];
            [set_solver|]).
    inversion Hsp.
  - left.
    repeat match goal with
           | |- context [if ?b then _ else _] => destruct b
           end; apply HasSuffix_s_append; reflexivity.
Qed.

(** The table name [extractTableNameFromCreate] derives from a migration
    name is plural in form: it ends in [s] or is one of the six irregular
    plurals, unless nothing is left of the name between [create_] and
    [_table], in which case it is empty. *)
Theorem table_name_is_plural (name : string) :
  let tableName := extractTableNameFromCreate unicode_ToLower name in
  (TrimSuffix (TrimPrefix name "create_") "_table" = "" -> tableName = "")
  /\ (TrimSuffix (TrimPrefix name "create_") "_table" <> "" ->
      HasSuffix tableName "s" = true \/ tableName ∈ irregular_plurals).
Proof.
  unfold extractTableNameFromCreate.
  set (stem := TrimSuffix (TrimPrefix name "create_") "_table").
  cbv zeta. split.
  - intros ->. reflexivity.
  - intros Hne. destruct (HasSuffix stem "s") eqn:Hs; simpl.
    + left. exact Hs.
    + apply Pluralize_plural, Hne.
Qed.

End PluralFacts.

(** ** [utils.RemoveDuplicates] *)

Lemma RemoveDuplicates_loop_spec (slice : list string)
    (keys : gmap string bool) (result : list string) :
  (forall k, default false (keys !! k) = true <-> k ∈ result) ->
  NoDup result ->
  NoDup (RemoveDuplicates_loop slice keys result)
  /\ (forall x, x ∈ RemoveDuplicates_loop slice keys result
                <-> x ∈ result \/ x ∈ slice)
  /\ exists kept, RemoveDuplicates_loop slice keys result = result ++ kept
                  /\ kept `sublist_of` slice.
Proof.
  revert keys result. induction slice as [|item rest IH];
    intros keys result Hinv Hnd; simpl.
  - split; [exact Hnd|]. split.
    + intros x. rewrite elem_of_nil. tauto.
    + exists []. rewrite app_nil_r. split; [reflexivity | constructor].
  - destruct (default false (keys !! item)) eqn:Hk; simpl.
    + apply Hinv in Hk.
      destruct (IH keys result Hinv Hnd) as (H1 & H2 & kept & H3 & H4).
      split; [exact H1|]. split.
      * intros x. rewrite H2, elem_of_cons. split; [tauto|].
        intros [H | [-> | H]]; auto.
      * exists kept. split; [exact H3 | apply sublist_cons, H4].
    + assert (Hout : item ∉ result).
      { intros Hin. apply Hinv in Hin. congruence. }
      destruct (IH (<[item := true]> keys) (result ++ [item]))
        as (H1 & H2 & kept & H3 & H4).
      * intros k. rewrite elem_of_app, list_elem_of_singleton.
        destruct (decide (item = k)) as [<- | NE].
        -- rewrite lookup_insert_eq. simpl. tauto.
        -- rewrite lookup_insert_ne by assumption. rewrite Hinv.
           split; [auto | intros [H | H]; [exact H | congruence]].
      * apply NoDup_app. split; [exact Hnd|]. split; [|apply NoDup_singleton].
        intros x Hx Hx'. apply list_elem_of_singleton in Hx' as ->. auto.
      * split; [exact H1|]. split.
        -- intros x. rewrite H2, elem_of_app, list_elem_of_singleton,
             elem_of_cons. tauto.
        -- exists (item :: kept). rewrite H3, <- app_assoc.
           split; [reflexivity | apply sublist_skip, H4].
Qed.

Lemma RemoveDuplicates_loop_NoDup (slice : list string)
    (keys : gmap string bool) (result : list string) :
  (forall k, default false (keys !! k) = true <-> k ∈ result) ->
  NoDup (result ++ slice) ->
  RemoveDuplicates_loop slice keys result = result ++ slice.
Proof.
  revert keys result. induction slice as [|item rest IH];
    intros keys result Hinv Hnd; simpl.
  - rewrite app_nil_r. reflexivity.
  - assert (Hout : item ∉ result).
    { apply NoDup_app in Hnd as (_ & Hsep & _). intros Hin.
      apply (Hsep item Hin), list_elem_of_here. }
    destruct (default false (keys !! item)) eqn:Hk.
    + apply Hinv in Hk. contradiction.
    + simpl. rewrite (IH (<[item := true]> keys) (result ++ [item])).
      * rewrite <- app_assoc. reflexivity.
      * intros k. rewrite elem_of_app, list_elem_of_singleton.
        destruct (decide (item = k)) as [<- | NE].
        -- rewrite lookup_insert_eq. simpl. tauto.
        -- rewrite lookup_insert_ne by assumption. rewrite Hinv.
           split; [auto | intros [H | H]; [exact H | congruence]].
      * rewrite <- app_assoc. exact Hnd.
Qed.

(** [RemoveDuplicates] returns a list without repetition that has the
    same elements as its argument and keeps their order (it is a sublist
    of the argument); a list without repetition is returned as it is, so
    applying the function twice changes nothing more. *)
Theorem RemoveDuplicates_correct (slice : list string) :
  NoDup (RemoveDuplicates slice)
  /\ (forall x, x ∈ RemoveDuplicates slice <-> x ∈ slice)
  /\ RemoveDuplicates slice `sublist_of` slice
  /\ (NoDup slice -> RemoveDuplicates slice = slice)
  /\ RemoveDuplicates (RemoveDuplicates slice) = RemoveDuplicates slice.
Proof.
  assert (Hinv : forall k, default false ((∅ : gmap string bool) !! k) = true
                           <-> k ∈ ([] : list string)).
  { intros k. rewrite lookup_empty, elem_of_nil. simpl. split; [discriminate | tauto]. }
  assert (Hfix : forall l, NoDup l -> RemoveDuplicates l = l).
  { intros l Hl. unfold RemoveDuplicates.
    rewrite (RemoveDuplicates_loop_NoDup l ∅ [] Hinv); [reflexivity | exact Hl]. }
  destruct (RemoveDuplicates_loop_spec slice ∅ [] Hinv (NoDup_nil_2))
    as (H1 & H2 & kept & H3 & H4).
  fold (RemoveDuplicates slice) in H1, H2, H3.
  split; [exact H1|]. split.
  - intros x. rewrite H2, elem_of_nil. tauto.
  - split; [rewrite H3; exact H4|]. split; [apply Hfix | apply Hfix, H1].
Qed.

(** ** What a loaded definition looks like *)

Lemma match_migration_filename_Some (s ts label : string) :
  match_migration_filename s = Some (ts, label) ->
  s = ts +:+ "_" +:+ label /\ timestamp_shape ts /\ label <> "".
Proof.
  unfold match_migration_filename, timestamp_shape. intros H.
  destruct (take_digits 4 s) as [[y s1]|] eqn:H1; cbn [mbind option_bind] in H;
    [|discriminate H].
  destruct (take_underscore s1) as [s1'|] eqn:U1; cbn [mbind option_bind] in H;
    [|discriminate H].
  destruct (take_digits 2 s1') as [[m s2]|] eqn:H2; cbn [mbind option_bind] in H;
    [|discriminate H].
  destruct (take_underscore s2) as [s2'|] eqn:U2; cbn [mbind option_bind] in H;
    [|discriminate H].
  destruct (take_digits 2 s2') as [[d s3]|] eqn:H3; cbn [mbind option_bind] in H;
    [|discriminate H].
  destruct (take_underscore s3) as [s3'|] eqn:U3; cbn [mbind option_bind] in H;
    [|discriminate H].
  destruct (take_digits 6 s3') as [[t s4]|] eqn:H4; cbn [mbind option_bind] in H;
    [|discriminate H].
  destruct (take_underscore s4) as [lab|] eqn:U4; cbn [mbind option_bind] in H;
    [|discriminate H].
  destruct (negb (is_empty lab) && string_forallb is_dot lab) eqn:Hl;
    [|discriminate H].
  injection H as <- <-.
  apply andb_true_iff in Hl as [Hne _].
  apply take_digits_Some in H1 as (-> & D1), H2 as (-> & D2),
    H3 as (-> & D3), H4 as (-> & D4).
  apply take_underscore_Some in U1 as ->, U2 as ->, U3 as ->, U4 as ->.
  split; [rewrite !append_assoc; reflexivity|].
  split; [exists y, m, d, t; auto|].
  intros ->. discriminate.
Qed.

Section Loaded.

Context {hs : Hasher}.

(** What holds of a definition that came out of [loadMigrationFile]. *)
Lemma loadMigrationFile_inr (path content : string) (m : Migration) :
  loadMigrationFile path content = inr m ->
  Filepath m = path
  /\ Filename m = after_last_slash path
  /\ Checksum m = sha256_hex content
  /\ (UpSQL m, DownSQL m) = parseMigrationContent content
  /\ exists ts, TrimSuffix (Filename m) ".sql" = ts +:+ "_" +:+ Name m
                /\ timestamp_shape ts /\ Name m <> "".
Proof.
  unfold loadMigrationFile, ParseMigrationFilename.
  destruct (match_migration_filename
              (TrimSuffix (after_last_slash path) ".sql"))
    as [[ts nm]|] eqn:Hm; simpl; [|discriminate].
  destruct (parseMigrationContent content) as [up down].
  intros [= <-]. simpl. repeat split; auto.
  apply match_migration_filename_Some in Hm as (Hs & Hts & Hne). eauto.
Qed.

Lemma WalkDir_Forall (P : Migration -> Prop) (calls : list (string * DirEntry))
    (acc out : list Migration) :
  (forall path content m,
      HasSuffix path ".sql" = true ->
      loadMigrationFile path content = inr m -> P m) ->
  Forall P acc -> WalkDir calls acc = inr out -> Forall P out.
Proof.
  intros HP. revert acc. induction calls as [|[path d] calls IH];
    intros acc Hacc; simpl.
  - intros [= <-]. exact Hacc.
  - destruct d as [n content | n es]; simpl; [|apply IH, Hacc].
    destruct (HasSuffix path ".sql") eqn:Hs; simpl; [|apply IH, Hacc].
    destruct (loadMigrationFile path content) as [e | m] eqn:Hl; [discriminate|].
    apply IH. apply Forall_app. split; [exact Hacc|].
    constructor; [eapply HP; eassumption | constructor].
Qed.

(** Every definition [LoadMigrations] returns comes from a file whose path
    ends in [.sql]; its [Filename] is the last component of that path and
    reads [<timestamp>_<Name>.sql] with a well-formed timestamp: the [Name]
    is the label alone, without the timestamp, and is never empty. *)
Theorem loaded_definition_name_is_label (migrationsPath : string)
    (root : DirEntry) (allMigrations : list Migration) :
  LoadMigrations migrationsPath root = inr allMigrations ->
  Forall (fun m =>
            HasSuffix (Filepath m) ".sql" = true
            /\ Filename m = after_last_slash (Filepath m)
            /\ exists ts, TrimSuffix (Filename m) ".sql" = ts +:+ "_" +:+ Name m
                          /\ timestamp_shape ts /\ Name m <> "")
         allMigrations.
Proof.
  unfold LoadMigrations. destruct (negb (IsDir root)); [discriminate|].
  destruct (WalkDir (walk migrationsPath root) []) as [e | ms] eqn:HW;
    [discriminate|]. intros [= <-].
  rewrite merge_sort_Permutation.
  eapply WalkDir_Forall; [|constructor | exact HW].
  intros path content m Hs Hl.
  apply loadMigrationFile_inr in Hl as (-> & Hf & _ & _ & Hname).
  rewrite Hf at 1. auto.
Qed.

End Loaded.

(** ** What a failed rollback leaves behind *)

Section RollbackFailure.

Context {U : Type} {drv : PgDriver U}.

Lemma rollback_each_outcome (ms : list Migration) (db db' : Database U)
    (res : option MigrationError) :
  Executor.rollback_each db ms = (db', res) ->
  exists reverted rest,
    ms = reverted ++ rest
    /\ ledger db' = without_names (map Name reverted) (ledger db)
    /\ exec_bodies (schema db) (down_bodies reverted) = inr (schema db')
    /\ match res with
       | None => rest = []
       | Some err =>
           exists m rest', rest = m :: rest'
             /\ Executor.rollbackSingleMigration db' m = (db', Some err)
       end.
Proof.
  revert db. induction ms as [|m ms IH]; intros db; simpl.
  - intros [= <- <-]. exists [], []. simpl. rewrite without_names_nil. auto.
  - destruct (Executor.rollbackSingleMigration db m) as [db1 [e|]] eqn:H1.
    + intros [= <- <-].
      pose proof (rollbackSingleMigration_failure _ _ _ _ H1) as ->.
      exists [], (m :: ms). simpl. rewrite without_names_nil.
      split; [reflexivity|]. split; [reflexivity|].
      split; [reflexivity|]. eauto.
    + intros Hrest.
      apply rollbackSingleMigration_success in H1 as (tx & Hexec & ->).
      apply IH in Hrest as (reverted & rest & -> & Hl & Hs & Hres).
      exists (m :: reverted), rest. simpl in *. rewrite Hexec.
      split; [reflexivity|]. split; [|split; [exact Hs | exact Hres]].
      rewrite Hl, (without_names_cons (Name m) (map Name reverted)).
      rewrite without_names_cons, without_names_nil. reflexivity.
Qed.

(** When [Executor.RollbackMigrations] returns an error, the migrations
    before the failing one stay reverted (their rows are gone and their
    reverse bodies were executed), the failing migration leaves the
    database as it was just before it started, its row included, and no
    later migration is touched. *)
Theorem failed_rollback_keeps_earlier_reverts (db db' : Database U)
    (migrations : list Migration) (limit : Z) (err : MigrationError) :
  Executor.RollbackMigrations db migrations limit = (db', Some err) ->
  exists reverted failing rest,
    Executor.limit_to limit migrations = reverted ++ failing :: rest
    /\ ledger db' = without_names (map Name reverted) (ledger db)
    /\ exec_bodies (schema db) (down_bodies reverted) = inr (schema db')
    /\ Executor.rollbackSingleMigration db' failing = (db', Some err).
Proof.
  unfold Executor.RollbackMigrations. destruct migrations as [|m0 ms0] eqn:E;
    [discriminate|]. rewrite <- E. intros Hrun.
  apply rollback_each_outcome in Hrun
    as (reverted & rest & Hsplit & Hl & Hs & (m & rest' & -> & Hfail)).
  exists reverted, m, rest'. auto.
Qed.

End RollbackFailure.


(** ** Generated files, loaded back *)

Lemma prefix_forallb (f : ascii -> bool) (p s : string) :
  String.prefix p s = true ->
  string_forallb f s = true -> string_forallb f p = true.
Proof.
  revert s. induction p as [|a p IH]; intros s; [reflexivity|].
  destruct s as [|b s]; cbn [String.prefix]; [intros H; discriminate H|].
  destruct (ascii_dec a b) as [->|]; [|intros H; discriminate H].
  cbn [string_forallb]. rewrite !andb_true_iff. intros Hp [Hb Hs].
  split; [exact Hb | exact (IH _ Hp Hs)].
Qed.

Lemma Contains_forallb (f : ascii -> bool) (s sub : string) :
  Contains s sub = true ->
  string_forallb f s = true -> string_forallb f sub = true.
Proof.
  induction s as [|c s IH]; cbn [Contains]; rewrite orb_true_iff.
  - intros [Hp | Hf] Hs; [exact (prefix_forallb f _ _ Hp Hs) | discriminate Hf].
  - intros [Hp | Hc] Hs; [exact (prefix_forallb f _ _ Hp Hs)|].
    cbn [string_forallb] in Hs. apply andb_true_iff in Hs as [_ Hs]. auto.
Qed.

Lemma Split_go_forallb (f : ascii -> bool) (sep : ascii) (cur s : string) :
  string_forallb f cur = true -> string_forallb f s = true ->
  Forall (fun piece => string_forallb f piece = true) (Split_go sep cur s).
Proof.
  revert cur. induction s as [|c s IH]; intros cur Hcur Hs; cbn [Split_go].
  - constructor; [|constructor]. rewrite rev_forallb. exact Hcur.
  - cbn [string_forallb] in Hs. apply andb_true_iff in Hs as [Hc Hs].
    destruct (Ascii.eqb c sep).
    + constructor; [rewrite rev_forallb; exact Hcur|]. apply IH; auto.
    + apply IH; [|exact Hs]. cbn [string_forallb]. rewrite Hc, Hcur. reflexivity.
Qed.

(** Text without a plus sign has no marker line. *)
Lemma plus_free_marker_free (text : string) :
  string_forallb plus_free text = true -> marker_free text = true.
Proof.
  intros Hfree. unfold marker_free. apply forallb_forall. intros line Hin.
  assert (Hline : string_forallb plus_free (TrimSpace line) = true).
  { apply TrimSpace_forallb.
    pose proof (Split_go_forallb plus_free "010" "" text eq_refl Hfree) as Hall.
    rewrite Forall_forall in Hall. apply Hall, list_elem_of_In, Hin. }
  apply andb_true_iff. split; apply negb_true_iff.
  - destruct (Contains (TrimSpace line) "-- +migrate Up") eqn:E; [|reflexivity].
    pose proof (Contains_forallb plus_free _ _ E Hline) as Hbad.
    vm_compute in Hbad. discriminate Hbad.
  - destruct (Contains (TrimSpace line) "-- +migrate Down") eqn:E; [|reflexivity].
    pose proof (Contains_forallb plus_free _ _ E Hline) as Hbad.
    vm_compute in Hbad. discriminate Hbad.
Qed.

Lemma is_word_plus_free (c : ascii) : is_word c = true -> plus_free c = true.
Proof.
  destruct c as [[] [] [] [] [] [] [] []]; vm_compute; congruence.
Qed.

Lemma clock_byte_plus_free (c : ascii) : clock_byte c = true -> plus_free c = true.
Proof.
  destruct c as [[] [] [] [] [] [] [] []]; vm_compute; congruence.
Qed.

Lemma is_word_ascii (c : ascii) : is_word c = true -> is_ascii_byte c = true.
Proof.
  destruct c as [[] [] [] [] [] [] [] []]; vm_compute; congruence.
Qed.

Lemma ascii_lower_is_word (c : ascii) :
  is_word c = true -> is_word (ascii_lower c) = true.
Proof.
  destruct c as [[] [] [] [] [] [] [] []]; vm_compute; congruence.
Qed.

Lemma string_map_forallb (f : ascii -> bool) (g : ascii -> ascii) (s : string) :
  (forall c, f c = true -> f (g c) = true) ->
  string_forallb f s = true -> string_forallb f (string_map g s) = true.
Proof.
  intros Hfg. induction s as [|c s IH]; [reflexivity|].
  cbn [string_forallb string_map]. rewrite !andb_true_iff.
  intros [Hc Hs]. auto.
Qed.

Lemma substring_forallb (f : ascii -> bool) (n : nat) (s : string) :
  string_forallb f s = true -> string_forallb f (substring 0 n s) = true.
Proof.
  revert s. induction n as [|n IH]; intros s Hs.
  - destruct s; reflexivity.
  - destruct s as [|c s]; [reflexivity|].
    cbn [string_forallb] in Hs. apply andb_true_iff in Hs as [Hc Hs].
    cbn [substring string_forallb]. rewrite Hc. exact (IH _ Hs).
Qed.

Section GeneratedFiles.

Variable unicode_ToLower : string -> string.

Lemma ToLower_is_word (s : string) :
  string_forallb is_word s = true ->
  string_forallb is_word (ToLower unicode_ToLower s) = true.
Proof.
  intros Hs. unfold ToLower.
  rewrite (string_forallb_impl is_word is_ascii_byte s is_word_ascii Hs).
  apply string_map_forallb; [exact ascii_lower_is_word | exact Hs].
Qed.

Lemma Pluralize_is_word (word : string) :
  string_forallb is_word word = true ->
  string_forallb is_word (Pluralize unicode_ToLower word) = true.
Proof.
  intros Hw. unfold Pluralize. destruct (is_empty word); [reflexivity|].
  pose proof (ToLower_is_word word Hw) as Hl.
  set (lower := ToLower unicode_ToLower word) in *.
  destruct (specialCases !! lower) as [plural|] eqn:Hsp.
  - apply elem_of_list_to_map_2 in Hsp.
    repeat (apply elem_of_cons in Hsp as [[= _ ->] | Hsp]; [reflexivity|]).
    inversion Hsp.
  - unfold drop_last.
    repeat match goal with
           | |- context [if ?b then _ else _] => destruct b
           end;
      rewrite string_forallb_app, ?substring_forallb by exact Hl;
      rewrite ?Hl; reflexivity.
Qed.

Lemma TrimSuffix_forallb (f : ascii -> bool) (s suffix : string) :
  string_forallb f s = true -> string_forallb f (TrimSuffix s suffix) = true.
Proof.
  intros Hs. unfold TrimSuffix. destruct (HasSuffix s suffix); [|exact Hs].
  apply substring_forallb, Hs.
Qed.

Lemma extractTableNameFromCreate_is_word (name : string) :
  string_forallb is_word name = true ->
  string_forallb is_word (extractTableNameFromCreate unicode_ToLower name) = true.
Proof.
  intros Hn. unfold extractTableNameFromCreate.
  assert (Ht : string_forallb is_word
                 (TrimSuffix (TrimPrefix name "create_") "_table") = true).
  { apply TrimSuffix_forallb. unfold TrimPrefix.
    destruct (strip_prefix "create_" name) as [rest|] eqn:E; [|exact Hn].
    exact (strip_prefix_forallb _ _ _ _ E Hn). }
  destruct (negb _); [apply Pluralize_is_word|]; exact Ht.
Qed.

Lemma template_bodies_plus_free (name : string) :
  string_forallb is_word name = true ->
  string_forallb plus_free (fst (template_bodies unicode_ToLower name)) = true
  /\ string_forallb plus_free (snd (template_bodies unicode_ToLower name)) = true.
Proof.
  intros Hn. unfold template_bodies.
  destruct (HasPrefix name "create_").
  - pose proof (string_forallb_impl is_word plus_free _ is_word_plus_free
                  (extractTableNameFromCreate_is_word name Hn)) as Ht.
    set (tableName := extractTableNameFromCreate unicode_ToLower name) in *.
    unfold generateCreateTableSQL. cbn [fst snd].
    rewrite !string_forallb_app, !Ht. split; reflexivity.
  - destruct (HasPrefix name "add_"); [split; reflexivity|].
    destruct (HasPrefix name "drop_"); split; reflexivity.
Qed.

Lemma generated_name_is_word (timestamp label : string) :
  string_forallb is_word
    (fst (GenerateMigration unicode_ToLower timestamp label)) = true.
Proof.
  unfold GenerateMigration. cbn [fst].
  destruct (ValidateMigrationName label) eqn:Hv; cbn [negb].
  - unfold ValidateMigrationName in Hv.
    destruct (is_empty label); [discriminate Hv | exact Hv].
  - apply Sanitize_is_word.
Qed.

(** What [GenerateMigration] writes, read by the loader.  For every label,
    the file written under the generated name loads back unless the name
    sanitizes to nothing, in which case the loader rejects the file name.
    The loaded definition is named by the sanitized name (which differs
    from the name the generator reports when that is not in snake case),
    its forward body is the template's followed by a line break, its
    reverse body the template's.  Left unedited, every template other than
    the [create_] one holds no statement in either direction. *)
Theorem generated_file_loads_back {hs : Hasher}
    (timestamp created label filepath : string) :
  timestamp_shape timestamp ->
  string_forallb clock_byte created = true ->
  let name := fst (GenerateMigration unicode_ToLower timestamp label) in
  let filename := snd (GenerateMigration unicode_ToLower timestamp label) in
  let content := generateMigrationContent unicode_ToLower created name in
  let bodies := template_bodies unicode_ToLower name in
  after_last_slash filepath = filename ->
  loadMigrationFile filepath content
  = (if is_empty (SanitizeMigrationName unicode_ToLower name)
     then inl (NewValidationError "Invalid migration filename" filename)
     else inr {| ID := 0;
                 Name := SanitizeMigrationName unicode_ToLower name;
                 Filename := filename; Filepath := filepath; Batch := 0;
                 Checksum := calculateChecksum content;
                 UpSQL := fst bodies +:+ bytes [10];
                 DownSQL := snd bodies |})
  /\ (HasPrefix name "create_" = false ->
      statements_to_run (fst bodies +:+ bytes [10]) = []
      /\ statements_to_run (snd bodies) = []).
Proof.
  intros Hts Hclock name filename content bodies Hpath.
  pose proof (generated_name_is_word timestamp label) as Hword.
  fold name in Hword.
  split.
  - unfold loadMigrationFile. rewrite Hpath.
    change filename
      with (GenerateMigrationFilename unicode_ToLower timestamp name).
    unfold GenerateMigrationFilename.
    rewrite (ParseMigrationFilename_timestamped timestamp _ Hts).
    rewrite (string_forallb_impl is_word is_dot _ is_word_is_dot)
      by apply Sanitize_is_word.
    destruct (is_empty (SanitizeMigrationName unicode_ToLower name));
      [reflexivity|].
    cbn [negb andb].
    assert (Hparse : parseMigrationContent content
                     = (fst bodies +:+ bytes [10], snd bodies)).
    { destruct (template_bodies_plus_free name Hword) as [Hup Hdown].
      fold bodies in Hup, Hdown.
      unfold content, generateMigrationContent. fold bodies.
      destruct bodies as [upSQL downSQL]. cbn [fst snd] in *.
      pose proof (string_forallb_impl is_word plus_free _ is_word_plus_free
                    Hword) as Hn.
      pose proof (string_forallb_impl clock_byte plus_free _
                    clock_byte_plus_free Hclock) as Hc.
      set (header := "-- Migration: " +:+ name +:+ bytes [10]
                     +:+ "-- Created: " +:+ created +:+ bytes [10]
                     +:+ "-- Batch: 1" +:+ bytes [10]).
      assert (Hh : marker_free header = true).
      { apply plus_free_marker_free. unfold header.
        rewrite !string_forallb_app, Hn, Hc. reflexivity. }
      assert (Hu : marker_free (upSQL +:+ bytes [10]) = true).
      { apply plus_free_marker_free.
        rewrite string_forallb_app, Hup. reflexivity. }
      assert (Hd : marker_free downSQL = true)
        by (apply plus_free_marker_free, Hdown).
      replace ("-- Migration: " +:+ name +:+ "
-- Created: " +:+ created +:+ "
-- Batch: 1

-- +migrate Up
" +:+ upSQL +:+ "

-- +migrate Down
" +:+ downSQL)
        with (header +:+ bytes [10] +:+ "-- +migrate Up" +:+ bytes [10]
              +:+ (upSQL +:+ bytes [10]) +:+ bytes [10]
              +:+ "-- +migrate Down" +:+ bytes [10] +:+ downSQL)
        by (unfold header; rewrite !append_assoc; reflexivity).
      unfold parseMigrationContent, marker_free in *.
      rewrite Split_format, (parse_lines_sections _ _ _ Hh Hu Hd).
      change (bytes [10]) with (String "010"%char "").
      rewrite !(Join_Split "010"). reflexivity. }
    rewrite Hparse. reflexivity.
  - intros Hcreate. unfold bodies, template_bodies. rewrite Hcreate.
    destruct (HasPrefix name "add_"); [split; vm_compute; reflexivity|].
    destruct (HasPrefix name "drop_"); split; vm_compute; reflexivity.
Qed.

End GeneratedFiles.


(** ** The shape of a snake-cased name *)

Lemma rev_rev (s : string) : String.rev (String.rev s) = s.
Proof.
  induction s as [|c s IH]; [reflexivity|].
  rewrite rev_cons, rev_append, IH. reflexivity.
Qed.

Lemma length_rev (s : string) : String.length (String.rev s) = String.length s.
Proof.
  induction s as [|c s IH]; [reflexivity|].
  rewrite rev_cons, length_append, IH. simpl. lia.
Qed.

Lemma prefix_iff (p s : string) :
  String.prefix p s = true <-> exists b, s = p +:+ b.
Proof.
  split; [|intros [b ->]; apply prefix_append].
  revert s. induction p as [|a p IH]; intros s.
  - intros _. exists s. reflexivity.
  - destruct s as [|c s]; cbn [String.prefix]; [intros H; discriminate H|].
    destruct (ascii_dec a c) as [->|]; [|intros H; discriminate H].
    intros H. destruct (IH _ H) as [b ->]. exists b. reflexivity.
Qed.

Lemma Contains_unfold (s sub : string) :
  Contains s sub
  = String.prefix sub s
    || match s with EmptyString => false | String _ s' => Contains s' sub end.
Proof. destruct s; reflexivity. Qed.

(** [Contains] finds exactly the substrings. *)
Lemma Contains_iff (s sub : string) :
  Contains s sub = true <-> exists a b, s = a +:+ sub +:+ b.
Proof.
  split.
  - induction s as [|c s IH]; rewrite Contains_unfold, orb_true_iff.
    + intros [Hp | Hf]; [|discriminate Hf].
      apply prefix_iff in Hp as [b Hb]. exists "", b. exact Hb.
    + intros [Hp | Hc].
      * apply prefix_iff in Hp as [b Hb]. exists "", b. exact Hb.
      * destruct (IH Hc) as (a & b & ->). exists (String c a), b. reflexivity.
  - intros (a & b & ->). induction a as [|c a IH].
    + rewrite append_nil_l, Contains_unfold, prefix_append. reflexivity.
    + rewrite append_cons, Contains_unfold, IH. apply orb_true_r.
Qed.

Lemma Contains_part (pre s post sub : string) :
  Contains (pre +:+ s +:+ post) sub = false -> Contains s sub = false.
Proof.
  intros Hno. destruct (Contains s sub) eqn:E; [|reflexivity].
  apply Contains_iff in E as (a & b & ->).
  rewrite <- Hno. symmetry. apply Contains_iff.
  exists (pre +:+ a), (b +:+ post). rewrite !append_assoc. reflexivity.
Qed.

Lemma strip_one_underscore (s : string) :
  strip_one ["_"] s
  = match s with
    | String c rest => if Ascii.eqb "_" c then Some rest else None
    | EmptyString => None
    end.
Proof.
  destruct s as [|c rest]; [reflexivity|].
  cbn [strip_one strip_prefix]. destruct (Ascii.eqb "_" c); reflexivity.
Qed.

(** [length s] rounds strip every leading underscore; what is left is the
    end of [s]. *)
Lemma trim_left_underscores (fuel : nat) (s : string) :
  (String.length s <= fuel)%nat ->
  HasPrefix (trim_left fuel ["_"] s) "_" = false
  /\ exists pre, s = pre +:+ trim_left fuel ["_"] s.
Proof.
  revert s. induction fuel as [|fuel IH]; intros s Hlen.
  - destruct s; [|simpl in Hlen; lia]. split; [reflexivity|]. exists "". reflexivity.
  - cbn [trim_left]. rewrite strip_one_underscore.
    destruct s as [|c rest]; [split; [reflexivity | exists ""; reflexivity]|].
    destruct (Ascii.eqb "_" c) eqn:E.
    + apply Ascii.eqb_eq in E as <-.
      destruct (IH rest) as (Hp & pre & Hpre); [simpl in Hlen; lia|].
      split; [exact Hp|]. exists (String "_" pre).
      rewrite append_cons, <- Hpre. reflexivity.
    + split; [|exists ""; reflexivity].
      unfold HasPrefix. cbn [String.prefix].
      destruct (ascii_dec "_" c) as [<-|]; [|reflexivity].
      rewrite Ascii.eqb_refl in E. discriminate E.
Qed.

Lemma squeeze_underscores_forallb (f : ascii -> bool) (s : string) :
  string_forallb f s = true ->
  string_forallb f (squeeze_underscores s) = true.
Proof.
  induction s as [|a s IH]; [reflexivity|].
  cbn [string_forallb]. rewrite andb_true_iff. intros [Ha Hs].
  specialize (IH Hs). cbn [squeeze_underscores].
  destruct (Ascii.eqb a "_").
  - destruct s as [|b r]; [cbn [string_forallb]; rewrite Ha; reflexivity|].
    destruct (Ascii.eqb b "_"); [exact IH|].
    cbn [string_forallb]. rewrite Ha. exact IH.
  - cbn [string_forallb]. rewrite Ha. exact IH.
Qed.

Lemma squeeze_underscores_head (s : string) :
  HasPrefix (squeeze_underscores s) "_" = true -> HasPrefix s "_" = true.
Proof.
  destruct s as [|a s]; [intros H; exact H|].
  unfold HasPrefix. cbn [squeeze_underscores String.prefix].
  destruct (ascii_dec "_" a) as [<-|Hne].
  - intros _. destruct s; reflexivity.
  - destruct (Ascii.eqb a "_") eqn:E;
      [apply Ascii.eqb_eq in E; congruence|].
    cbn [String.prefix]. destruct (ascii_dec "_" a); [congruence|].
    intros H; exact H.
Qed.

Lemma squeeze_underscores_single (s : string) :
  Contains (squeeze_underscores s) "__" = false.
Proof.
  induction s as [|a s IH]; [reflexivity|].
  cbn [squeeze_underscores].
  destruct (Ascii.eqb a "_") eqn:Ea.
  - apply Ascii.eqb_eq in Ea as ->.
    destruct s as [|b r]; [reflexivity|].
    destruct (Ascii.eqb b "_") eqn:Eb; [exact IH|].
    rewrite Contains_unfold, IH, orb_false_r.
    cbn [String.prefix]. destruct (ascii_dec "_" "_"); [|reflexivity].
    destruct (String.prefix "_" (squeeze_underscores (String b r))) eqn:Hp;
      [|reflexivity].
    apply squeeze_underscores_head in Hp.
    unfold HasPrefix in Hp. cbn [String.prefix] in Hp.
    destruct (ascii_dec "_" b) as [<-|]; [|discriminate Hp].
    rewrite Ascii.eqb_refl in Eb. discriminate Eb.
  - rewrite Contains_unfold, IH, orb_false_r.
    cbn [String.prefix]. destruct (ascii_dec "_" a) as [<-|]; [|reflexivity].
    rewrite Ascii.eqb_refl in Ea. discriminate Ea.
Qed.

Lemma replace_bytes_forallb (s : string) :
  string_forallb (fun c => negb (Ascii.eqb c " ") && negb (Ascii.eqb c "-"))
                 (replace_byte "-" "_" (replace_byte " " "_" s)) = true.
Proof.
  induction s as [|c s IH]; [reflexivity|].
  unfold replace_byte in *. cbn [string_map string_forallb]. rewrite IH.
  rewrite andb_true_r.
  destruct c as [[] [] [] [] [] [] [] []]; reflexivity.
Qed.

Section SnakeCase.

Variable unicode_ToLower : string -> string.

(** [ToSnakeCase] does what its comments say, whatever the input: the
    result neither starts nor ends with an underscore, has no two
    underscores in a row, and holds neither a space nor a hyphen. *)
Theorem ToSnakeCase_shape (s : string) :
  let snake := ToSnakeCase unicode_ToLower s in
  HasPrefix snake "_" = false
  /\ HasSuffix snake "_" = false
  /\ Contains snake "__" = false
  /\ string_forallb (fun c => negb (Ascii.eqb c " ") && negb (Ascii.eqb c "-"))
                    snake = true.
Proof.
  unfold ToSnakeCase. destruct (is_empty s); [repeat split; reflexivity|].
  set (lowered := ToLower unicode_ToLower (split_camel s)).
  set (squeezed := squeeze_underscores
                     (replace_byte "-" "_" (replace_byte " " "_" lowered))).
  unfold trim_underscores. cbv zeta.
  set (l := trim_left (String.length squeezed) ["_"] squeezed).
  set (r := trim_left (String.length l) ["_"] (String.rev l)).
  destruct (trim_left_underscores (String.length squeezed) squeezed)
    as (Hl & pre & Hpre); [lia|]. fold l in Hl, Hpre.
  destruct (trim_left_underscores (String.length l) (String.rev l))
    as (Hr & post & Hpost); [rewrite length_rev; lia|]. fold r in Hr, Hpost.
  assert (Hlr : l = String.rev r +:+ String.rev post).
  { rewrite <- rev_append, <- Hpost, rev_rev. reflexivity. }
  split; [|split; [|split]].
  - unfold HasPrefix in *. rewrite Hlr in Hl.
    destruct (String.rev r) as [|c t]; [reflexivity|].
    rewrite append_cons in Hl. cbn [String.prefix] in *.
    destruct (ascii_dec "_" c); [|reflexivity].
    exfalso. destruct (t +:+ String.rev post); discriminate Hl.
  - unfold HasSuffix. rewrite rev_rev. exact Hr.
  - apply (Contains_part pre _ (String.rev post)).
    rewrite <- Hlr, <- Hpre. apply squeeze_underscores_single.
  - rewrite rev_forallb. apply trim_left_forallb. rewrite rev_forallb.
    apply trim_left_forallb, squeeze_underscores_forallb, replace_bytes_forallb.
Qed.

End SnakeCase.

(** ** Worked runs *)

#[local] Existing Instance log_driver.
#[local] Existing Instance plain_hasher.

(** C2, where the code departs from it.  The forward body the generator
    itself writes for [create_products_table] splits into two fragments.
    The second is not comment-only: it is a comment line followed by
    [CREATE INDEX].  Its trimmed text starts with [--], so the loop passes
    over it: the run succeeds having executed [CREATE TABLE] alone. *)
Theorem C2_statement_after_comment_line_is_dropped :
  Executor.splitSQLStatements (TrimSpace create_products_up)
    = [create_products_stmt; create_index_fragment]
  /\ comment_only create_index_fragment = false
  /\ HasPrefix (TrimSpace create_index_fragment) "--" = true
  /\ Executor.executeMigrationSQL [] create_products_up "create_products_table"
     = inr [create_products_stmt].
Proof. repeat split; vm_compute; reflexivity. Qed.

Example exec_error_index :
  Executor.executeMigrationSQL [] "-- c; A;; FAIL x; B" "m"
  = inl (NewMigrationError "Failed to execute SQL statement 3"
           "ERROR: syntax error (SQLSTATE 42601)" "m").
Proof. vm_compute. reflexivity. Qed.

(** C3 as stated does not hold: a migration file in a subdirectory is
    loaded, while a walk that ignores subdirectories finds nothing. *)
Lemma C3_counterexample_subdirectory_is_walked :
  LoadMigrations "migrations" nested_tree
    = inr [ {| ID := 0; Name := "old";
               Filename := "2024_01_01_000001_old.sql";
               Filepath := "migrations/archive/2024_01_01_000001_old.sql";
               Batch := 0;
               Checksum := migration_file "SELECT 1;" "SELECT 2;";
               UpSQL := "SELECT 1;"; DownSQL := "SELECT 2;" |} ]
  /\ discover_non_recursive "migrations" nested_tree = inr []
  /\ LoadMigrations "migrations" nested_tree
     <> discover_non_recursive "migrations" nested_tree.
Proof.
  split; [vm_compute; reflexivity|]. split; [vm_compute; reflexivity|].
  vm_compute. discriminate.
Qed.

(** C7 as stated does not hold for [n = 0]: the 0 most recent entries are
    none, yet [RollbackSteps 0] reverts every applied migration. *)
Lemma C7_counterexample_zero_steps_reverts_all :
  most_recent applied_db 0 = []
  /\ ledger applied_db <> []
  /\ Manager.RollbackSteps "migrations" sample_tree applied_db 0
     = ({| schema := ["CREATE TABLE a (id INT)"; "CREATE TABLE b (id INT)";
                      "DROP TABLE b"; "DROP TABLE a"];
           ledger := [];
           next_id := 3 |}, None).
Proof.
  split; [vm_compute; reflexivity|].
  split; [vm_compute; discriminate | vm_compute; reflexivity].
Qed.

(** ** The theorems at concrete inputs *)

(** [sample_tree] loads. *)
Lemma sample_loads :
  LoadMigrations "migrations" sample_tree = inr (definitions_of sample_tree).
Proof. vm_compute. reflexivity. Defined.

(** The database after the first run satisfies the table constraints. *)
Lemma applied_db_wf : ledger_wf applied_db.
Proof.
  unfold ledger_wf.
  repeat split; apply (bool_decide_unpack _); vm_compute; exact I.
Defined.

(** C1 at [edited_tree]: the forward body of [a] was edited after it was
    applied; the next apply fails and [c] is not executed. *)
Lemma C1_witness :
  LoadMigrations "migrations" edited_tree = inr (definitions_of edited_tree)
  /\ exists bad badstored,
       Manager.RunMigrations "migrations" edited_tree applied_db 0
       = (applied_db,
          Some (NewValidationError
                  ("Migration " +:+ Name bad +:+ " has been modified")
                  ("stored checksum: " +:+ badstored
                   +:+ ", current checksum: " +:+ Checksum bad))).
Proof.
  assert (Hload : LoadMigrations "migrations" edited_tree
                  = inr (definitions_of edited_tree))
    by (vm_compute; reflexivity).
  split; [exact Hload|].
  destruct (C1_fingerprints_checked_before_apply
              "migrations" edited_tree applied_db 0 _ Hload) as (_ & H & _).
  destruct (H {| ID := 0; Name := "a";
                 Filename := "2025_01_01_000001_a.sql";
                 Filepath := "migrations/2025_01_01_000001_a.sql";
                 Batch := 0;
                 Checksum := migration_file "CREATE TABLE a (id BIGINT);"
                                            "DROP TABLE a;";
                 UpSQL := "CREATE TABLE a (id BIGINT);";
                 DownSQL := "DROP TABLE a;" |}
              (migration_file "CREATE TABLE a (id INT);" "DROP TABLE a;"))
    as (pre & bad & post & badstored & _ & _ & _ & _ & Hrun).
  - vm_compute. apply list_elem_of_here.
  - vm_compute. reflexivity.
  - vm_compute. discriminate.
  - exists bad, badstored. exact Hrun.
Defined.

(** C3 at [sample_tree]. *)
Lemma C3_witness :
  IsDir sample_tree = true
  /\ Forall call_ok (walk "migrations" sample_tree)
  /\ exists migrations,
       LoadMigrations "migrations" sample_tree = inr migrations
       /\ Sorted filename_le migrations.
Proof.
  assert (Hok : Forall call_ok (walk "migrations" sample_tree)).
  { repeat (constructor;
            [unfold call_ok;
             first [ left; vm_compute; reflexivity
                   | right; left; vm_compute; reflexivity
                   | right; right; vm_compute; reflexivity ] |]).
    constructor. }
  split; [reflexivity|]. split; [exact Hok|].
  destruct (C3_discovery_walks_tree_and_sorts "migrations" sample_tree
              eq_refl Hok) as (migrations & loaded & Hl & Hs & _).
  exists migrations. split; assumption.
Defined.

(** C4 at [grown_tree] with limit 2 on a ledger whose last batch is 1. *)
Lemma C4_witness :
  ledger_wf applied_db
  /\ Tracker.GetLastBatch
       (fst (Manager.RunMigrations "migrations" grown_tree applied_db 2))
     = Tracker.GetLastBatch applied_db + 1.
Proof.
  split; [exact applied_db_wf|].
  destruct (C4_last_batch_increases_by_one applied_db applied_db_wf)
    as (_ & _ & _ & H).
  apply (H "migrations" grown_tree (definitions_of grown_tree) 2).
  - vm_compute. reflexivity.
  - vm_compute. discriminate.
  - vm_compute. reflexivity.
Defined.

(** C5 at [sample_tree], from an empty database. *)
Lemma C5_witness :
  Manager.RunMigrations "migrations" sample_tree empty_db 0 = (applied_db, None)
  /\ Manager.RunMigrations "migrations" sample_tree applied_db 0
     = (applied_db, None).
Proof.
  assert (Hrun : Manager.RunMigrations "migrations" sample_tree empty_db 0
                 = (applied_db, None)) by (vm_compute; reflexivity).
  split; [exact Hrun|].
  destruct (C5_apply_twice_applies_nothing "migrations" sample_tree
              empty_db applied_db Hrun) as (all & _ & _ & _ & H).
  exact H.
Defined.

(** C6: [b] is reverted before [a]. *)
Lemma C6_witness :
  LoadMigrations "migrations" sample_tree = inr (definitions_of sample_tree)
  /\ ledger_wf applied_db
  /\ Manager.RollbackMigrations "migrations" sample_tree applied_db 0
     = ({| schema := ["CREATE TABLE a (id INT)"; "CREATE TABLE b (id INT)";
                      "DROP TABLE b"; "DROP TABLE a"];
           ledger := [];
           next_id := 3 |}, None).
Proof.
  split; [exact sample_loads|]. split; [exact applied_db_wf|].
  destruct (C6_rollback_last_batch "migrations" sample_tree applied_db
              (definitions_of sample_tree) sample_loads applied_db_wf)
    as (_ & _ & _ & H & _).
  rewrite (H ltac:(vm_compute; discriminate) 0
             ["CREATE TABLE a (id INT)"; "CREATE TABLE b (id INT)";
              "DROP TABLE b"; "DROP TABLE a"]
             ltac:(vm_compute; reflexivity)).
  vm_compute. reflexivity.
Defined.

(** C7: one step reverts [b] only; five steps select both entries. *)
Lemma C7_witness :
  LoadMigrations "migrations" sample_tree = inr (definitions_of sample_tree)
  /\ Manager.RollbackSteps "migrations" sample_tree applied_db 1
     = ({| schema := ["CREATE TABLE a (id INT)"; "CREATE TABLE b (id INT)";
                      "DROP TABLE b"];
           ledger := without_names ["b"] (ledger applied_db);
           next_id := 3 |}, None)
  /\ Manager.steps_selection applied_db 5
     = reverse (Tracker.GetExecutedMigrations applied_db).
Proof.
  split; [exact sample_loads|].
  split.
  - destruct (C7_rollback_steps "migrations" sample_tree applied_db
                (definitions_of sample_tree) 1 sample_loads)
      as (_ & _ & _ & _ & _ & _ & H).
    rewrite (H ["CREATE TABLE a (id INT)"; "CREATE TABLE b (id INT)";
                "DROP TABLE b"] ltac:(vm_compute; reflexivity)).
    vm_compute. reflexivity.
  - destruct (C7_rollback_steps "migrations" sample_tree applied_db
                (definitions_of sample_tree) 5 sample_loads)
      as (_ & _ & _ & H & _).
    apply H. vm_compute. discriminate.
Defined.

(** C8 at [bad_tree]: the second file of the walk has no [_] after its
    timestamp. *)
Lemma C8_witness :
  walk "migrations" bad_tree
    = [ ("migrations", bad_tree);
        ("migrations/2025_01_01_000001_a.sql",
         File "2025_01_01_000001_a.sql"
           (migration_file "CREATE TABLE a (id INT);" "DROP TABLE a;")) ]
      ++ ("migrations/2025_01_01_000001b.sql",
          File "2025_01_01_000001b.sql" "SELECT 1;")
      :: [ ("migrations/2025_01_01_000002_b.sql",
            File "2025_01_01_000002_b.sql"
              (migration_file "CREATE TABLE b (id INT);" "DROP TABLE b;")) ]
  /\ LoadMigrations "migrations" bad_tree
     = inl (NewFileError "Failed to load migrations"
              "[validation] Invalid migration filename: 2025_01_01_000001b.sql").
Proof.
  split; [reflexivity|].
  refine (proj2 (C8_first_bad_filename_aborts_discovery
                   "migrations" "migrations"
                   [ File "2025_01_01_000001_a.sql"
                       (migration_file "CREATE TABLE a (id INT);" "DROP TABLE a;");
                     File "2025_01_01_000001b.sql" "SELECT 1;";
                     File "2025_01_01_000002_b.sql"
                       (migration_file "CREATE TABLE b (id INT);" "DROP TABLE b;") ]
                   [ ("migrations", bad_tree);
                     ("migrations/2025_01_01_000001_a.sql",
                      File "2025_01_01_000001_a.sql"
                        (migration_file "CREATE TABLE a (id INT);"
                                        "DROP TABLE a;")) ]
                   [ ("migrations/2025_01_01_000002_b.sql",
                      File "2025_01_01_000002_b.sql"
                        (migration_file "CREATE TABLE b (id INT);"
                                        "DROP TABLE b;")) ]
                   "migrations/2025_01_01_000001b.sql"
                   "2025_01_01_000001b.sql" "SELECT 1;"
                   eq_refl _ eq_refl _)).
  - constructor; [left; reflexivity|].
    constructor; [right; right; vm_compute; reflexivity | constructor].
  - intros Hshape. apply ParseMigrationFilename_valid in Hshape.
    vm_compute in Hshape. discriminate Hshape.
Defined.

(** C10 at [shrunk_tree]: the file of [a] is gone, its row stays. *)
Lemma C10_witness :
  LoadMigrations "migrations" shrunk_tree = inr (definitions_of shrunk_tree)
  /\ Manager.RollbackMigrations "migrations" shrunk_tree applied_db 0
     = Executor.RollbackMigrations applied_db
         (Executor.migrationsToRollback (definitions_of shrunk_tree)
            (List.filter (has_definition (definitions_of shrunk_tree))
                         (last_batch_selection applied_db))) 0
  /\ {| row_id := 1; row_migration := "a"; row_batch := 1;
        row_checksum := migration_file "CREATE TABLE a (id INT);"
                                       "DROP TABLE a;" |}
     ∈ ledger (fst (Manager.RollbackMigrations "migrations" shrunk_tree
                      applied_db 0)).
Proof.
  assert (Hload : LoadMigrations "migrations" shrunk_tree
                  = inr (definitions_of shrunk_tree))
    by (vm_compute; reflexivity).
  split; [exact Hload|].
  destruct (C10_rollback_skips_entries_without_definition
              "migrations" shrunk_tree applied_db (definitions_of shrunk_tree)
              (Manager.RollbackMigrations "migrations" shrunk_tree applied_db 0)
              (last_batch_selection applied_db) Hload
              (or_introl (ex_intro _ 0 (conj eq_refl eq_refl))))
    as (Heq & Hkept & _).
  split; [exact Heq|].
  apply Hkept.
  - vm_compute. apply list_elem_of_here.
  - vm_compute. reflexivity.
Defined.

(** ** The further theorems at concrete inputs *)

Lemma empty_db_wf : ledger_wf empty_db.
Proof.
  unfold ledger_wf.
  repeat split; apply (bool_decide_unpack _); vm_compute; exact I.
Defined.

(** The invariant, kept by an apply on [grown_tree]. *)
Lemma ledger_wf_witness :
  ledger_wf applied_db
  /\ ledger_wf (fst (Manager.RunMigrations "migrations" grown_tree applied_db 0)).
Proof.
  split; [exact applied_db_wf|].
  exact (proj1 (Manager_keeps_ledger_wf "migrations" grown_tree applied_db 0
                  applied_db_wf)).
Defined.

(** Recording [a] on an empty database, then reading its checksum. *)
Lemma recorded_migration_witness :
  Executor.runSingleMigration empty_db
    (definition_of "2025_01_01_000001_a.sql" "a"
       "CREATE TABLE a (id INT);" "DROP TABLE a;") 1
  = ({| schema := ["CREATE TABLE a (id INT)"];
        ledger := [ {| row_id := 1; row_migration := "a"; row_batch := 1;
                       row_checksum := migration_file "CREATE TABLE a (id INT);"
                                                      "DROP TABLE a;" |} ];
        next_id := 2 |}, None)
  /\ stored_checksum
       {| schema := ["CREATE TABLE a (id INT)"];
          ledger := [ {| row_id := 1; row_migration := "a"; row_batch := 1;
                         row_checksum := migration_file "CREATE TABLE a (id INT);"
                                                        "DROP TABLE a;" |} ];
          next_id := 2 |} "a"
     = Some (migration_file "CREATE TABLE a (id INT);" "DROP TABLE a;").
Proof.
  assert (Hrun : Executor.runSingleMigration empty_db
                   (definition_of "2025_01_01_000001_a.sql" "a"
                      "CREATE TABLE a (id INT);" "DROP TABLE a;") 1
                 = ({| schema := ["CREATE TABLE a (id INT)"];
                       ledger := [ {| row_id := 1; row_migration := "a";
                                      row_batch := 1;
                                      row_checksum :=
                                        migration_file "CREATE TABLE a (id INT);"
                                                       "DROP TABLE a;" |} ];
                       next_id := 2 |}, None))
    by (vm_compute; reflexivity).
  split; [exact Hrun|].
  exact (proj1 (recorded_migration_verifies _ _ _ _ Hrun)).
Defined.

(** A run whose second migration fails: [a] stays applied, the first
    statement of [bad] is rolled back with it, [c] is not tried. *)
Lemma failed_run_witness :
  Executor.RunMigrations empty_db failing_run 0
  = ({| schema := ["CREATE TABLE a (id INT)"];
        ledger := [ {| row_id := 1; row_migration := "a"; row_batch := 1;
                       row_checksum := migration_file "CREATE TABLE a (id INT);"
                                                      "DROP TABLE a;" |} ];
        next_id := 2 |},
     Some (NewMigrationError "Failed to execute SQL statement 2"
             "ERROR: syntax error (SQLSTATE 42601)" "bad"))
  /\ exists applied failing rest,
       failing_run = applied ++ failing :: rest
       /\ exec_bodies (schema empty_db) (up_bodies applied)
          = inr ["CREATE TABLE a (id INT)"].
Proof.
  assert (Hrun : Executor.RunMigrations empty_db failing_run 0
                 = ({| schema := ["CREATE TABLE a (id INT)"];
                       ledger := [ {| row_id := 1; row_migration := "a";
                                      row_batch := 1;
                                      row_checksum :=
                                        migration_file "CREATE TABLE a (id INT);"
                                                       "DROP TABLE a;" |} ];
                       next_id := 2 |},
                    Some (NewMigrationError "Failed to execute SQL statement 2"
                            "ERROR: syntax error (SQLSTATE 42601)" "bad")))
    by (vm_compute; reflexivity).
  split; [exact Hrun|].
  destruct (failed_run_keeps_earlier_migrations _ _ _ _ _ Hrun)
    as (applied & failing & rest & Hsplit & _ & Hexec & _).
  exists applied, failing, rest. split; [exact Hsplit | exact Hexec].
Defined.

(** Two files with the label [users]: the run fails. *)
Lemma duplicate_name_witness :
  ~ NoDup (map Name (Executor.limit_to 0 clashing_run))
  /\ exists err, snd (Executor.RunMigrations empty_db clashing_run 0) = Some err.
Proof.
  assert (Hdup : ~ NoDup (map Name (Executor.limit_to 0 clashing_run))).
  { intros Hnd. apply NoDup_cons in Hnd as [Hout _]. apply Hout.
    apply list_elem_of_here. }
  split; [exact Hdup|].
  exact (duplicate_name_fails_run empty_db clashing_run 0 (or_introl Hdup)).
Defined.

(** [sample_tree] applied from scratch: [a] before [b]. *)
Lemma apply_order_witness :
  ledger_wf empty_db
  /\ LoadMigrations "migrations" sample_tree = inr (definitions_of sample_tree)
  /\ Manager.RunMigrations "migrations" sample_tree empty_db 0 = (applied_db, None)
  /\ exec_bodies (schema empty_db)
       (up_bodies (Executor.limit_to 0
                     (Tracker.GetPendingMigrations empty_db
                        (definitions_of sample_tree))))
     = inr ["CREATE TABLE a (id INT)"; "CREATE TABLE b (id INT)"].
Proof.
  assert (Hrun : Manager.RunMigrations "migrations" sample_tree empty_db 0
                 = (applied_db, None)) by (vm_compute; reflexivity).
  split; [exact empty_db_wf|]. split; [exact sample_loads|].
  split; [exact Hrun|].
  exact (proj1 (proj2 (apply_follows_filename_order "migrations" sample_tree
                         empty_db applied_db 0 (definitions_of sample_tree)
                         empty_db_wf sample_loads Hrun))).
Defined.

(** [sample_tree] applied with limit 1: [b] is what stays pending. *)
Lemma limited_run_witness :
  NoDup (map Name (definitions_of sample_tree))
  /\ LoadMigrations "migrations" sample_tree = inr (definitions_of sample_tree)
  /\ Tracker.GetPendingMigrations empty_db (definitions_of sample_tree)
     = Executor.limit_to 1
         (Tracker.GetPendingMigrations empty_db (definitions_of sample_tree))
       ++ Tracker.GetPendingMigrations
            (fst (Manager.RunMigrations "migrations" sample_tree empty_db 1))
            (definitions_of sample_tree).
Proof.
  assert (Hnd : NoDup (map Name (definitions_of sample_tree)))
    by (apply (bool_decide_unpack _); vm_compute; exact I).
  split; [exact Hnd|]. split; [exact sample_loads|].
  apply (limited_run_leaves_rest_pending "migrations" sample_tree empty_db
           (fst (Manager.RunMigrations "migrations" sample_tree empty_db 1)) 1
           (definitions_of sample_tree) Hnd sample_loads).
  vm_compute. reflexivity.
Defined.


(** [applied_db] reset with both files present. *)
Lemma reset_witness :
  LoadMigrations "migrations" sample_tree = inr (definitions_of sample_tree)
  /\ Manager.ResetAllMigrations "migrations" sample_tree applied_db
     = ({| schema := ["CREATE TABLE a (id INT)"; "CREATE TABLE b (id INT)";
                      "DROP TABLE b"; "DROP TABLE a"];
           ledger := [];
           next_id := 3 |}, None).
Proof.
  split; [exact sample_loads|].
  refine (proj2 (proj2 (reset_empties_ledger "migrations" sample_tree applied_db
                          (definitions_of sample_tree)
                          ["CREATE TABLE a (id INT)"; "CREATE TABLE b (id INT)";
                           "DROP TABLE b"; "DROP TABLE a"]
                          sample_loads _ _))).
  - apply (bool_decide_unpack _). vm_compute. exact I.
  - vm_compute. reflexivity.
Defined.

(** A generated file name, parsed back. *)
Lemma generated_filename_witness :
  timestamp_shape "2025_06_14_180302"
  /\ ParseMigrationFilename
       (GenerateMigrationFilename (fun s => s) "2025_06_14_180302"
          "Create Users-Table")
     = ("2025_06_14_180302", "create_users_table", true).
Proof.
  assert (Hts : timestamp_shape "2025_06_14_180302").
  { exists "2025", "06", "14", "180302". repeat split; reflexivity. }
  split; [exact Hts|].
  rewrite (generated_filename_parses_back (fun s => s) "2025_06_14_180302"
             "Create Users-Table" Hts).
  vm_compute. reflexivity.
Defined.

(** The text [migration_file] builds is of the format, and parses back. *)
Lemma file_format_witness :
  marker_free "-- Migration: example" = true
  /\ marker_free "CREATE TABLE a (id INT);" = true
  /\ marker_free "DROP TABLE a;" = true
  /\ parseMigrationContent
       (migration_file "CREATE TABLE a (id INT);" "DROP TABLE a;")
     = ("CREATE TABLE a (id INT);", "DROP TABLE a;").
Proof.
  split; [reflexivity|]. split; [reflexivity|]. split; [reflexivity|].
  exact (proj1 (file_format_parses_back "-- Migration: example"
                  "CREATE TABLE a (id INT);" "DROP TABLE a;"
                  eq_refl eq_refl eq_refl)).
Defined.

(** Every definition of [sample_tree] is named by its label. *)
Lemma loaded_definition_witness :
  LoadMigrations "migrations" sample_tree = inr (definitions_of sample_tree)
  /\ Forall (fun m => Name m <> "" /\ HasSuffix (Filepath m) ".sql" = true)
            (definitions_of sample_tree).
Proof.
  split; [exact sample_loads|].
  eapply Forall_impl;
    [exact (loaded_definition_name_is_label "migrations" sample_tree
              (definitions_of sample_tree) sample_loads)|].
  intros m (Hs & _ & ts & _ & _ & Hne). auto.
Defined.

(** A rollback whose first migration fails. *)
Lemma failed_rollback_witness :
  Executor.RollbackMigrations applied_db
    [ definition_of "2025_01_01_000002_b.sql" "b" "CREATE TABLE b (id INT);"
        "FAIL to drop;";
      definition_of "2025_01_01_000001_a.sql" "a" "CREATE TABLE a (id INT);"
        "DROP TABLE a;" ] 0
  = (applied_db,
     Some (NewMigrationError "Failed to execute SQL statement 1"
             "ERROR: syntax error (SQLSTATE 42601)" "b"))
  /\ exists reverted, ledger applied_db
                      = without_names (map Name reverted) (ledger applied_db).
Proof.
  assert (Hrun : Executor.RollbackMigrations applied_db
            [ definition_of "2025_01_01_000002_b.sql" "b"
                "CREATE TABLE b (id INT);" "FAIL to drop;";
              definition_of "2025_01_01_000001_a.sql" "a"
                "CREATE TABLE a (id INT);" "DROP TABLE a;" ] 0
          = (applied_db,
             Some (NewMigrationError "Failed to execute SQL statement 1"
                     "ERROR: syntax error (SQLSTATE 42601)" "b")))
    by (vm_compute; reflexivity).
  split; [exact Hrun|].
  destruct (failed_rollback_keeps_earlier_reverts _ _ _ _ _ Hrun)
    as (reverted & failing & rest & _ & Hl & _).
  exists reverted. exact Hl.
Defined.


(** A [create_] migration generated from a free-form label, loaded back. *)
Lemma generated_file_witness :
  timestamp_shape "2025_06_14_180302"
  /\ string_forallb clock_byte "2025-06-14 18:03:02" = true
  /\ after_last_slash "migrations/2025_06_14_180302_create_user_table.sql"
     = snd (GenerateMigration (fun s => s) "2025_06_14_180302"
              "Create User-Table")
  /\ loadMigrationFile "migrations/2025_06_14_180302_create_user_table.sql"
       (generateMigrationContent (fun s => s) "2025-06-14 18:03:02"
          "create_user_table")
     = inr {| ID := 0; Name := "create_user_table";
              Filename := "2025_06_14_180302_create_user_table.sql";
              Filepath := "migrations/2025_06_14_180302_create_user_table.sql";
              Batch := 0;
              Checksum :=
                calculateChecksum
                  (generateMigrationContent (fun s => s) "2025-06-14 18:03:02"
                     "create_user_table");
              UpSQL := fst (generateCreateTableSQL "users") +:+ bytes [10];
              DownSQL := snd (generateCreateTableSQL "users") |}.
Proof.
  assert (Hts : timestamp_shape "2025_06_14_180302").
  { exists "2025", "06", "14", "180302". repeat split; reflexivity. }
  split; [exact Hts|]. split; [reflexivity|]. split; [reflexivity|].
  exact (proj1 (generated_file_loads_back (fun s => s) "2025_06_14_180302"
                  "2025-06-14 18:03:02" "Create User-Table"
                  "migrations/2025_06_14_180302_create_user_table.sql"
                  Hts eq_refl eq_refl)).
Defined.
